(** * place-and-collect: the coin lifecycle of [src/main.js]

    A shallow embedding of the game logic of [main.js] (a WebXR demo built on
    three.js) together with the properties its specification states about
    the entity pool, the spawner, the proximity collector, the collection
    effect, the placement gate and reset.

    Conventions of the embedding.
    - JavaScript numbers are idealised as exact rationals ([Q]); comparisons
      are the decidable comparisons of [Q].  Integer quantities the code
      computes with ([coins.size], the burst count) are kept in [Z] where a
      subtraction can go negative.
    - Objects have identity.  Every [THREE.Mesh] built by [makeCoin] lives in
      a heap ([objects]) and is named by its index; materials live in a
      second heap ([materials]) and a mesh holds the index of its material,
      so two meshes that were given the same material alias it.
    - The module-level [let]/[const] bindings of [main.js] are the fields of
      one record, [World]; every function of the source is a function on
      [World].
    - What comes from the browser and from three.js and is not in the
      repository (the clock, [Math.random], [Math.sin], colour conversion,
      [lookAt], hit-test results, the ray caster) is either an oracle carried
      by the world, an argument of the event, or a member of the [Platform]
      interface.
    - The HUD shows [String(score)] and [String(coins.size)]; the embedding
      keeps the numbers.  Of the scene graph it keeps the coin children of
      [scene].  The renderer, the shared geometry, the shadow flags and
      [onResize] carry no state the game logic reads and are left out. *)

From Stdlib Require Import QArith Qminmax Qround Lqa ZArith Lia Bool String.
From stdpp Require Import base list.

Set Default Proof Using "Type".

(** ** The platform interface *)

(** An RGB triple, as [THREE.Color] stores it. *)
Module Color.
Record t := make { r : Q; g : Q; b : Q }.
End Color.

(** A three-component vector ([THREE.Vector3]; also used for Euler angles). *)
Module Vector3.
Record t := make { x : Q; y : Q; z : Q }.
End Vector3.

(** The numeric and three.js primitives [main.js] calls but does not define. *)
Class Platform := {
  Math_PI : Q;
  Math_sin : Q -> Q;
  Math_cos : Q -> Q;
  Math_sqrt : Q -> Q;
  (** [new THREE.Color(hex)] / [color.setHex(hex)] *)
  Color_ofHex : Z -> Color.t;
  (** [color.getHex()] *)
  Color_getHex : Color.t -> Z;
  (** the Euler angles [obj.lookAt(target)] leaves in [obj.rotation], for an
      object at the given position *)
  Object3D_lookAt : Vector3.t -> Vector3.t -> Vector3.t
}.

(** ** Constants (main.js lines 15-21) *)

Definition MAX_COINS : Z := 30.
Definition SPAWN_INTERVAL_MS : Q := 1400.
Definition COIN_RADIUS : Q := 0.12.
Definition COLLECT_RADIUS : Q := 0.5.
Definition SPAWN_RADIUS_MIN : Q := 0.6.
Definition SPAWN_RADIUS_MAX : Q := 2.6.
Definition COIN_LIFETIME : Q := 20000.

(** ** three.js value types *)

Module Quaternion.
Record t := make { x : Q; y : Q; z : Q; w : Q }.
Definition identity : t := make 0 0 0 1.
End Quaternion.

Module Vec.
Import Vector3.
Local Open Scope Q_scope.

Definition zero : t := make 0 0 0.

(** [v.add(u)] *)
Definition add (v u : t) : t := make (x v + x u) (y v + y u) (z v + z u).

(** [v.addScaledVector(u, s)] *)
Definition addScaledVector (v u : t) (s : Q) : t :=
  make (x v + x u * s) (y v + y u * s) (z v + z u * s).

(** [v.y = s] *)
Definition setY (v : t) (s : Q) : t := make (x v) s (z v).

(** [v.setScalar(s)] *)
Definition setScalar (s : Q) : t := make s s s.

(** [v.applyQuaternion(q)] *)
Definition applyQuaternion (v : t) (q : Quaternion.t) : t :=
  let qx := Quaternion.x q in let qy := Quaternion.y q in
  let qz := Quaternion.z q in let qw := Quaternion.w q in
  let tx := 2 * (qy * z v - qz * y v) in
  let ty := 2 * (qz * x v - qx * z v) in
  let tz := 2 * (qx * y v - qy * x v) in
  make (x v + qw * tx + qy * tz - qz * ty)
       (y v + qw * ty + qz * tx - qx * tz)
       (z v + qw * tz + qx * ty - qy * tx).

Definition distanceToSquared (v u : t) : Q :=
  let dx := x v - x u in let dy := y v - y u in let dz := z v - z u in
  dx * dx + dy * dy + dz * dz.

Section WithPlatform.
Context `{Platform}.

(** [v.length()] *)
Definition length (v : t) : Q :=
  Math_sqrt (x v * x v + y v * y v + z v * z v).

(** [v.normalize()], that is [v.divideScalar(v.length() || 1)] *)
Definition normalize (v : t) : t :=
  let l := length v in
  let d := if Qeq_bool l 0 then 1 else l in
  make (x v * (1 / d)) (y v * (1 / d)) (z v * (1 / d)).

(** [v.distanceTo(u)] *)
Definition distanceTo (v u : t) : Q := Math_sqrt (distanceToSquared v u).
End WithPlatform.
End Vec.

(** [THREE.MathUtils.lerp(x, y, t)] *)
Definition lerp (x y t : Q) : Q := (1 - t) * x + t * y.

(** The helper [main.js] installs as [THREE.MathUtils.lerpColors]
    (lines 344-348). *)
Definition lerpColors (c1 c2 : Color.t) (t : Q) : Color.t :=
  Color.make (Color.r c1 + (Color.r c2 - Color.r c1) * t)
             (Color.g c1 + (Color.g c2 - Color.g c1) * t)
             (Color.b c1 + (Color.b c2 - Color.b c1) * t).

(** A [MeshStandardMaterial], with the fields the program sets or reads. *)
Module Material.
Record t := make {
  color : Color.t;
  emissive : Color.t;
  metalness : Q;
  roughness : Q;
  opacity : Q;
  transparent : bool
}.
End Material.

(** What [makeCoin] stores in [m.userData]. *)
Module UserData.
Record t := make {
  type : string;
  createdAt : Q;
  spin : Q;
  bobAmp : Q;
  phase : Q
}.
End UserData.

(** A coin mesh.  [material] is a reference into the heap of materials. *)
Module Mesh.
Record t := make {
  position : Vector3.t;
  rotation : Vector3.t;
  scale : Vector3.t;
  material : nat;
  userData : UserData.t
}.
Definition set_position (v : Vector3.t) (m : t) : t :=
  make v (rotation m) (scale m) (material m) (userData m).
Definition set_rotation (v : Vector3.t) (m : t) : t :=
  make (position m) v (scale m) (material m) (userData m).
Definition set_scale (v : Vector3.t) (m : t) : t :=
  make (position m) (rotation m) v (material m) (userData m).
End Mesh.

(** The spawn root, the reticle and the XR camera: a pose and a visibility
    flag. *)
Module Object3D.
Record t := make {
  position : Vector3.t;
  quaternion : Quaternion.t;
  visible : bool
}.
Definition fresh : t := make Vec.zero Quaternion.identity true.
End Object3D.

(** The closure [tween] of [collect]: the variables it captured. *)
Module Tween.
Record t := make {
  obj : nat;
  start : Q;
  startScale : Q;
  startEm : Z
}.
(** [const dur = 180] *)
Definition dur : Q := 180.
End Tween.

(** A hit-test pose, already decomposed into position and orientation. *)
Record Pose := mkPose { pose_position : Vector3.t; pose_quaternion : Quaternion.t }.

(** ** The world: the module-level state of main.js, the scene graph, the
    part of the DOM the program writes, and the browser *)

Record World := mkWorld {
  placed : bool;
  paused : bool;
  coins : list nat;
  score : nat;
  lastSpawnAt : Q;
  spawnRoot : Object3D.t;
  reticle : Object3D.t;
  hitTestSource : bool;
  clock : bool;
  objects : list Mesh.t;
  materials : list Material.t;
  _coinMat : option nat;
  scene : list nat;
  rafQueue : list Tween.t;
  dom_score : nat;
  dom_alive : nat;
  dom_status : string;
  dom_btnPause : string;
  dom_btnBurst_disabled : bool;
  xrCamera : Object3D.t;
  perf : nat -> Q;
  perf_reads : nat;
  rnd : nat -> Q;
  rnd_draws : nat
}.

Definition set_placed (v : bool) (w : World) : World :=
  mkWorld v (paused w) (coins w) (score w) (lastSpawnAt w) (spawnRoot w)
    (reticle w) (hitTestSource w) (clock w) (objects w) (materials w)
    (_coinMat w) (scene w) (rafQueue w) (dom_score w) (dom_alive w)
    (dom_status w) (dom_btnPause w) (dom_btnBurst_disabled w) (xrCamera w)
    (perf w) (perf_reads w) (rnd w) (rnd_draws w).
Definition set_paused (v : bool) (w : World) : World :=
  mkWorld (placed w) v (coins w) (score w) (lastSpawnAt w) (spawnRoot w)
    (reticle w) (hitTestSource w) (clock w) (objects w) (materials w)
    (_coinMat w) (scene w) (rafQueue w) (dom_score w) (dom_alive w)
    (dom_status w) (dom_btnPause w) (dom_btnBurst_disabled w) (xrCamera w)
    (perf w) (perf_reads w) (rnd w) (rnd_draws w).
Definition set_coins (v : list nat) (w : World) : World :=
  mkWorld (placed w) (paused w) v (score w) (lastSpawnAt w) (spawnRoot w)
    (reticle w) (hitTestSource w) (clock w) (objects w) (materials w)
    (_coinMat w) (scene w) (rafQueue w) (dom_score w) (dom_alive w)
    (dom_status w) (dom_btnPause w) (dom_btnBurst_disabled w) (xrCamera w)
    (perf w) (perf_reads w) (rnd w) (rnd_draws w).
Definition set_score (v : nat) (w : World) : World :=
  mkWorld (placed w) (paused w) (coins w) v (lastSpawnAt w) (spawnRoot w)
    (reticle w) (hitTestSource w) (clock w) (objects w) (materials w)
    (_coinMat w) (scene w) (rafQueue w) (dom_score w) (dom_alive w)
    (dom_status w) (dom_btnPause w) (dom_btnBurst_disabled w) (xrCamera w)
    (perf w) (perf_reads w) (rnd w) (rnd_draws w).
Definition set_lastSpawnAt (v : Q) (w : World) : World :=
  mkWorld (placed w) (paused w) (coins w) (score w) v (spawnRoot w)
    (reticle w) (hitTestSource w) (clock w) (objects w) (materials w)
    (_coinMat w) (scene w) (rafQueue w) (dom_score w) (dom_alive w)
    (dom_status w) (dom_btnPause w) (dom_btnBurst_disabled w) (xrCamera w)
    (perf w) (perf_reads w) (rnd w) (rnd_draws w).
Definition set_spawnRoot (v : Object3D.t) (w : World) : World :=
  mkWorld (placed w) (paused w) (coins w) (score w) (lastSpawnAt w) v
    (reticle w) (hitTestSource w) (clock w) (objects w) (materials w)
    (_coinMat w) (scene w) (rafQueue w) (dom_score w) (dom_alive w)
    (dom_status w) (dom_btnPause w) (dom_btnBurst_disabled w) (xrCamera w)
    (perf w) (perf_reads w) (rnd w) (rnd_draws w).
Definition set_reticle (v : Object3D.t) (w : World) : World :=
  mkWorld (placed w) (paused w) (coins w) (score w) (lastSpawnAt w)
    (spawnRoot w) v (hitTestSource w) (clock w) (objects w) (materials w)
    (_coinMat w) (scene w) (rafQueue w) (dom_score w) (dom_alive w)
    (dom_status w) (dom_btnPause w) (dom_btnBurst_disabled w) (xrCamera w)
    (perf w) (perf_reads w) (rnd w) (rnd_draws w).
Definition set_hitTestSource (v : bool) (w : World) : World :=
  mkWorld (placed w) (paused w) (coins w) (score w) (lastSpawnAt w)
    (spawnRoot w) (reticle w) v (clock w) (objects w) (materials w)
    (_coinMat w) (scene w) (rafQueue w) (dom_score w) (dom_alive w)
    (dom_status w) (dom_btnPause w) (dom_btnBurst_disabled w) (xrCamera w)
    (perf w) (perf_reads w) (rnd w) (rnd_draws w).
Definition set_clock (v : bool) (w : World) : World :=
  mkWorld (placed w) (paused w) (coins w) (score w) (lastSpawnAt w)
    (spawnRoot w) (reticle w) (hitTestSource w) v (objects w) (materials w)
    (_coinMat w) (scene w) (rafQueue w) (dom_score w) (dom_alive w)
    (dom_status w) (dom_btnPause w) (dom_btnBurst_disabled w) (xrCamera w)
    (perf w) (perf_reads w) (rnd w) (rnd_draws w).
Definition set_objects (v : list Mesh.t) (w : World) : World :=
  mkWorld (placed w) (paused w) (coins w) (score w) (lastSpawnAt w)
    (spawnRoot w) (reticle w) (hitTestSource w) (clock w) v (materials w)
    (_coinMat w) (scene w) (rafQueue w) (dom_score w) (dom_alive w)
    (dom_status w) (dom_btnPause w) (dom_btnBurst_disabled w) (xrCamera w)
    (perf w) (perf_reads w) (rnd w) (rnd_draws w).
Definition set_materials (v : list Material.t) (w : World) : World :=
  mkWorld (placed w) (paused w) (coins w) (score w) (lastSpawnAt w)
    (spawnRoot w) (reticle w) (hitTestSource w) (clock w) (objects w) v
    (_coinMat w) (scene w) (rafQueue w) (dom_score w) (dom_alive w)
    (dom_status w) (dom_btnPause w) (dom_btnBurst_disabled w) (xrCamera w)
    (perf w) (perf_reads w) (rnd w) (rnd_draws w).
Definition set_coinMat (v : option nat) (w : World) : World :=
  mkWorld (placed w) (paused w) (coins w) (score w) (lastSpawnAt w)
    (spawnRoot w) (reticle w) (hitTestSource w) (clock w) (objects w)
    (materials w) v (scene w) (rafQueue w) (dom_score w) (dom_alive w)
    (dom_status w) (dom_btnPause w) (dom_btnBurst_disabled w) (xrCamera w)
    (perf w) (perf_reads w) (rnd w) (rnd_draws w).
Definition set_scene (v : list nat) (w : World) : World :=
  mkWorld (placed w) (paused w) (coins w) (score w) (lastSpawnAt w)
    (spawnRoot w) (reticle w) (hitTestSource w) (clock w) (objects w)
    (materials w) (_coinMat w) v (rafQueue w) (dom_score w) (dom_alive w)
    (dom_status w) (dom_btnPause w) (dom_btnBurst_disabled w) (xrCamera w)
    (perf w) (perf_reads w) (rnd w) (rnd_draws w).
Definition set_rafQueue (v : list Tween.t) (w : World) : World :=
  mkWorld (placed w) (paused w) (coins w) (score w) (lastSpawnAt w)
    (spawnRoot w) (reticle w) (hitTestSource w) (clock w) (objects w)
    (materials w) (_coinMat w) (scene w) v (dom_score w) (dom_alive w)
    (dom_status w) (dom_btnPause w) (dom_btnBurst_disabled w) (xrCamera w)
    (perf w) (perf_reads w) (rnd w) (rnd_draws w).
Definition set_dom_score (v : nat) (w : World) : World :=
  mkWorld (placed w) (paused w) (coins w) (score w) (lastSpawnAt w)
    (spawnRoot w) (reticle w) (hitTestSource w) (clock w) (objects w)
    (materials w) (_coinMat w) (scene w) (rafQueue w) v (dom_alive w)
    (dom_status w) (dom_btnPause w) (dom_btnBurst_disabled w) (xrCamera w)
    (perf w) (perf_reads w) (rnd w) (rnd_draws w).
Definition set_dom_alive (v : nat) (w : World) : World :=
  mkWorld (placed w) (paused w) (coins w) (score w) (lastSpawnAt w)
    (spawnRoot w) (reticle w) (hitTestSource w) (clock w) (objects w)
    (materials w) (_coinMat w) (scene w) (rafQueue w) (dom_score w) v
    (dom_status w) (dom_btnPause w) (dom_btnBurst_disabled w) (xrCamera w)
    (perf w) (perf_reads w) (rnd w) (rnd_draws w).
Definition set_dom_status (v : string) (w : World) : World :=
  mkWorld (placed w) (paused w) (coins w) (score w) (lastSpawnAt w)
    (spawnRoot w) (reticle w) (hitTestSource w) (clock w) (objects w)
    (materials w) (_coinMat w) (scene w) (rafQueue w) (dom_score w)
    (dom_alive w) v (dom_btnPause w) (dom_btnBurst_disabled w) (xrCamera w)
    (perf w) (perf_reads w) (rnd w) (rnd_draws w).
Definition set_dom_btnPause (v : string) (w : World) : World :=
  mkWorld (placed w) (paused w) (coins w) (score w) (lastSpawnAt w)
    (spawnRoot w) (reticle w) (hitTestSource w) (clock w) (objects w)
    (materials w) (_coinMat w) (scene w) (rafQueue w) (dom_score w)
    (dom_alive w) (dom_status w) v (dom_btnBurst_disabled w) (xrCamera w)
    (perf w) (perf_reads w) (rnd w) (rnd_draws w).
Definition set_dom_btnBurst_disabled (v : bool) (w : World) : World :=
  mkWorld (placed w) (paused w) (coins w) (score w) (lastSpawnAt w)
    (spawnRoot w) (reticle w) (hitTestSource w) (clock w) (objects w)
    (materials w) (_coinMat w) (scene w) (rafQueue w) (dom_score w)
    (dom_alive w) (dom_status w) (dom_btnPause w) v (xrCamera w) (perf w)
    (perf_reads w) (rnd w) (rnd_draws w).
Definition set_xrCamera (v : Object3D.t) (w : World) : World :=
  mkWorld (placed w) (paused w) (coins w) (score w) (lastSpawnAt w)
    (spawnRoot w) (reticle w) (hitTestSource w) (clock w) (objects w)
    (materials w) (_coinMat w) (scene w) (rafQueue w) (dom_score w)
    (dom_alive w) (dom_status w) (dom_btnPause w) (dom_btnBurst_disabled w)
    v (perf w) (perf_reads w) (rnd w) (rnd_draws w).
Definition set_perf (v : nat -> Q) (w : World) : World :=
  mkWorld (placed w) (paused w) (coins w) (score w) (lastSpawnAt w)
    (spawnRoot w) (reticle w) (hitTestSource w) (clock w) (objects w)
    (materials w) (_coinMat w) (scene w) (rafQueue w) (dom_score w)
    (dom_alive w) (dom_status w) (dom_btnPause w) (dom_btnBurst_disabled w)
    (xrCamera w) v (perf_reads w) (rnd w) (rnd_draws w).
Definition set_perf_reads (v : nat) (w : World) : World :=
  mkWorld (placed w) (paused w) (coins w) (score w) (lastSpawnAt w)
    (spawnRoot w) (reticle w) (hitTestSource w) (clock w) (objects w)
    (materials w) (_coinMat w) (scene w) (rafQueue w) (dom_score w)
    (dom_alive w) (dom_status w) (dom_btnPause w) (dom_btnBurst_disabled w)
    (xrCamera w) (perf w) v (rnd w) (rnd_draws w).
Definition set_rnd (v : nat -> Q) (w : World) : World :=
  mkWorld (placed w) (paused w) (coins w) (score w) (lastSpawnAt w)
    (spawnRoot w) (reticle w) (hitTestSource w) (clock w) (objects w)
    (materials w) (_coinMat w) (scene w) (rafQueue w) (dom_score w)
    (dom_alive w) (dom_status w) (dom_btnPause w) (dom_btnBurst_disabled w)
    (xrCamera w) (perf w) (perf_reads w) v (rnd_draws w).
Definition set_rnd_draws (v : nat) (w : World) : World :=
  mkWorld (placed w) (paused w) (coins w) (score w) (lastSpawnAt w)
    (spawnRoot w) (reticle w) (hitTestSource w) (clock w) (objects w)
    (materials w) (_coinMat w) (scene w) (rafQueue w) (dom_score w)
    (dom_alive w) (dom_status w) (dom_btnPause w) (dom_btnBurst_disabled w)
    (xrCamera w) (perf w) (perf_reads w) (rnd w) v.

(** ** JavaScript containers *)

(** [coins] is a JavaScript [Set] of mesh references.  It iterates in
    insertion order and holds no duplicates, so it is a list of handles;
    [add] of a member changes nothing. *)
Module JsSet.
Definition has (s : list nat) (x : nat) : bool := bool_decide (x ∈ s).
Definition add (s : list nat) (x : nat) : list nat :=
  if has s x then s else s ++ [x].
Definition delete (s : list nat) (x : nat) : list nat :=
  List.filter (fun y => negb (Nat.eqb y x)) s.
Definition size (s : list nat) : Z := Z.of_nat (length s).
End JsSet.

(** The coin children of [scene].  [scene.add(o)] detaches [o] from its
    parent, when it has one, and appends it; [scene.remove(o)] drops it. *)
Module Children.
Definition remove (ch : list nat) (o : nat) : list nat := JsSet.delete ch o.
Definition add (ch : list nat) (o : nat) : list nat := remove ch o ++ [o].
End Children.

(** ** The program *)

Section Program.
Context `{Platform}.
Local Open Scope Q_scope.

(** [performance.now()]: the next reading of the clock oracle. *)
Definition performance_now (w : World) : Q * World :=
  (perf w (perf_reads w), set_perf_reads (S (perf_reads w)) w).

(** [Math.random()]: the next draw of the random oracle. *)
Definition Math_random (w : World) : Q * World :=
  (rnd w (rnd_draws w), set_rnd_draws (S (rnd_draws w)) w).

(** Mutation of the mesh behind a handle. *)
Definition update_mesh (h : nat) (f : Mesh.t -> Mesh.t) (w : World) : World :=
  set_objects (alter f h (objects w)) w.

(** Mutation of the material behind a reference. *)
Definition update_material (r : nat) (f : Material.t -> Material.t)
    (w : World) : World :=
  set_materials (alter f r (materials w)) w.

(** lines 314-317 *)
Definition updateHUD (w : World) : World :=
  set_dom_alive (length (coins w)) (set_dom_score (score w) w).

(** lines 208-215: the material is created on first use and the same
    object is returned ever after. *)
Definition getSharedCoinMat (w : World) : nat * World :=
  match _coinMat w with
  | Some m => (m, w)
  | None =>
      let m := length (materials w) in
      let fresh :=
        Material.make (Color_ofHex 0xffd54a) (Color_ofHex 0x553300)
                      0.8 0.25 1 false in
      (m, set_coinMat (Some m) (set_materials (materials w ++ [fresh]) w))
  end.

(** lines 189-201.  The new mesh is appended to the heap; its handle is
    its index. *)
Definition makeCoin (w : World) : nat * World :=
  let '(mat, w) := getSharedCoinMat w in
  let '(now, w) := performance_now w in
  let '(r1, w) := Math_random w in
  let '(r2, w) := Math_random w in
  let '(r3, w) := Math_random w in
  let '(r4, w) := Math_random w in
  let ud :=
    UserData.make "coin" now
      ((1.2 + r1 * 1.2) * (if Qlt_le_dec r2 0.5 then -1 else 1))
      (0.06 + r3 * 0.06)
      (r4 * Math_PI * 2) in
  let m := Mesh.make Vec.zero Vec.zero (Vec.setScalar 1) mat ud in
  (length (objects w), set_objects (objects w ++ [m]) w).

(** lines 217-233 *)
Definition positionCoinAroundRoot (w : World) (m : nat) : World :=
  let '(u1, w) := Math_random w in
  let r := lerp SPAWN_RADIUS_MIN SPAWN_RADIUS_MAX u1 in
  let '(u2, w) := Math_random w in
  let theta := u2 * Math_PI * 2 in
  let offset := Vector3.make (Math_cos theta * r) 0 (Math_sin theta * r) in
  let offset := Vec.applyQuaternion offset (Object3D.quaternion (spawnRoot w)) in
  let base := Vec.add (Object3D.position (spawnRoot w)) offset in
  let base :=
    Vec.setY base (Vector3.y (Object3D.position (spawnRoot w)) + 0.02) in
  let target := Object3D.position (xrCamera w) in
  update_mesh m
    (fun o => Mesh.set_rotation (Object3D_lookAt base target)
                (Mesh.set_position base o)) w.

(** The four statements [maybeSpawnCoins] (lines 182-185) and the body of
    the loop of [spawnBurst] (lines 294-297) share. *)
Definition spawnOne (w : World) : World :=
  let '(c, w) := makeCoin w in
  let w := positionCoinAroundRoot w c in
  let w := set_scene (Children.add (scene w) c) w in
  set_coins (JsSet.add (coins w) c) w.

(** lines 177-187 *)
Definition maybeSpawnCoins (w : World) (nowMs : Q) : World :=
  if (MAX_COINS <=? JsSet.size (coins w))%Z then w else
  let '(u, w) := Math_random w in
  if Qlt_le_dec (nowMs - lastSpawnAt w) (SPAWN_INTERVAL_MS * (0.7 + u * 0.8))
  then w else
  let w := set_lastSpawnAt nowMs w in
  let w := spawnOne w in
  updateHUD w.

(** The idle motion of one coin (lines 240-241). *)
Definition idleMotion (w : World) (dt t : Q) (o : Mesh.t) : Mesh.t :=
  let ud := Mesh.userData o in
  let rot := Mesh.rotation o in
  let o :=
    Mesh.set_rotation
      (Vec.setY rot (Vector3.y rot + UserData.spin ud * dt)) o in
  Mesh.set_position
    (Vec.setY (Mesh.position o)
       (Vector3.y (Object3D.position (spawnRoot w)) + 0.02
        + Math_sin (t + UserData.phase ud) * UserData.bobAmp ud)) o.

(** [nowMs - c.userData.createdAt > COIN_LIFETIME] (line 243) *)
Definition expired (w : World) (nowMs : Q) (c : nat) : bool :=
  match objects w !! c with
  | Some o =>
      if Qlt_le_dec COIN_LIFETIME (nowMs - UserData.createdAt (Mesh.userData o))
      then true else false
  | None => false
  end.

(** The body of the first loop of [updateCoins] (lines 238-244): the state
    is the world and the array [toRemove]. *)
Definition updateCoins_visit (dt nowMs : Q) (acc : World * list nat)
    (c : nat) : World * list nat :=
  let w := update_mesh c (idleMotion (fst acc) dt (nowMs * 0.001)) (fst acc) in
  (w, if expired w nowMs c then snd acc ++ [c] else snd acc).

(** The body of the second loop (lines 245-248). *)
Definition evict (w : World) (c : nat) : World :=
  let w := set_scene (Children.remove (scene w) c) w in
  set_coins (JsSet.delete (coins w) c) w.

(** lines 235-250 *)
Definition updateCoins (w : World) (dt nowMs : Q) : World :=
  let acc := fold_left (updateCoins_visit dt nowMs) (coins w) (w, []) in
  let toRemove := snd acc in
  let w := fold_left evict toRemove (fst acc) in
  if (length toRemove =? 0)%nat then w else updateHUD w.

(** One invocation of the closure [tween] (lines 271-283). *)
Definition tween (w : World) (tw : Tween.t) : World :=
  let '(now, w) := performance_now w in
  let t := Qmin 1 ((now - Tween.start tw) / Tween.dur) in
  let s := Tween.startScale tw * (1 + 1.2 * t) in
  let o := Tween.obj tw in
  let w := update_mesh o (Mesh.set_scale (Vec.setScalar s)) w in
  let w :=
    match objects w !! o with
    | Some m =>
        update_material (Mesh.material m)
          (fun mat =>
             Material.make (Material.color mat)
               (Color_ofHex
                  (Color_getHex
                     (lerpColors (Color_ofHex (Tween.startEm tw))
                                 (Color_ofHex 0xffffff) t)))
               (Material.metalness mat) (Material.roughness mat)
               (1 - t) true) w
    | None => w
    end in
  if Qlt_le_dec t 1
  then set_rafQueue (rafQueue w ++ [tw]) w
  else set_scene (Children.remove (scene w) o) w.

(** lines 262-269 of [collect]: the membership guard, the removal from the
    pool and the values the closure captures.  [None] is the early
    return. *)
Definition collect_enter (w : World) (obj : nat) : option (World * Tween.t) :=
  if negb (JsSet.has (coins w) obj) then None else
  let w := set_coins (JsSet.delete (coins w) obj) w in
  let '(start, w) := performance_now w in
  let startScale :=
    match objects w !! obj with
    | Some m => Vector3.x (Mesh.scale m)
    | None => 0
    end in
  let startEm :=
    match objects w !! obj ≫= (fun m => materials w !! Mesh.material m) with
    | Some mat => Color_getHex (Material.emissive mat)
    | None => 0%Z
    end in
  Some (w, Tween.make obj start startScale startEm).

(** lines 261-288 *)
Definition collect (w : World) (obj : nat) : World :=
  match collect_enter w obj with
  | None => w
  | Some (w, tw) =>
      let w := tween w tw in
      let w := set_score (score w + 1)%nat w in
      updateHUD w
  end.

(** [c.position.distanceTo(head) < COLLECT_RADIUS] (line 256) *)
Definition near (w : World) (head : Vector3.t) (c : nat) : bool :=
  match objects w !! c with
  | Some o =>
      if Qlt_le_dec (Vec.distanceTo (Mesh.position o) head) COLLECT_RADIUS
      then true else false
  | None => false
  end.

(** lines 252-259 *)
Definition checkProximityCollect (w : World) : World :=
  let head := Object3D.position (xrCamera w) in
  let toRemove := List.filter (near w head) (coins w) in
  fold_left collect toRemove w.

(** lines 290-300 *)
Definition spawnBurst (w : World) : World :=
  if negb (placed w) then w else
  let n := Z.min 10 (MAX_COINS - JsSet.size (coins w)) in
  let w := Nat.iter (Z.to_nat n) spawnOne w in
  updateHUD w.

(** lines 302-312 *)
Definition resetGame (w : World) : World :=
  let w :=
    fold_left (fun w c => set_scene (Children.remove (scene w) c) w)
              (coins w) w in
  let w := set_coins [] w in
  let w := set_score 0%nat w in
  let w := set_placed false w in
  let w := set_dom_btnBurst_disabled true w in
  let w := set_dom_btnPause "pause" w in
  let w := set_paused false w in
  let w :=
    set_dom_status "find a surface, then tap to place the spawn point." w in
  updateHUD w.

(** lines 144-175.  [hit] is what the ray caster found under the pointer:
    [hits[0].object] when [hits.length] is not zero. *)
Definition onPointerDown (w : World) (hit : option nat) : World :=
  if negb (placed w) then
    if Object3D.visible (reticle w) then
      let w :=
        set_spawnRoot
          (Object3D.make (Object3D.position (reticle w))
                         (Object3D.quaternion (reticle w))
                         (Object3D.visible (spawnRoot w))) w in
      let w := set_placed true w in
      let w := set_dom_btnBurst_disabled false w in
      set_dom_status
        "walk into coins to collect them. they’ll keep spawning." w
    else
      let xrCam := xrCamera w in
      let origin := Object3D.position xrCam in
      let fwd :=
        Vec.normalize
          (Vec.applyQuaternion (Vector3.make 0 0 (-1))
                               (Object3D.quaternion xrCam)) in
      let p := Vec.addScaledVector origin fwd 1.5 in
      let p := Vec.setY p (Vector3.y p - 0.8) in
      let w :=
        set_spawnRoot
          (Object3D.make p (Object3D.quaternion (spawnRoot w))
                         (Object3D.visible (spawnRoot w))) w in
      let w := set_placed true w in
      let w := set_dom_btnBurst_disabled false w in
      set_dom_status
        "fallback placement used. walk into coins to collect them." w
  else
    match hit with
    | Some o => collect w o
    | None => w
    end.

(** lines 118-142.  [frame] is [None] when the callback got no XR frame;
    otherwise it lists, for each hit-test result, the pose [getPose]
    returns for it. *)
Definition updateReticle (w : World) (frame : option (list (option Pose)))
    : World :=
  let hide w :=
    set_reticle (Object3D.make (Object3D.position (reticle w))
                               (Object3D.quaternion (reticle w)) false) w in
  match (if hitTestSource w then frame else None) with
  | None => hide w
  | Some hits =>
      let w :=
        match hits with
        | Some pose :: _ =>
            set_reticle
              (Object3D.make (pose_position pose) (pose_quaternion pose) true)
              w
        | _ => hide w
        end in
      if negb (placed w) then
        set_dom_status
          (if Object3D.visible (reticle w)
           then "tap to place spawn point."
           else "move your phone to help it find a surface…")
          w
      else w
  end.

(** lines 103-116.  [delta] is what [clock.getDelta()] returns. *)
Definition onXRFrame (w : World) (time delta : Q)
    (frame : option (list (option Pose))) : World :=
  let dt := if clock w then delta else 0.016 in
  let w := updateReticle w frame in
  if negb (paused w) && placed w then
    let w := maybeSpawnCoins w time in
    let w := updateCoins w dt time in
    checkProximityCollect w
  else w.

(** The click handler of the pause button (line 64). *)
Definition onPauseClick (w : World) : World :=
  let w := set_paused (negb (paused w)) w in
  set_dom_btnPause (if paused w then "resume" else "pause") w.

(** The [sessionstart] listener (lines 74-81), once its awaits are done. *)
Definition onSessionStart (w : World) : World :=
  set_lastSpawnAt 0 (set_clock true (set_hitTestSource true w)).

(** The [sessionend] listener (lines 84-89). *)
Definition onSessionEnd (w : World) : World :=
  let w := set_hitTestSource false w in
  let w := set_placed false w in
  let w :=
    set_dom_status "find a surface, then tap to place the spawn point." w in
  set_dom_btnBurst_disabled true w.

(** The browser runs the callbacks queued by [requestAnimationFrame]: the
    queue is emptied, then every callback that was in it is called. *)
Definition runAnimationFrame (w : World) : World :=
  fold_left tween (rafQueue w) (set_rafQueue [] w).

(** *** Events *)

(** What can happen to the page between two states.  A click on the burst
    button reaches its listener only while the button is enabled. *)
Inductive Event :=
| XRFrame (time delta : Q) (frame : option (list (option Pose)))
| PointerDown (hit : option nat)
| ResetClick
| PauseClick
| BurstClick
| SessionStart
| SessionEnd
| AnimationFrame
| CameraMoved (pose : Object3D.t).

Definition step (w : World) (e : Event) : World :=
  match e with
  | XRFrame time delta frame => onXRFrame w time delta frame
  | PointerDown hit => onPointerDown w hit
  | ResetClick => resetGame w
  | PauseClick => onPauseClick w
  | BurstClick => if dom_btnBurst_disabled w then w else spawnBurst w
  | SessionStart => onSessionStart w
  | SessionEnd => onSessionEnd w
  | AnimationFrame => runAnimationFrame w
  | CameraMoved pose => set_xrCamera pose w
  end.

Definition run (w : World) (es : list Event) : World := fold_left step es w.

(** What the page gives the program when it loads. *)
Record Host := mkHost {
  host_camera : Object3D.t;
  host_perf : nat -> Q;
  host_random : nat -> Q;
  html_score : nat;
  html_alive : nat;
  html_status : string;
  html_btnPause : string;
  html_btnBurst_disabled : bool
}.

(** The state [init()] (lines 35-95) leaves behind. *)
Definition init (h : Host) : World :=
  mkWorld false false [] 0%nat 0
    Object3D.fresh
    (Object3D.make Vec.zero Quaternion.identity false)
    false false [] [] None [] []
    (html_score h) (html_alive h) (html_status h) (html_btnPause h)
    (html_btnBurst_disabled h)
    (host_camera h) (host_perf h) 0%nat (host_random h) 0%nat.

Inductive reachable : World -> Prop :=
| reachable_init h : reachable (init h)
| reachable_step w e : reachable w -> reachable (step w e).

End Program.

(** ** A reference platform

    A small platform of rational functions, for running the program on
    concrete inputs: Bhaskara's rational approximation of the sine after
    reduction to one period, a few Newton steps for the square root, colours
    without colour management.  Orientation is not computed: [lookAt] leaves
    the angles at zero. *)
Module Ref.
Local Open Scope Q_scope.

Definition pi : Q := 3.1416.

(** Six decimals are kept. *)
Definition round6 (x : Q) : Q :=
  Qred (inject_Z (Qfloor (x * 1000000)) / 1000000).

(** The argument reduced to [0, 2 pi). *)
Definition wrap (x : Q) : Q := x - 2 * pi * inject_Z (Qfloor (x / (2 * pi))).

(** The sine on [0, pi]. *)
Definition sin_arc (x : Q) : Q :=
  16 * x * (pi - x) / (5 * pi * pi - 4 * x * (pi - x)).

Definition sin (x : Q) : Q :=
  let y := wrap (round6 x) in
  round6 (if Qle_bool y pi then sin_arc y else - sin_arc (y - pi)).
Definition cos (x : Q) : Q := sin (x + pi / 2).

Definition sqrt (x : Q) : Q :=
  let x := round6 x in
  if Qle_bool x 0 then 0
  else Nat.iter 8 (fun y => round6 ((y + x / y) / 2)) 1.

Definition channel (hex : Z) (shift : Z) : Q :=
  inject_Z (Z.land (Z.shiftr hex shift) 255) / 255.
Definition ofHex (hex : Z) : Color.t :=
  Color.make (channel hex 16) (channel hex 8) (channel hex 0).

Definition byte (c : Q) : Z :=
  Z.max 0 (Z.min 255 (Qfloor (c * 255 + 1 / 2))).
Definition getHex (c : Color.t) : Z :=
  (byte (Color.r c) * 65536 + byte (Color.g c) * 256 + byte (Color.b c))%Z.

Definition platform : Platform :=
  {| Math_PI := pi; Math_sin := sin; Math_cos := cos; Math_sqrt := sqrt;
     Color_ofHex := ofHex; Color_getHex := getHex;
     Object3D_lookAt := fun _ _ => Vec.zero |}.

(** The random draws of the reference page: hundredths, from a linear
    congruence. *)
Definition random (n : nat) : Q :=
  inject_Z ((37 * Z.of_nat n + 11) mod 100) / 100.

(** A page whose clock advances by 16 ms per reading from 1000 ms, with the
    viewer at the origin looking down the negative z axis. *)
Definition host : Host :=
  mkHost (Object3D.make Vec.zero Quaternion.identity true)
         (fun n => 1000 + 16 * inject_Z (Z.of_nat n))
         random
         0 0 "" "pause" true.

Definition init : World := @init host.
Definition step : World -> Event -> World := @step platform.
Definition run : World -> list Event -> World := @run platform.
End Ref.

(** ** Vocabulary of the properties *)

(** The part of the state no coin operation writes: the placement gate, the
    pause flag, the anchor, the camera, the session and the two oracles. *)
Definition base (w : World) :=
  (placed w, paused w, spawnRoot w, reticle w, xrCamera w,
   hitTestSource w, clock w, perf w, rnd w).

(** The attributes of the meshes the collection effect never writes. *)
Definition body (o : Mesh.t) :=
  (Mesh.position o, Mesh.rotation o, Mesh.material o, Mesh.userData o).

(** The attributes of the meshes the idle motion never writes. *)
Definition look (o : Mesh.t) := (Mesh.scale o, Mesh.material o, Mesh.userData o).

(** The pool holds each handle once, and only handles of meshes that have
    been created. *)
Definition pool_wf (w : World) : Prop :=
  NoDup (coins w) /\ Forall (fun c => (c < length (objects w))%nat) (coins w).

(** The population bound. *)
Definition within_cap (w : World) : Prop :=
  (0 <= JsSet.size (coins w) <= MAX_COINS)%Z.

Definition pool_ok (w : World) : Prop := pool_wf w /\ within_cap w.

#[global] Instance pool_ok_dec w : Decision (pool_ok w).
Proof. unfold pool_ok, pool_wf, within_cap. apply _. Defined.

(** Which material each mesh is drawn with, and the shared one. *)
Definition wiring (w : World) :=
  (_coinMat w, length (materials w), Mesh.material <$> objects w).

(** Every mesh is drawn with the one material [getSharedCoinMat] holds. *)
Definition shared (w : World) : Prop :=
  (forall m, _coinMat w = Some m -> (m < length (materials w))%nat) /\
  Forall (fun m => _coinMat w = Some m) (Mesh.material <$> objects w).

(** A step created a coin mesh. *)
Definition spawned (w w' : World) : bool :=
  (length (objects w) <? length (objects w'))%nat.


(** What a coin looks like: its scale and the material it is drawn with. *)
Definition visual (w : World) (c : nat) : option (Vector3.t * Material.t) :=
  match objects w !! c with
  | Some o =>
      match materials w !! Mesh.material o with
      | Some mat => Some (Mesh.scale o, mat)
      | None => None
      end
  | None => None
  end.

Section Runs.
Context `{Platform}.

(** The times of the frames of a run whose tick spawned a coin. *)
Fixpoint spawn_times (w : World) (es : list Event) : list Q :=
  match es with
  | [] => []
  | e :: es' =>
      let w' := step w e in
      match e with
      | XRFrame time _ _ =>
          if spawned w w' then time :: spawn_times w' es'
          else spawn_times w' es'
      | _ => spawn_times w' es'
      end
  end.

(** The times, among successive calls of [maybeSpawnCoins], of those that
    spawned a coin. *)
Fixpoint tick_times (w : World) (ticks : list Q) : list Q :=
  match ticks with
  | [] => []
  | nowMs :: ticks' =>
      let w' := maybeSpawnCoins w nowMs in
      if spawned w w' then nowMs :: tick_times w' ticks'
      else tick_times w' ticks'
  end.

End Runs.

(** Successive entries of a list of times are at least [d] apart. *)
Definition spaced (d : Q) (ts : list Q) : Prop :=
  forall i t1 t2,
    ts !! i = Some t1 -> ts !! S i = Some t2 -> (d <= t2 - t1)%Q.

(** An event other than the start of an XR session. *)
Definition in_session (e : Event) : Prop := e <> SessionStart.

(** An event other than the two that return the gate to unplaced. *)
Definition keeps_placement (e : Event) : Prop :=
  e <> ResetClick /\ e <> SessionEnd.

(** The spacing the specification states, of a run whatever its events: the
    frames that spawned a coin are at least 1400 * 0.7 ms apart. *)
Definition spawns_spaced `{Platform} (w : World) (es : list Event) : Prop :=
  spaced (1400 * 0.7)%Q (spawn_times w es).

(** The gate the specification states, of a run whatever its events but a
    reset: a pointer-down after the run changes neither the anchor nor the
    flag. *)
Definition attempts_ignored `{Platform} (w : World) (es : list Event)
    : Prop :=
  Forall (fun e => e <> ResetClick) es ->
  forall hit,
    spawnRoot (step (run w es) (PointerDown hit)) = spawnRoot (run w es) /\
    placed (step (run w es) (PointerDown hit)) = placed (run w es).

(** Worlds of the reference page used in the examples. *)
Module Demo.

(** The spawn point placed by the fallback, then one burst: ten coins. *)
Definition ten : World := Ref.run Ref.init [PointerDown None; BurstClick].

(** Two bursts and five spawning frames: twenty-five coins. *)
Definition crowded : World :=
  Ref.run Ref.init
    [PointerDown None; BurstClick; BurstClick;
     XRFrame 3000 0.016 None; XRFrame 6000 0.016 None;
     XRFrame 9000 0.016 None; XRFrame 12000 0.016 None;
     XRFrame 15000 0.016 None].

(** Ten coins, paused. *)
Definition paused_ten : World := Ref.step ten PauseClick.


(** Ten coins, the first of which has just been captured. *)
Definition captured : World := @collect Ref.platform ten 0.

(** The spawn point placed by the fallback, no coin yet. *)
Definition bare : World := Ref.run Ref.init [PointerDown None].

(** The freshly loaded page, the viewer standing at (1, 1.6, 2) and turned
    about the vertical axis: the unit quaternion (0, 0.6, 0, 0.8). *)
Definition turned : World :=
  Ref.step Ref.init
    (CameraMoved
       (Object3D.make (Vector3.make 1 1.6 2)
                      (Quaternion.make 0 0.6 0 0.8) true)).

(** Twenty-five coins, the XR session ended: the gate is unplaced. *)
Definition ended : World := Ref.step crowded SessionEnd.

End Demo.

(** ** Vocabulary of the further properties *)

(** The gate, the pause flag and the two buttons. *)
Definition controls (w : World) :=
  (placed w, paused w, dom_btnPause w, dom_btnBurst_disabled w).

(** The status line. *)
Definition panel (w : World) := dom_status w.

(** The HUD shows the score and the number of live coins. *)
Definition hud_fresh (w : World) : Prop :=
  dom_score w = score w /\ dom_alive w = length (coins w).

(** The burst button is enabled exactly when the spawn point is placed. *)
Definition burst_button_ok (w : World) : Prop :=
  dom_btnBurst_disabled w = negb (placed w).

(** The pause button names what a click on it will do. *)
Definition pause_label_ok (w : World) : Prop :=
  dom_btnPause w = (if paused w then "resume" else "pause")%string.


(** Some callback of the queue animates the mesh [c]. *)
Definition held (q : list Tween.t) (c : nat) : Prop :=
  exists tw, tw ∈ q /\ Tween.obj tw = c.

(** The scene as the pool and the callbacks [q] account for it: the pool is
    well formed; every live coin is on the scene; no callback animates a
    live coin, and each animates a mesh that exists; every mesh on the
    scene is live or animated by a callback. *)
Definition staged (q : list Tween.t) (w : World) : Prop :=
  pool_wf w /\
  (forall c, c ∈ coins w -> c ∈ scene w) /\
  (forall tw, tw ∈ q ->
     (Tween.obj tw ∉ coins w) /\ (Tween.obj tw < length (objects w))%nat) /\
  (forall c, c ∈ scene w -> c ∈ coins w \/ held q c).

(** Every live coin has the scale it was made with. *)
Definition unit_scaled (w : World) : Prop :=
  forall c, c ∈ coins w ->
    Mesh.scale <$> objects w !! c = Some (Vec.setScalar 1).

(** The two invariants together. *)
Definition staged_unit (w : World) : Prop :=
  staged (rafQueue w) w /\ unit_scaled w.

(** The attributes of a mesh that are fixed when it is made. *)
Definition params (o : Mesh.t) := (Mesh.material o, Mesh.userData o).

(** The first hit-test result of a frame that has a pose. *)
Definition first_pose (frame : option (list (option Pose))) : option Pose :=
  match frame with
  | Some (Some pose :: _) => Some pose
  | _ => None
  end.

Section Coinage.
Context `{Platform}.
Local Open Scope Q_scope.

(** The user data [makeCoin] computes from four successive draws. *)
Definition minted (rnd : nat -> Q) (p : nat * UserData.t) : Prop :=
  exists now d,
    p.2 = UserData.make "coin" now
            ((1.2 + rnd d * 1.2)
             * (if Qlt_le_dec (rnd (S d)) 0.5 then -1 else 1))
            (0.06 + rnd (S (S d)) * 0.06)
            (rnd (S (S (S d))) * Math_PI * 2).

(** From [w] to [w'] the draws are the same, the meshes of [w] are still
    there with the attributes they were made with, and the meshes that came
    after were made by [makeCoin]. *)
Definition grown (w w' : World) : Prop :=
  rnd w' = rnd w /\
  exists extra,
    params <$> objects w' = (params <$> objects w) ++ extra /\
    Forall (minted (rnd w)) extra.

(** The ranges of what [makeCoin] draws, the bounds included. *)
Definition in_range (u : UserData.t) : Prop :=
  UserData.type u = "coin"%string /\
  ((1.2 <= UserData.spin u <= 2.4) \/ (-2.4 <= UserData.spin u <= -1.2)) /\
  0.06 <= UserData.bobAmp u <= 0.12.

End Coinage.

(** Further worlds of the reference page. *)
Module Play.
Local Open Scope Q_scope.

(** Ten coins, the first of which was tapped: its effect is in flight. *)
Definition tapped : World :=
  Ref.run Ref.init [PointerDown None; BurstClick; PointerDown (Some 0%nat)].

(** Three bursts: the pool is full. *)
Definition full : World :=
  Ref.run Ref.init [PointerDown None; BurstClick; BurstClick; BurstClick].

(** One coin, spawned by the frame at 1200 ms. *)
Definition lone : World :=
  Ref.run Ref.init [PointerDown None; XRFrame 1200 0.016 None].

(** One coin, the viewer having walked to it. *)
Definition reached : World :=
  Ref.step lone
    (CameraMoved
       (Object3D.make (Vector3.make (-1.2) (-0.8) 0.7)
                      Quaternion.identity true)).

(** A freshly loaded page whose XR session has started. *)
Definition session : World := Ref.step Ref.init SessionStart.

(** A pose on the floor, two metres ahead and one to the right, turned a
    quarter about the vertical. *)
Definition floor : Pose :=
  mkPose (Vector3.make 1 0 (-2)) (Quaternion.make 0 0.7071 0 0.7071).

(** The first mesh of the page with ten coins. *)
Definition first_mesh : Mesh.t :=
  Eval vm_compute in
    default (Mesh.make Vec.zero Vec.zero Vec.zero 0 (UserData.make "" 0 0 0 0))
            (objects Demo.ten !! 0%nat).

End Play.

(** * Properties *)

(** ** Sets of handles *)

Module JsSetFacts.
Import JsSet.

Lemma has_true s x : has s x = true <-> x ∈ s.
Proof. unfold has. apply bool_decide_eq_true. Qed.

Lemma has_false s x : has s x = false <-> x ∉ s.
Proof. unfold has. apply bool_decide_eq_false. Qed.

Lemma elem_of_filter (f : nat -> bool) s y :
  y ∈ List.filter f s <-> y ∈ s /\ f y = true.
Proof. rewrite !list_elem_of_In. apply filter_In. Qed.

Lemma elem_of_delete s x y : y ∈ delete s x <-> y ∈ s /\ y <> x.
Proof.
  unfold delete. rewrite elem_of_filter, negb_true_iff, Nat.eqb_neq.
  reflexivity.
Qed.

Lemma delete_not_elem s x : x ∉ delete s x.
Proof. rewrite elem_of_delete. tauto. Qed.

Lemma delete_absent s x : x ∉ s -> delete s x = s.
Proof.
  unfold delete. induction s as [|y s IH]; intros Hx; [reflexivity|].
  rewrite not_elem_of_cons in Hx. destruct Hx as [Hne Hx]. simpl.
  destruct (Nat.eqb_spec y x) as [->|_]; [contradiction|].
  simpl. f_equal. auto.
Qed.

Lemma NoDup_filter (f : nat -> bool) s : NoDup s -> NoDup (List.filter f s).
Proof. rewrite !NoDup_ListNoDup. apply List.NoDup_filter. Qed.

Lemma NoDup_delete s x : NoDup s -> NoDup (delete s x).
Proof. apply NoDup_filter. Qed.

(** A filter and its complement split the list. *)
Lemma filter_split_length (f : nat -> bool) s :
  (length (List.filter f s)
   + length (List.filter (fun y => negb (f y)) s) = length s)%nat.
Proof.
  induction s as [|y s IH]; [reflexivity|].
  simpl. destruct (f y); simpl; lia.
Qed.

Lemma length_delete_le s x : (length (delete s x) <= length s)%nat.
Proof.
  unfold delete. pose proof (filter_split_length (fun y => Nat.eqb y x) s).
  lia.
Qed.

Lemma length_filter_le (f : nat -> bool) s :
  (length (List.filter f s) <= length s)%nat.
Proof. pose proof (filter_split_length f s). lia. Qed.

Lemma length_delete_elem s x :
  NoDup s -> x ∈ s -> S (length (delete s x)) = length s.
Proof.
  unfold delete. induction s as [|y s IH]; intros Hnd Hx.
  - inversion Hx.
  - apply NoDup_cons in Hnd. destruct Hnd as [Hy Hnd]. simpl.
    destruct (Nat.eqb_spec y x) as [->|Hne]; simpl.
    + f_equal. change (length (delete s x) = length s).
      rewrite delete_absent; auto.
    + f_equal. apply IH; [assumption|].
      apply elem_of_cons in Hx. destruct Hx; congruence.
Qed.

Lemma add_fresh s x : x ∉ s -> add s x = s ++ [x].
Proof. intros Hx. unfold add. apply has_false in Hx. rewrite Hx. reflexivity. Qed.

(** Deleting the members of [r] one after the other. *)
Lemma fold_delete r : forall s,
  fold_left delete r s = List.filter (fun y => negb (has r y)) s.
Proof.
  induction r as [|x r IH]; intros s; simpl.
  - induction s as [|y s IHs]; [reflexivity|]. simpl. f_equal. exact IHs.
  - rewrite IH. unfold delete.
    induction s as [|y s IHs]; [reflexivity|]. simpl.
    destruct (Nat.eqb_spec y x) as [->|Hne]; simpl.
    + replace (has (x :: r) x) with true; [exact IHs|].
      symmetry. apply has_true. left.
    + replace (has (x :: r) y) with (has r y); [rewrite IHs; reflexivity|].
      unfold has. apply bool_decide_ext. rewrite elem_of_cons. tauto.
Qed.

(** Deleting what a filter selected leaves what it rejected. *)
Lemma fold_delete_filter (f : nat -> bool) s :
  fold_left delete (List.filter f s) s = List.filter (fun y => negb (f y)) s.
Proof.
  rewrite fold_delete. apply filter_ext_in. intros y Hy. f_equal.
  destruct (f y) eqn:Hf.
  - apply has_true, elem_of_filter. rewrite list_elem_of_In. auto.
  - apply has_false. rewrite elem_of_filter. intros [_ Hf']. congruence.
Qed.
End JsSetFacts.

(** ** What each function leaves alone *)

(** A property every step of a loop keeps holds after the loop. *)
Lemma fold_left_keeps {A B} (P : A -> Prop) (f : A -> B -> A) (l : list B) :
  (forall a x, P a -> P (f a x)) -> forall a, P a -> P (fold_left f l a).
Proof.
  intros Hf. induction l as [|x l IH]; intros a Ha; simpl; auto.
Qed.

(** A projection every step of a loop keeps is kept by the loop. *)
Lemma fold_left_same {A B C} (g : A -> C) (f : A -> B -> A) (l : list B) :
  (forall a x, g (f a x) = g a) -> forall a, g (fold_left f l a) = g a.
Proof.
  intros Hf a. apply (fold_left_keeps (fun a' => g a' = g a)); [|reflexivity].
  intros a' x Ha'. rewrite Hf. exact Ha'.
Qed.

Lemma fmap_alter_same {A B} (g : A -> B) (f : A -> A) (i : nat) (l : list A) :
  (forall x, g (f x) = g x) -> g <$> alter f i l = g <$> l.
Proof.
  intros Hg. revert i. induction l as [|x l IH]; intros [|i]; simpl;
    try reflexivity.
  - rewrite Hg. reflexivity.
  - f_equal. apply IH.
Qed.

(** Computes the fields of a world that was built by the setters. *)
Ltac world_cbv :=
  cbv beta iota delta
    [
     placed paused coins score lastSpawnAt spawnRoot reticle hitTestSource
     clock objects materials _coinMat scene rafQueue dom_score dom_alive
     dom_status dom_btnPause dom_btnBurst_disabled xrCamera perf perf_reads
     rnd rnd_draws set_placed set_paused set_coins set_score
     set_lastSpawnAt set_spawnRoot set_reticle set_hitTestSource set_clock
     set_objects set_materials set_coinMat set_scene set_rafQueue
     set_dom_score set_dom_alive set_dom_status set_dom_btnPause
     set_dom_btnBurst_disabled set_xrCamera set_perf set_perf_reads set_rnd
     set_rnd_draws
    ].

(** Case analysis along the two branches of [tween]. *)
Ltac tween_cases :=
  unfold tween, performance_now;
  destruct (objects _ !! _); destruct (Qlt_le_dec _ _); reflexivity.

(** Case analysis along the lazy creation of the shared material. *)
Ltac spawn_cases w :=
  unfold spawnOne, makeCoin, getSharedCoinMat, positionCoinAroundRoot,
    performance_now, Math_random, update_mesh;
  destruct (_coinMat w).

Lemma world_eta (w : World) :
  w = mkWorld (placed w) (paused w) (coins w) (score w) (lastSpawnAt w)
        (spawnRoot w) (reticle w) (hitTestSource w) (clock w) (objects w)
        (materials w) (_coinMat w) (scene w) (rafQueue w) (dom_score w)
        (dom_alive w) (dom_status w) (dom_btnPause w)
        (dom_btnBurst_disabled w) (xrCamera w) (perf w) (perf_reads w)
        (rnd w) (rnd_draws w).
Proof. destruct w; reflexivity. Qed.

Section Frames.
Context `{Platform}.

(** *** The collection effect *)

Lemma tween_base w tw : base (tween w tw) = base w.
Proof. tween_cases. Qed.

Lemma tween_coins w tw : coins (tween w tw) = coins w.
Proof. tween_cases. Qed.

Lemma tween_score w tw : score (tween w tw) = score w.
Proof. tween_cases. Qed.

Lemma tween_lastSpawnAt w tw : lastSpawnAt (tween w tw) = lastSpawnAt w.
Proof. tween_cases. Qed.

Lemma tween_objects w tw :
  objects (tween w tw)
  = alter (Mesh.set_scale
             (Vec.setScalar
                (Tween.startScale tw
                 * (1 + 1.2 * Qmin 1 ((perf w (perf_reads w) - Tween.start tw)
                                      / Tween.dur)))))
          (Tween.obj tw) (objects w).
Proof. tween_cases. Qed.

Lemma tween_bodies w tw : body <$> objects (tween w tw) = body <$> objects w.
Proof. rewrite tween_objects. apply fmap_alter_same. reflexivity. Qed.

Lemma tween_objects_length w tw :
  length (objects (tween w tw)) = length (objects w).
Proof. rewrite tween_objects. apply length_alter. Qed.

(** *** [collect] *)

Lemma collect_absent w obj : obj ∉ coins w -> collect w obj = w.
Proof.
  intros Hobj. unfold collect, collect_enter.
  apply JsSetFacts.has_false in Hobj. rewrite Hobj. reflexivity.
Qed.

(** The state in which [tween] is first called, and the closure. *)
Lemma collect_enter_member w obj :
  obj ∈ coins w ->
  exists tw,
    Tween.obj tw = obj /\
    collect_enter w obj
    = Some (set_perf_reads (S (perf_reads w))
              (set_coins (JsSet.delete (coins w) obj) w), tw).
Proof.
  intros Hobj. unfold collect_enter, performance_now.
  apply JsSetFacts.has_true in Hobj. rewrite Hobj. simpl.
  eexists. split; [|reflexivity]. reflexivity.
Qed.

Lemma collect_member w obj :
  obj ∈ coins w ->
  exists tw,
    Tween.obj tw = obj /\
    collect w obj
    = updateHUD
        (set_score (score w + 1)%nat
           (tween (set_perf_reads (S (perf_reads w))
                     (set_coins (JsSet.delete (coins w) obj) w)) tw)).
Proof.
  intros Hobj. destruct (collect_enter_member w obj Hobj) as (tw & Htw & He).
  exists tw. split; [exact Htw|]. unfold collect. rewrite He.
  unfold updateHUD. rewrite !tween_score. reflexivity.
Qed.

Lemma collect_coins w obj :
  coins (collect w obj) = JsSet.delete (coins w) obj.
Proof.
  destruct (decide (obj ∈ coins w)) as [Hobj|Hobj].
  - destruct (collect_member w obj Hobj) as (tw & _ & ->).
    unfold updateHUD. simpl. rewrite tween_coins. reflexivity.
  - rewrite collect_absent, JsSetFacts.delete_absent; auto.
Qed.

Lemma collect_score w obj :
  obj ∈ coins w -> score (collect w obj) = (score w + 1)%nat.
Proof.
  intros Hobj. destruct (collect_member w obj Hobj) as (tw & _ & ->).
  reflexivity.
Qed.

Lemma collect_base w obj : base (collect w obj) = base w.
Proof.
  destruct (decide (obj ∈ coins w)) as [Hobj|Hobj].
  - destruct (collect_member w obj Hobj) as (tw & _ & ->).
    exact (tween_base _ tw).
  - rewrite collect_absent; auto.
Qed.

Lemma collect_lastSpawnAt w obj : lastSpawnAt (collect w obj) = lastSpawnAt w.
Proof.
  destruct (decide (obj ∈ coins w)) as [Hobj|Hobj].
  - destruct (collect_member w obj Hobj) as (tw & _ & ->).
    unfold updateHUD. simpl. rewrite tween_lastSpawnAt. reflexivity.
  - rewrite collect_absent; auto.
Qed.

Lemma collect_bodies w obj :
  body <$> objects (collect w obj) = body <$> objects w.
Proof.
  destruct (decide (obj ∈ coins w)) as [Hobj|Hobj].
  - destruct (collect_member w obj Hobj) as (tw & _ & ->).
    unfold updateHUD. simpl. rewrite tween_bodies. reflexivity.
  - rewrite collect_absent; auto.
Qed.

Lemma collect_objects_length w obj :
  length (objects (collect w obj)) = length (objects w).
Proof.
  rewrite <- (length_fmap body (objects (collect w obj))), collect_bodies.
  apply length_fmap.
Qed.

(** *** Spawning one coin *)

Lemma spawnOne_coins w :
  coins (spawnOne w) = JsSet.add (coins w) (length (objects w)).
Proof. spawn_cases w; reflexivity. Qed.

Lemma spawnOne_objects_length w :
  length (objects (spawnOne w)) = S (length (objects w)).
Proof.
  spawn_cases w; simpl; rewrite length_alter, length_app; simpl; lia.
Qed.

Lemma spawnOne_base w : base (spawnOne w) = base w.
Proof. spawn_cases w; reflexivity. Qed.

Lemma spawnOne_score w : score (spawnOne w) = score w.
Proof. spawn_cases w; reflexivity. Qed.

Lemma spawnOne_lastSpawnAt w : lastSpawnAt (spawnOne w) = lastSpawnAt w.
Proof. spawn_cases w; reflexivity. Qed.

Lemma spawnOne_rafQueue w : rafQueue (spawnOne w) = rafQueue w.
Proof. spawn_cases w; reflexivity. Qed.

End Frames.

(** ** The pool of a well-formed world *)

Lemma pool_ok_empty (w : World) : coins w = [] -> pool_ok w.
Proof.
  intros Hc. unfold pool_ok, pool_wf, within_cap, JsSet.size, MAX_COINS.
  rewrite Hc. simpl. split; [split|lia].
  - apply NoDup_nil. exact I.
  - apply Forall_nil. exact I.
Qed.

Lemma pool_wf_subset (w w' : World) :
  pool_wf w ->
  NoDup (coins w') ->
  (forall c, c ∈ coins w' -> c ∈ coins w) ->
  length (objects w') = length (objects w) ->
  pool_wf w'.
Proof.
  intros [_ Hall] Hnd Hsub Hlen. split; [exact Hnd|].
  rewrite Forall_forall in *. intros c Hc. rewrite Hlen. auto.
Qed.

Section Pool.
Context `{Platform}.

(** *** Spawning *)

Lemma spawnOne_fresh w :
  pool_wf w -> coins (spawnOne w) = coins w ++ [length (objects w)].
Proof.
  intros [_ Hall]. rewrite spawnOne_coins. apply JsSetFacts.add_fresh.
  intros Hin. rewrite Forall_forall in Hall. apply Hall in Hin. lia.
Qed.

Lemma spawnOne_pool_wf w : pool_wf w -> pool_wf (spawnOne w).
Proof.
  intros Hwf. pose proof (spawnOne_fresh w Hwf) as Hc.
  destruct Hwf as [Hnd Hall]. unfold pool_wf.
  rewrite Hc, spawnOne_objects_length. rewrite Forall_forall in Hall. split.
  - apply NoDup_app. split; [exact Hnd|]. split; [|apply NoDup_singleton].
    intros c Hin Hc'. apply list_elem_of_singleton in Hc'. subst c.
    apply Hall in Hin. lia.
  - apply Forall_app. split.
    + rewrite Forall_forall. intros c Hin. apply Hall in Hin. lia.
    + apply Forall_singleton. lia.
Qed.

(** The loop of [spawnBurst], [n] times round. *)
Lemma spawn_loop n : forall w,
  pool_wf w ->
  let w' := Nat.iter n spawnOne w in
  pool_wf w' /\
  coins w' = coins w ++ seq (length (objects w)) n /\
  length (objects w') = (length (objects w) + n)%nat /\
  base w' = base w /\ score w' = score w /\
  lastSpawnAt w' = lastSpawnAt w /\ rafQueue w' = rafQueue w.
Proof.
  induction n as [|n IH]; intros w Hwf; simpl.
  - rewrite app_nil_r, Nat.add_0_r. auto 10.
  - destruct (IH w Hwf) as (Hwf' & Hc & Hl & Hb & Hs & Ht & Hq).
    split; [apply spawnOne_pool_wf; exact Hwf'|].
    rewrite spawnOne_fresh by exact Hwf'.
    rewrite spawnOne_objects_length, spawnOne_base, spawnOne_score,
      spawnOne_lastSpawnAt, spawnOne_rafQueue, Hc, Hl.
    repeat split; try assumption; try lia.
    rewrite <- app_assoc. f_equal.
    symmetry. apply (seq_S n (length (objects w))).
Qed.

(** *** The two loops of [updateCoins] *)

(** Expiry reads only the creation time, which the idle motion keeps. *)
Lemma expired_look w objs nowMs c :
  look <$> objs = look <$> objects w ->
  expired (set_objects objs w) nowMs c = expired w nowMs c.
Proof.
  intros Hl. unfold expired. simpl.
  assert ((look <$> objs) !! c = (look <$> objects w) !! c) as Hc
    by (rewrite Hl; reflexivity).
  rewrite !list_lookup_fmap in Hc.
  destruct (objs !! c) as [o|], (objects w !! c) as [o'|];
    try discriminate; [|reflexivity].
  simpl in Hc. injection Hc as _ _ ->. reflexivity.
Qed.

(** The first loop rewrites meshes in place: the pool, and everything but
    position and rotation, is as before, and the batch is the expired
    coins in pool order. *)
Lemma updateCoins_first_loop w dt nowMs l : forall objs acc,
  look <$> objs = look <$> objects w ->
  exists objs',
    look <$> objs' = look <$> objects w /\
    length objs' = length objs /\
    fold_left (updateCoins_visit dt nowMs) l (set_objects objs w, acc)
    = (set_objects objs' w, acc ++ List.filter (expired w nowMs) l).
Proof.
  induction l as [|c l IH]; intros objs acc Hl; simpl.
  - exists objs. rewrite app_nil_r. auto.
  - set (objs1 := alter (idleMotion w dt (nowMs * 0.001)%Q) c objs).
    assert (look <$> objs1 = look <$> objects w) as Hl1.
    { rewrite <- Hl. apply fmap_alter_same. reflexivity. }
    destruct (IH objs1
                (if expired w nowMs c then acc ++ [c] else acc) Hl1)
      as (objs' & Hl' & Hlen & Hfold).
    exists objs'. split; [exact Hl'|]. split.
    { rewrite Hlen. apply length_alter. }
    unfold updateCoins_visit at 2. simpl.
    change (update_mesh c (idleMotion (set_objects objs w) dt (nowMs * 0.001)%Q)
              (set_objects objs w))
      with (set_objects objs1 w).
    rewrite (expired_look w objs1 nowMs c Hl1), Hfold.
    f_equal. destruct (expired w nowMs c); simpl;
      [rewrite <- app_assoc|]; reflexivity.
Qed.

(** The second loop deletes the batch from the pool and from the scene. *)
Lemma evict_loop r : forall w,
  fold_left evict r w
  = set_coins (fold_left JsSet.delete r (coins w))
      (set_scene (fold_left Children.remove r (scene w)) w).
Proof.
  induction r as [|c r IH]; intros w; simpl.
  - destruct w; reflexivity.
  - rewrite IH. reflexivity.
Qed.

(** [updateCoins] altogether. *)
Lemma updateCoins_shape w dt nowMs :
  let r := List.filter (expired w nowMs) (coins w) in
  exists objs',
    look <$> objs' = look <$> objects w /\
    length objs' = length (objects w) /\
    updateCoins w dt nowMs
    = (if (length r =? 0)%nat then id else updateHUD)
        (set_coins (List.filter (fun c => negb (expired w nowMs c)) (coins w))
           (set_scene (fold_left Children.remove r (scene w))
              (set_objects objs' w))).
Proof.
  intros r.
  destruct (updateCoins_first_loop w dt nowMs (coins w) (objects w) []
              eq_refl) as (objs' & Hl & Hlen & Hfold).
  exists objs'. split; [exact Hl|]. split; [exact Hlen|].
  unfold updateCoins.
  replace (w, @nil nat) with (set_objects (objects w) w, @nil nat)
    by (destruct w; reflexivity).
  rewrite Hfold. simpl. rewrite evict_loop. simpl. subst r.
  rewrite JsSetFacts.fold_delete_filter.
  destruct (length _ =? 0)%nat; reflexivity.
Qed.

(** *** The loop of [checkProximityCollect] *)

Lemma collect_loop_coins r : forall w,
  coins (fold_left collect r w) = fold_left JsSet.delete r (coins w).
Proof.
  induction r as [|c r IH]; intros w; simpl; [reflexivity|].
  rewrite IH, collect_coins. reflexivity.
Qed.

Lemma collect_loop_score r : forall w,
  NoDup r -> (forall c, c ∈ r -> c ∈ coins w) ->
  score (fold_left collect r w) = (score w + length r)%nat.
Proof.
  induction r as [|c r IH]; intros w Hnd Hsub; simpl; [lia|].
  apply NoDup_cons in Hnd. destruct Hnd as [Hc Hnd].
  rewrite IH, collect_score; [lia| |exact Hnd|].
  - apply Hsub. left.
  - intros c' Hc'. rewrite collect_coins. apply JsSetFacts.elem_of_delete.
    split; [apply Hsub; right; exact Hc'|]. intros ->. contradiction.
Qed.

Lemma collect_loop_base r w : base (fold_left collect r w) = base w.
Proof. apply (fold_left_same base). intros; apply collect_base. Qed.

Lemma collect_loop_lastSpawnAt r w :
  lastSpawnAt (fold_left collect r w) = lastSpawnAt w.
Proof. apply (fold_left_same lastSpawnAt). intros; apply collect_lastSpawnAt. Qed.

Lemma collect_loop_objects_length r w :
  length (objects (fold_left collect r w)) = length (objects w).
Proof.
  apply (fold_left_same (fun w => length (objects w))).
  intros; apply collect_objects_length.
Qed.

Lemma checkProximityCollect_coins w :
  coins (checkProximityCollect w)
  = List.filter
      (fun c => negb (near w (Object3D.position (xrCamera w)) c)) (coins w).
Proof.
  unfold checkProximityCollect. rewrite collect_loop_coins.
  apply JsSetFacts.fold_delete_filter.
Qed.

Lemma checkProximityCollect_score w :
  NoDup (coins w) ->
  score (checkProximityCollect w)
  = (score w
     + length (List.filter (near w (Object3D.position (xrCamera w)))
                 (coins w)))%nat.
Proof.
  intros Hnd. unfold checkProximityCollect. apply collect_loop_score.
  - apply JsSetFacts.NoDup_filter. exact Hnd.
  - intros c Hc. apply JsSetFacts.elem_of_filter in Hc. tauto.
Qed.

End Pool.

(** ** Events *)

Section Steps.
Context `{Platform}.
Local Open Scope Q_scope.

(** [updateReticle] writes the reticle and the status line, nothing else. *)
Lemma updateReticle_shape w frame :
  exists r s, updateReticle w frame = set_dom_status s (set_reticle r w).
Proof.
  exists (reticle (updateReticle w frame)),
         (dom_status (updateReticle w frame)).
  unfold updateReticle. destruct w as [pl pa co sc la sr re hi cl ob ma cm
    sn rq ds da dst dp db xc pf pr rn rd]. simpl.
  destruct hi; [destruct frame as [[|[pose|] hits]|]|];
    simpl; try destruct pl; reflexivity.
Qed.

(** The three outcomes of [maybeSpawnCoins]: the pool is full; the draw
    says it is too early; a coin is spawned. *)
Lemma maybeSpawnCoins_unfold w nowMs :
  maybeSpawnCoins w nowMs
  = if (MAX_COINS <=? JsSet.size (coins w))%Z then w
    else if Qlt_le_dec (nowMs - lastSpawnAt w)
              (SPAWN_INTERVAL_MS * (0.7 + rnd w (rnd_draws w) * 0.8))
    then set_rnd_draws (S (rnd_draws w)) w
    else updateHUD
           (spawnOne (set_lastSpawnAt nowMs
                        (set_rnd_draws (S (rnd_draws w)) w))).
Proof. reflexivity. Qed.

Lemma maybeSpawnCoins_base w nowMs : base (maybeSpawnCoins w nowMs) = base w.
Proof.
  rewrite maybeSpawnCoins_unfold.
  destruct (_ <=? _)%Z; [reflexivity|].
  destruct (Qlt_le_dec _ _); [reflexivity|].
  exact (spawnOne_base _).
Qed.

Lemma maybeSpawnCoins_score w nowMs :
  score (maybeSpawnCoins w nowMs) = score w.
Proof.
  rewrite maybeSpawnCoins_unfold.
  destruct (_ <=? _)%Z; [reflexivity|].
  destruct (Qlt_le_dec _ _); [reflexivity|].
  exact (spawnOne_score _).
Qed.

Lemma maybeSpawnCoins_pool_ok w nowMs :
  pool_ok w -> pool_ok (maybeSpawnCoins w nowMs).
Proof.
  intros Hok. rewrite maybeSpawnCoins_unfold.
  destruct (Z.leb_spec MAX_COINS (JsSet.size (coins w))) as [|Hlt];
    [exact Hok|].
  destruct (Qlt_le_dec _ _); [exact Hok|].
  destruct Hok as [Hwf Hcap].
  set (w1 := set_lastSpawnAt nowMs (set_rnd_draws (S (rnd_draws w)) w)).
  assert (pool_wf w1) as Hwf1 by exact Hwf.
  split.
  - exact (spawnOne_pool_wf w1 Hwf1).
  - unfold within_cap, JsSet.size in *. simpl.
    rewrite (spawnOne_fresh w1 Hwf1), length_app. simpl.
    change (coins w1) with (coins w). lia.
Qed.

Lemma pool_ok_filter (f : nat -> bool) w w' :
  coins w' = List.filter f (coins w) ->
  length (objects w') = length (objects w) ->
  pool_ok w -> pool_ok w'.
Proof.
  intros Hc Hl [Hwf Hcap]. split.
  - apply (pool_wf_subset w w' Hwf); [| |exact Hl].
    + rewrite Hc. apply JsSetFacts.NoDup_filter, Hwf.
    + intros c. rewrite Hc, JsSetFacts.elem_of_filter. tauto.
  - unfold within_cap, JsSet.size in *. rewrite Hc.
    pose proof (JsSetFacts.length_filter_le f (coins w)). lia.
Qed.

Lemma pool_ok_same w w' :
  coins w' = coins w ->
  length (objects w') = length (objects w) ->
  pool_ok w -> pool_ok w'.
Proof.
  intros Hc Hl [[Hnd Hall] Hcap]. unfold pool_ok, pool_wf, within_cap.
  rewrite Hc, Hl. auto.
Qed.

Lemma updateCoins_pool_ok w dt nowMs :
  pool_ok w -> pool_ok (updateCoins w dt nowMs).
Proof.
  destruct (updateCoins_shape w dt nowMs) as (objs' & _ & Hlen & ->).
  apply (pool_ok_filter (fun c => negb (expired w nowMs c)));
    destruct (length _ =? 0)%nat; simpl; auto.
Qed.

Lemma updateCoins_base w dt nowMs : base (updateCoins w dt nowMs) = base w.
Proof.
  destruct (updateCoins_shape w dt nowMs) as (objs' & _ & _ & ->).
  destruct (length _ =? 0)%nat; reflexivity.
Qed.

Lemma updateCoins_lastSpawnAt w dt nowMs :
  lastSpawnAt (updateCoins w dt nowMs) = lastSpawnAt w.
Proof.
  destruct (updateCoins_shape w dt nowMs) as (objs' & _ & _ & ->).
  destruct (length _ =? 0)%nat; reflexivity.
Qed.

Lemma updateCoins_objects_length w dt nowMs :
  length (objects (updateCoins w dt nowMs)) = length (objects w).
Proof.
  destruct (updateCoins_shape w dt nowMs) as (objs' & _ & Hlen & ->).
  destruct (length _ =? 0)%nat; exact Hlen.
Qed.

Lemma collect_pool_ok w obj : pool_ok w -> pool_ok (collect w obj).
Proof.
  apply (pool_ok_filter (fun y => negb (Nat.eqb y obj))).
  - apply collect_coins.
  - apply collect_objects_length.
Qed.

Lemma checkProximityCollect_pool_ok w :
  pool_ok w -> pool_ok (checkProximityCollect w).
Proof.
  unfold checkProximityCollect. apply (fold_left_keeps pool_ok).
  intros; apply collect_pool_ok; assumption.
Qed.

Lemma spawnBurst_pool_ok w : pool_ok w -> pool_ok (spawnBurst w).
Proof.
  intros [Hwf Hcap]. unfold spawnBurst.
  destruct (placed w); simpl; [|split; assumption].
  destruct (spawn_loop
              (Z.to_nat (Z.min 10 (MAX_COINS - JsSet.size (coins w)))) w Hwf)
    as (Hwf' & Hc & _).
  split; [exact Hwf'|].
  unfold within_cap, JsSet.size, MAX_COINS in *. simpl.
  rewrite Hc, length_app, length_seq. lia.
Qed.

Lemma resetGame_shape w :
  resetGame w
  = updateHUD
      (set_dom_status "find a surface, then tap to place the spawn point."
         (set_paused false
            (set_dom_btnPause "pause"
               (set_dom_btnBurst_disabled true
                  (set_placed false
                     (set_score 0%nat
                        (set_coins []
                           (set_scene
                              (fold_left Children.remove (coins w) (scene w))
                              w)))))))).
Proof.
  unfold resetGame.
  assert (forall r w0,
            fold_left (fun w1 c => set_scene (Children.remove (scene w1) c) w1)
                      r w0
            = set_scene (fold_left Children.remove r (scene w0)) w0) as Hloop.
  { induction r as [|c r IH]; intros w0; simpl.
    - destruct w0; reflexivity.
    - rewrite IH. reflexivity. }
  rewrite Hloop. reflexivity.
Qed.

Lemma runAnimationFrame_coins w : coins (runAnimationFrame w) = coins w.
Proof.
  unfold runAnimationFrame.
  rewrite (fold_left_same coins tween); [reflexivity|].
  intros; apply tween_coins.
Qed.

Lemma runAnimationFrame_objects_length w :
  length (objects (runAnimationFrame w)) = length (objects w).
Proof.
  unfold runAnimationFrame.
  rewrite (fold_left_same (fun w => length (objects w)) tween);
    [reflexivity|].
  intros; apply tween_objects_length.
Qed.

Lemma runAnimationFrame_base w : base (runAnimationFrame w) = base w.
Proof.
  unfold runAnimationFrame.
  rewrite (fold_left_same base tween); [reflexivity|].
  intros; apply tween_base.
Qed.

Lemma runAnimationFrame_lastSpawnAt w :
  lastSpawnAt (runAnimationFrame w) = lastSpawnAt w.
Proof.
  unfold runAnimationFrame.
  rewrite (fold_left_same lastSpawnAt tween); [reflexivity|].
  intros; apply tween_lastSpawnAt.
Qed.

Lemma onPointerDown_pool_ok w hit : pool_ok w -> pool_ok (onPointerDown w hit).
Proof.
  intros Hok. unfold onPointerDown.
  destruct (placed w); simpl.
  - destruct hit; [apply collect_pool_ok|]; exact Hok.
  - destruct (Object3D.visible (reticle w)); exact Hok.
Qed.

Lemma onXRFrame_pool_ok w time delta frame :
  pool_ok w -> pool_ok (onXRFrame w time delta frame).
Proof.
  intros Hok. unfold onXRFrame.
  destruct (updateReticle_shape w frame) as (r & s & ->).
  set (w1 := set_dom_status s (set_reticle r w)).
  assert (pool_ok w1) as Hok1 by exact Hok.
  destruct (negb (paused w1) && placed w1); [|exact Hok1].
  apply checkProximityCollect_pool_ok, updateCoins_pool_ok,
    maybeSpawnCoins_pool_ok, Hok1.
Qed.

(** Every event keeps the pool well formed and within the cap. *)
Lemma step_pool_ok w e : pool_ok w -> pool_ok (step w e).
Proof.
  intros Hok. destruct e; simpl.
  - apply onXRFrame_pool_ok, Hok.
  - apply onPointerDown_pool_ok, Hok.
  - apply pool_ok_empty. rewrite resetGame_shape. reflexivity.
  - exact Hok.
  - destruct (dom_btnBurst_disabled w); [exact Hok|].
    apply spawnBurst_pool_ok, Hok.
  - exact Hok.
  - exact Hok.
  - apply (pool_ok_same w);
      [apply runAnimationFrame_coins
      |apply runAnimationFrame_objects_length|exact Hok].
  - exact Hok.
Qed.

Lemma init_pool_ok h : pool_ok (init h).
Proof.
  apply pool_ok_empty. reflexivity.
Qed.

Lemma reachable_pool_ok w : reachable w -> pool_ok w.
Proof.
  induction 1 as [h|w e _ IH]; [apply init_pool_ok|apply step_pool_ok, IH].
Qed.

Lemma reachable_run w es : reachable w -> reachable (run w es).
Proof.
  revert w. induction es as [|e es IH]; intros w Hw; simpl; [exact Hw|].
  apply IH. constructor. exact Hw.
Qed.

End Steps.

(** ** The claims *)

(** Splits a conjunction into its members, without unfolding. *)
Ltac split_ands := repeat match goal with |- _ /\ _ => split end.

Section Claims.
Context `{Platform}.
Local Open Scope Q_scope.

(** With the spawn point placed, a burst appends the handles of the coins it
    creates and leaves the spawn timer alone. *)
Lemma spawnBurst_placed (w : World) :
  placed w = true ->
  pool_wf w ->
  coins (spawnBurst w)
  = coins w
    ++ seq (length (objects w))
           (Z.to_nat (Z.min 10 (MAX_COINS - JsSet.size (coins w)))) /\
  lastSpawnAt (spawnBurst w) = lastSpawnAt w.
Proof.
  intros Hpl Hwf. unfold spawnBurst. rewrite Hpl. simpl.
  destruct (spawn_loop
              (Z.to_nat (Z.min 10 (MAX_COINS - JsSet.size (coins w)))) w Hwf)
    as (_ & Hc & _ & _ & _ & Ht & _).
  split; [exact Hc|exact Ht].
Qed.

(** C1. Population invariant: in every reachable state the number of live
    coins is between 0 and the cap of 30, and each operation that adds coins
    (the per-tick spawn, the burst) or removes them (expiry, collection,
    reset), as well as every event, leads to a state within the bound. *)
Theorem C1_population_invariant (w : World) :
  reachable w ->
  (0 <= JsSet.size (coins w) <= 30)%Z /\
  (forall nowMs, within_cap (maybeSpawnCoins w nowMs)) /\
  within_cap (spawnBurst w) /\
  (forall dt nowMs, within_cap (updateCoins w dt nowMs)) /\
  (forall obj, within_cap (collect w obj)) /\
  within_cap (checkProximityCollect w) /\
  within_cap (resetGame w) /\
  (forall e, within_cap (step w e)).
Proof.
  intros Hw. apply reachable_pool_ok in Hw.
  split; [exact (proj2 Hw)|]. split_ands.
  - intros nowMs. apply maybeSpawnCoins_pool_ok, Hw.
  - apply spawnBurst_pool_ok, Hw.
  - intros dt nowMs. apply updateCoins_pool_ok, Hw.
  - intros obj. apply collect_pool_ok, Hw.
  - apply checkProximityCollect_pool_ok, Hw.
  - apply (step_pool_ok w ResetClick), Hw.
  - intros e. apply step_pool_ok, Hw.
Qed.

(** C6. Burst clamping: with the spawn point placed, which is when the
    burst button is enabled, a burst creates exactly min(10, 30 - size)
    coins whatever the spawn timer says, so the pool stays within the cap;
    from 25 coins it creates exactly 5 and the pool holds 30. *)
Theorem C6_burst_clamping (w : World) :
  placed w = true ->
  pool_ok w ->
  let n := Z.min 10 (MAX_COINS - JsSet.size (coins w)) in
  let w' := spawnBurst w in
  coins w' = coins w ++ seq (length (objects w)) (Z.to_nat n) /\
  JsSet.size (coins w') = (JsSet.size (coins w) + n)%Z /\
  (JsSet.size (coins w') <= MAX_COINS)%Z /\
  lastSpawnAt w' = lastSpawnAt w /\
  (forall t, coins (spawnBurst (set_lastSpawnAt t w)) = coins w') /\
  (JsSet.size (coins w) = 25%Z ->
   n = 5%Z /\ JsSet.size (coins w') = 30%Z).
Proof.
  intros Hpl [Hwf Hcap] n w'.
  assert (forall t, coins (spawnBurst (set_lastSpawnAt t w))
                    = coins w ++ seq (length (objects w)) (Z.to_nat n))
    as Hany.
  { intros t. apply (spawnBurst_placed (set_lastSpawnAt t w) Hpl Hwf). }
  destruct (spawnBurst_placed w Hpl Hwf) as [Hc Ht]. fold n w' in Hc, Ht.
  assert (JsSet.size (coins w') = (JsSet.size (coins w) + n)%Z) as Hsize.
  { unfold JsSet.size. rewrite Hc, length_app, length_seq.
    unfold within_cap, JsSet.size, MAX_COINS in *. lia. }
  split_ands.
  - exact Hc.
  - exact Hsize.
  - rewrite Hsize. unfold MAX_COINS in *. lia.
  - exact Ht.
  - intros t. rewrite Hc. apply Hany.
  - intros H25. split; [|rewrite Hsize]; unfold MAX_COINS in *; lia.
Qed.

(** C7. Double removal and stale handles: [collect] on a handle that is not
    in the pool returns the state it was given, unchanged in every field;
    so a tap that resolves to such a handle changes nothing, and collecting
    the same coin a second time changes nothing. *)
Theorem C7_collect_absent_is_noop (w : World) (obj : nat) :
  obj ∉ coins w ->
  collect w obj = w /\
  (placed w = true -> onPointerDown w (Some obj) = w) /\
  (forall c, collect (collect w c) c = collect w c).
Proof.
  intros Hobj. split_ands.
  - apply collect_absent, Hobj.
  - intros Hpl. unfold onPointerDown. rewrite Hpl. simpl.
    apply collect_absent, Hobj.
  - intros c. apply collect_absent. rewrite collect_coins.
    apply JsSetFacts.delete_not_elem.
Qed.

(** C8. Reset: [resetGame] empties the pool and takes the coins off the
    scene without starting or running any collection effect (no callback is
    queued, no mesh and no material is written), sets the score to 0, the
    gate to unplaced and the pause flag to false; a second reset in a row
    changes nothing. *)
Theorem C8_reset (w : World) :
  let w' := resetGame w in
  coins w' = [] /\
  (forall c, c ∈ coins w -> c ∉ scene w') /\
  rafQueue w' = rafQueue w /\
  objects w' = objects w /\
  materials w' = materials w /\
  score w' = 0%nat /\
  placed w' = false /\
  paused w' = false /\
  resetGame w' = w'.
Proof.
  intros w'. subst w'. rewrite !resetGame_shape. simpl.
  split; [reflexivity|]. split.
  { intros c Hc. change Children.remove with JsSet.delete.
    rewrite JsSetFacts.fold_delete, JsSetFacts.elem_of_filter.
    intros [_ Hn]. apply negb_true_iff, JsSetFacts.has_false in Hn.
    contradiction. }
  split_ands; [reflexivity..|].
  destruct w; unfold updateHUD; world_cbv; reflexivity.
Qed.

(** C10. The burst is gated on the placed flag only: with the spawn point
    placed and the game paused, a burst still adds min(10, 30 - size) coins,
    while a frame runs none of the spawn, motion and proximity phases (it
    only refreshes the reticle). *)
Theorem C10_burst_ignores_pause (w : World) :
  placed w = true ->
  paused w = true ->
  pool_ok w ->
  JsSet.size (coins (spawnBurst w))
  = (JsSet.size (coins w) + Z.min 10 (MAX_COINS - JsSet.size (coins w)))%Z /\
  (forall time delta frame,
     onXRFrame w time delta frame = updateReticle w frame /\
     coins (onXRFrame w time delta frame) = coins w /\
     objects (onXRFrame w time delta frame) = objects w /\
     score (onXRFrame w time delta frame) = score w /\
     lastSpawnAt (onXRFrame w time delta frame) = lastSpawnAt w).
Proof.
  intros Hpl Hpa Hok. split.
  - destruct Hok as [Hwf Hcap].
    destruct (spawnBurst_placed w Hpl Hwf) as [Hc _].
    unfold JsSet.size. rewrite Hc, length_app, length_seq.
    unfold within_cap, JsSet.size, MAX_COINS in *. lia.
  - intros time delta frame.
    assert (onXRFrame w time delta frame = updateReticle w frame) as Hf.
    { unfold onXRFrame.
      destruct (updateReticle_shape w frame) as (r & s & ->).
      simpl. rewrite Hpa. reflexivity. }
    rewrite Hf. destruct (updateReticle_shape w frame) as (r & s & ->).
    split_ands; reflexivity.
Qed.

(** What the test of line 243 decides. *)
Lemma expired_spec (w : World) (nowMs : Q) (c : nat) :
  expired w nowMs c = true <->
  exists o, objects w !! c = Some o /\
            COIN_LIFETIME < nowMs - UserData.createdAt (Mesh.userData o).
Proof.
  unfold expired. destruct (objects w !! c) as [o|].
  - destruct (Qlt_le_dec _ _) as [Hlt|Hle]; split.
    + intros _. exists o. auto.
    + reflexivity.
    + discriminate.
    + intros (o' & [= <-] & Hlt). exfalso. apply (Qlt_not_le _ _ Hlt Hle).
  - split; [discriminate|]. intros (o & Ho & _). discriminate.
Qed.


(** C4. Expiry is a silent despawn.  A coin is expired when
    [nowMs - createdAt > 20000].  The first loop of [updateCoins] leaves the
    pool as it is and batches the expired coins; after the second loop the
    pool holds exactly the coins that were not expired, so the live count
    drops by the size of the batch; the score is the same, no effect callback
    is queued, and no material and no scale is written. *)
Theorem C4_expiry_is_silent (w : World) (dt nowMs : Q) :
  let batch := List.filter (expired w nowMs) (coins w) in
  let first := fold_left (updateCoins_visit dt nowMs) (coins w) (w, []) in
  let w' := updateCoins w dt nowMs in
  (forall c, expired w nowMs c = true <->
     exists o, objects w !! c = Some o /\
               20000 < nowMs - UserData.createdAt (Mesh.userData o)) /\
  (coins (fst first) = coins w /\ snd first = batch) /\
  coins w' = List.filter (fun c => negb (expired w nowMs c)) (coins w) /\
  (forall c, c ∈ coins w' <-> c ∈ coins w /\ expired w nowMs c = false) /\
  (length (coins w') + length batch = length (coins w))%nat /\
  score w' = score w /\
  rafQueue w' = rafQueue w /\
  materials w' = materials w /\
  Mesh.scale <$> objects w' = Mesh.scale <$> objects w /\
  (batch <> [] -> dom_alive w' = length (coins w') /\ dom_score w' = score w).
Proof.
  intros batch first w'.
  split; [intros c; apply expired_spec|].
  split.
  { subst first.
    destruct (updateCoins_first_loop w dt nowMs (coins w) (objects w) []
                eq_refl) as (objs' & _ & _ & Hfold).
    replace (w, @nil nat) with (set_objects (objects w) w, @nil nat)
      by (destruct w; reflexivity).
    rewrite Hfold. split; reflexivity. }
  destruct (updateCoins_shape w dt nowMs) as (objs' & Hlook & _ & Hw').
  fold w' batch in Hw'.
  assert (coins w' = List.filter (fun c => negb (expired w nowMs c)) (coins w))
    as Hc by (rewrite Hw'; destruct (length batch =? 0)%nat; reflexivity).
  split_ands.
  - exact Hc.
  - intros c. rewrite Hc, JsSetFacts.elem_of_filter, negb_true_iff. reflexivity.
  - rewrite Hc. subst batch.
    pose proof (JsSetFacts.filter_split_length (expired w nowMs) (coins w)).
    lia.
  - rewrite Hw'; destruct (length batch =? 0)%nat; reflexivity.
  - rewrite Hw'; destruct (length batch =? 0)%nat; reflexivity.
  - rewrite Hw'; destruct (length batch =? 0)%nat; reflexivity.
  - assert (objects w' = objs') as ->
      by (rewrite Hw'; destruct (length batch =? 0)%nat; reflexivity).
    apply (f_equal (fmap (fun l : Vector3.t * nat * UserData.t => l.1.1)))
      in Hlook.
    rewrite <- !list_fmap_compose in Hlook. exact Hlook.
  - intros Hne. rewrite Hw'.
    destruct batch; [contradiction|]. simpl. split; reflexivity.
Qed.


(** *** The spawn timer along a run *)

Lemma spawn_iter_base n w : base (Nat.iter n spawnOne w) = base w.
Proof.
  induction n as [|n IH]; simpl; [reflexivity|].
  rewrite spawnOne_base. exact IH.
Qed.

Lemma spawn_iter_lastSpawnAt n w :
  lastSpawnAt (Nat.iter n spawnOne w) = lastSpawnAt w.
Proof.
  induction n as [|n IH]; simpl; [reflexivity|].
  rewrite spawnOne_lastSpawnAt. exact IH.
Qed.

Lemma spawnBurst_base w : base (spawnBurst w) = base w.
Proof.
  unfold spawnBurst. destruct (placed w); simpl; [|reflexivity].
  exact (spawn_iter_base _ w).
Qed.

Lemma spawnBurst_lastSpawnAt w : lastSpawnAt (spawnBurst w) = lastSpawnAt w.
Proof.
  unfold spawnBurst. destruct (placed w); simpl; [|reflexivity].
  exact (spawn_iter_lastSpawnAt _ w).
Qed.

(** A tick of the spawner either creates a coin, in which case the timer is
    set to the time of the tick and the interval drawn had elapsed, or it
    creates none and leaves the timer alone. *)
Lemma maybeSpawnCoins_cases w nowMs :
  let w' := maybeSpawnCoins w nowMs in
  (spawned w w' = true /\ lastSpawnAt w' = nowMs /\
   (JsSet.size (coins w) < MAX_COINS)%Z /\
   SPAWN_INTERVAL_MS * (0.7 + rnd w (rnd_draws w) * 0.8)
   <= nowMs - lastSpawnAt w) \/
  (spawned w w' = false /\ lastSpawnAt w' = lastSpawnAt w /\
   ((MAX_COINS <= JsSet.size (coins w))%Z \/
    nowMs - lastSpawnAt w
    < SPAWN_INTERVAL_MS * (0.7 + rnd w (rnd_draws w) * 0.8))).
Proof.
  intros w'. subst w'. rewrite maybeSpawnCoins_unfold. unfold spawned.
  destruct (Z.leb_spec MAX_COINS (JsSet.size (coins w))) as [Hfull|Hroom].
  - right. rewrite Nat.ltb_irrefl. auto.
  - destruct (Qlt_le_dec _ _) as [Hearly|Hdue].
    + right. simpl. rewrite Nat.ltb_irrefl. auto.
    + left. split_ands; [|exact (spawnOne_lastSpawnAt _)|exact Hroom|exact Hdue].
      apply Nat.ltb_lt.
      change (length (objects w)
              < length (objects
                  (spawnOne (set_lastSpawnAt nowMs
                               (set_rnd_draws (S (rnd_draws w)) w)))))%nat.
      rewrite spawnOne_objects_length. simpl. lia.
Qed.

(** The same for a whole frame. *)
Lemma onXRFrame_cases w time delta frame :
  let w' := onXRFrame w time delta frame in
  base w' = (placed w, paused w, spawnRoot w, reticle w', xrCamera w,
             hitTestSource w, clock w, perf w, rnd w) /\
  ((spawned w w' = true /\ lastSpawnAt w' = time /\
    exists n, SPAWN_INTERVAL_MS * (0.7 + rnd w n * 0.8)
              <= time - lastSpawnAt w) \/
   (spawned w w' = false /\ lastSpawnAt w' = lastSpawnAt w)).
Proof.
  intros w'. subst w'. unfold onXRFrame.
  destruct (updateReticle_shape w frame) as (r & s & ->).
  set (w1 := set_dom_status s (set_reticle r w)).
  set (dt := if clock w then delta else 0.016).
  destruct (negb (paused w1) && placed w1).
  - set (w2 := maybeSpawnCoins w1 time).
    set (w3 := updateCoins w2 dt time).
    set (w4 := checkProximityCollect w3).
    assert (base w4 = base w1) as Hb.
    { subst w4 w3 w2. unfold checkProximityCollect.
      rewrite collect_loop_base, updateCoins_base, maybeSpawnCoins_base.
      reflexivity. }
    assert (lastSpawnAt w4 = lastSpawnAt w2) as Ht.
    { subst w4 w3. unfold checkProximityCollect.
      rewrite collect_loop_lastSpawnAt, updateCoins_lastSpawnAt. reflexivity. }
    assert (length (objects w4) = length (objects w2)) as Hl.
    { subst w4 w3. unfold checkProximityCollect.
      rewrite collect_loop_objects_length, updateCoins_objects_length.
      reflexivity. }
    split.
    + unfold base in *. injection Hb as -> -> -> _ -> -> -> -> ->. reflexivity.
    + unfold spawned. rewrite Hl, Ht.
      destruct (maybeSpawnCoins_cases w1 time)
        as [(Hs & Hlast & _ & Hdue)|(Hs & Hlast & _)]; fold w2 in Hs, Hlast.
      * left. split; [exact Hs|]. split; [exact Hlast|].
        exists (rnd_draws w). exact Hdue.
      * right. split; [exact Hs|exact Hlast].
  - split; [reflexivity|]. right. unfold spawned. simpl.
    rewrite Nat.ltb_irrefl. auto.
Qed.

Lemma step_rnd w e : rnd (step w e) = rnd w.
Proof.
  assert (forall w1 w2, base w1 = base w2 -> rnd w1 = rnd w2) as Hb.
  { unfold base. intros w1 w2 Hb. injection Hb. auto. }
  destruct e; cbn [step].
  - destruct (onXRFrame_cases w time delta frame) as [Hbase _].
    unfold base in Hbase. injection Hbase. auto.
  - unfold onPointerDown. destruct (placed w); simpl.
    + destruct hit; [|reflexivity]. apply Hb, collect_base.
    + destruct (Object3D.visible (reticle w)); reflexivity.
  - rewrite resetGame_shape. reflexivity.
  - reflexivity.
  - destruct (dom_btnBurst_disabled w); [reflexivity|].
    apply Hb, spawnBurst_base.
  - reflexivity.
  - reflexivity.
  - apply Hb, runAnimationFrame_base.
  - reflexivity.
Qed.

(** Within a session, only a frame that spawns moves the spawn timer. *)
Lemma step_lastSpawnAt w e :
  in_session e ->
  (forall time delta frame, e = XRFrame time delta frame ->
     spawned w (step w e) = false) ->
  lastSpawnAt (step w e) = lastSpawnAt w.
Proof.
  intros Hin Hno. destruct e; cbn [step].
  - specialize (Hno time delta frame eq_refl). cbn [step] in Hno.
    destruct (onXRFrame_cases w time delta frame)
      as [_ [(Hs & _)|(_ & Ht)]]; [congruence|exact Ht].
  - unfold onPointerDown. destruct (placed w); simpl.
    + destruct hit; [|reflexivity]. apply collect_lastSpawnAt.
    + destruct (Object3D.visible (reticle w)); reflexivity.
  - rewrite resetGame_shape. reflexivity.
  - reflexivity.
  - destruct (dom_btnBurst_disabled w); [reflexivity|].
    apply spawnBurst_lastSpawnAt.
  - contradiction Hin. reflexivity.
  - reflexivity.
  - apply runAnimationFrame_lastSpawnAt.
  - reflexivity.
Qed.

Lemma spaced_cons d t ts :
  (forall t2, ts !! 0%nat = Some t2 -> d <= t2 - t) ->
  spaced d ts -> spaced d (t :: ts).
Proof.
  intros Hhd Htl [|i] t1 t2 H1 H2; simpl in *.
  - injection H1 as <-. auto.
  - apply (Htl i); assumption.
Qed.

(** Along a run within a session, the first spawn comes no sooner than the
    shortest interval after the timer, and so does each spawn after the one
    before it. *)
Lemma spawn_times_spaced es : forall w,
  (forall n, 0 <= rnd w n) ->
  Forall in_session es ->
  (forall t, spawn_times w es !! 0%nat = Some t ->
             SPAWN_INTERVAL_MS * 0.7 <= t - lastSpawnAt w) /\
  spaced (SPAWN_INTERVAL_MS * 0.7) (spawn_times w es).
Proof.
  induction es as [|e es IH]; intros w Hrnd Hes.
  - split; [discriminate|]. intros i t1 t2 Hi. destruct i; discriminate.
  - apply Forall_cons in Hes. destruct Hes as [He Hes].
    assert (forall n, 0 <= rnd (step w e) n) as Hrnd'
      by (rewrite step_rnd; exact Hrnd).
    destruct (IH (step w e) Hrnd' Hes) as [Hhd Hsp].
    assert (lastSpawnAt (step w e) = lastSpawnAt w ->
            (forall t, spawn_times (step w e) es !! 0%nat = Some t ->
                       SPAWN_INTERVAL_MS * 0.7 <= t - lastSpawnAt w) /\
            spaced (SPAWN_INTERVAL_MS * 0.7) (spawn_times (step w e) es))
      as Hquiet.
    { intros Heq. rewrite <- Heq. split; assumption. }
    destruct e as [time delta frame| | | | | | | |];
      try (simpl; apply Hquiet, step_lastSpawnAt;
           [exact He|intros; discriminate]).
    simpl. destruct (spawned w (onXRFrame w time delta frame)) eqn:Hs.
    + destruct (onXRFrame_cases w time delta frame)
        as [_ [(_ & Ht & n & Hdue)|(Hs' & _)]]; [|congruence].
      simpl in Hhd. rewrite Ht in Hhd. split.
      * intros t [= <-]. specialize (Hrnd n).
        unfold SPAWN_INTERVAL_MS in *. lra.
      * apply spaced_cons; assumption.
    + apply Hquiet.
      apply (step_lastSpawnAt w (XRFrame time delta frame) He).
      intros ? ? ? [= <- <- <-]. exact Hs.
Qed.

(** Along successive calls of [maybeSpawnCoins], likewise. *)
Lemma tick_times_spaced ticks : forall w,
  (forall n, 0 <= rnd w n) ->
  (forall t, tick_times w ticks !! 0%nat = Some t ->
             SPAWN_INTERVAL_MS * 0.7 <= t - lastSpawnAt w) /\
  spaced (SPAWN_INTERVAL_MS * 0.7) (tick_times w ticks).
Proof.
  induction ticks as [|nowMs ticks IH]; intros w Hrnd.
  - split; [discriminate|]. intros i t1 t2 Hi. destruct i; discriminate.
  - assert (forall n, 0 <= rnd (maybeSpawnCoins w nowMs) n) as Hrnd'.
    { pose proof (maybeSpawnCoins_base w nowMs) as Hb. unfold base in Hb.
      injection Hb as _ _ _ _ _ _ _ _ ->. exact Hrnd. }
    destruct (IH (maybeSpawnCoins w nowMs) Hrnd') as [Hhd Hsp].
    simpl.
    destruct (maybeSpawnCoins_cases w nowMs)
      as [(Hs & Ht & _ & Hdue)|(Hs & Ht & _)]; rewrite Hs, Ht in *.
    + split.
      * intros t [= <-]. specialize (Hrnd (rnd_draws w)).
        unfold SPAWN_INTERVAL_MS in *. lra.
      * apply spaced_cons; assumption.
    + split; assumption.
Qed.

(** C5 (amended). Spawn timing.  [maybeSpawnCoins] creates a coin exactly
    when the pool has room and [nowMs - lastSpawnAt >= 1400 * (0.7 + 0.8 u)],
    where [u] is a draw made anew at each evaluation of the test; when it
    does it sets [lastSpawnAt] to [nowMs], otherwise it leaves it alone.
    Hence two successive spawns are at least 1400 * 0.7 ms apart along any
    sequence of calls of [maybeSpawnCoins], and along any run of events of
    the page in which no XR session starts: the [sessionstart] listener
    sets [lastSpawnAt] to 0. *)
Theorem C5_spawn_timing (w : World) (nowMs : Q) :
  (forall n, 0 <= rnd w n) ->
  let u := rnd w (rnd_draws w) in
  let w' := maybeSpawnCoins w nowMs in
  (spawned w w' = true <->
   (JsSet.size (coins w) < 30)%Z /\
   1400 * (0.7 + u * 0.8) <= nowMs - lastSpawnAt w) /\
  ((JsSet.size (coins w) < 30)%Z -> (rnd_draws w < rnd_draws w')%nat) /\
  (spawned w w' = true -> lastSpawnAt w' = nowMs) /\
  (spawned w w' = false -> lastSpawnAt w' = lastSpawnAt w) /\
  (forall ticks, spaced (1400 * 0.7) (tick_times w ticks)) /\
  (forall es, Forall in_session es -> spaced (1400 * 0.7) (spawn_times w es)).
Proof.
  intros Hrnd u w'. split_ands.
  - destruct (maybeSpawnCoins_cases w nowMs)
      as [(Hs & _ & Hroom & Hdue)|(Hs & _ & Hno)]; fold w' in Hs.
    + rewrite Hs. split; [intros _|reflexivity]. split; assumption.
    + rewrite Hs. split; [discriminate|]. intros [Hroom Hdue]. exfalso.
      destruct Hno as [Hfull|Hearly].
      * unfold MAX_COINS in Hfull. lia.
      * apply (Qlt_not_le _ _ Hearly Hdue).
  - intros Hroom. subst w'. rewrite maybeSpawnCoins_unfold.
    destruct (Z.leb_spec MAX_COINS (JsSet.size (coins w))) as [Hfull|_];
      [unfold MAX_COINS in Hfull; lia|].
    destruct (Qlt_le_dec _ _); [simpl; lia|].
    spawn_cases (set_lastSpawnAt nowMs (set_rnd_draws (S (rnd_draws w)) w));
      simpl; lia.
  - intros Hs. destruct (maybeSpawnCoins_cases w nowMs)
      as [(_ & Ht & _)|(Hs' & _)]; [exact Ht|fold w' in Hs'; congruence].
  - intros Hs. destruct (maybeSpawnCoins_cases w nowMs)
      as [(Hs' & _)|(_ & Ht & _)]; [fold w' in Hs'; congruence|exact Ht].
  - intros ticks. apply (tick_times_spaced ticks w Hrnd).
  - intros es Hes. apply (spawn_times_spaced es w Hrnd Hes).
Qed.

(** *** The placement gate along a run *)

Lemma base_anchor (w1 w2 : World) :
  placed w2 = true ->
  base w1 = base w2 -> placed w1 = true /\ spawnRoot w1 = spawnRoot w2.
Proof. unfold base. intros Hpl Hb. injection Hb. intros. split; congruence. Qed.

(** No event but a reset or the end of the session moves the anchor of a
    placed world or unplaces it. *)
Lemma step_anchor w e :
  placed w = true ->
  keeps_placement e ->
  placed (step w e) = true /\ spawnRoot (step w e) = spawnRoot w.
Proof.
  intros Hpl [Hreset Hend].
  destruct e; cbn [step].
  - destruct (onXRFrame_cases w time delta frame) as [Hbase _].
    unfold base in Hbase. injection Hbase. intros. split; congruence.
  - unfold onPointerDown. rewrite Hpl. simpl.
    destruct hit; [|auto]. apply (base_anchor _ _ Hpl), collect_base.
  - contradiction.
  - split; [exact Hpl|reflexivity].
  - destruct (dom_btnBurst_disabled w); [split; [exact Hpl|reflexivity]|].
    apply (base_anchor _ _ Hpl), spawnBurst_base.
  - split; [exact Hpl|reflexivity].
  - contradiction.
  - apply (base_anchor _ _ Hpl), runAnimationFrame_base.
  - split; [exact Hpl|reflexivity].
Qed.

Lemma run_anchor es : forall w,
  placed w = true ->
  Forall keeps_placement es ->
  placed (run w es) = true /\ spawnRoot (run w es) = spawnRoot w.
Proof.
  induction es as [|e es IH]; intros w Hpl Hes; [auto|].
  apply Forall_cons in Hes. destruct Hes as [He Hes].
  destruct (step_anchor w e Hpl He) as [Hpl' Hroot].
  destruct (IH (step w e) Hpl' Hes) as [Hpl'' Hroot'].
  simpl. split; [exact Hpl''|]. rewrite Hroot'. exact Hroot.
Qed.

(** C9 (amended). Placement gate.  A pointer-down in the unplaced state with
    no reticle pose places the spawn root at the camera position moved by
    1.5 along the normalised view direction and lowered by 0.8, and sets the
    gate to placed; the anchor depends on the camera pose alone.  The view
    direction is the camera's rotation of [(0, 0, -1)]: for the camera
    quaternion [(qx, qy, qz, qw)] it is
    [(-2 (qw qy + qx qz), 2 (qw qx - qy qz), 2 (qx qx + qy qy) - 1)], divided
    by its length (by 1 when the length is 0).  From then on no event other
    than a reset or the end of the session changes the anchor or the flag;
    in particular no further pointer-down does. *)
Theorem C9_placement_gate (w : World) (hit : option nat) :
  placed w = false ->
  Object3D.visible (reticle w) = false ->
  let origin := Object3D.position (xrCamera w) in
  let q := Object3D.quaternion (xrCamera w) in
  let dir := Vec.applyQuaternion (Vector3.make 0 0 (-1)) q in
  let fwd := Vec.normalize dir in
  let len :=
    Math_sqrt (Vector3.x dir * Vector3.x dir + Vector3.y dir * Vector3.y dir
               + Vector3.z dir * Vector3.z dir) in
  let w' := onPointerDown w hit in
  let anchor := Object3D.position (spawnRoot w') in
  placed w' = true /\
  Vector3.x anchor == Vector3.x origin + 1.5 * Vector3.x fwd /\
  Vector3.y anchor == Vector3.y origin + 1.5 * Vector3.y fwd - 0.8 /\
  Vector3.z anchor == Vector3.z origin + 1.5 * Vector3.z fwd /\
  (forall w2 hit2,
     placed w2 = false ->
     Object3D.visible (reticle w2) = false ->
     xrCamera w2 = xrCamera w ->
     Object3D.position (spawnRoot (onPointerDown w2 hit2)) = anchor) /\
  (forall es,
     Forall keeps_placement es ->
     placed (run w' es) = true /\ spawnRoot (run w' es) = spawnRoot w') /\
  (forall hits,
     spawnRoot (run w' (PointerDown <$> hits)) = spawnRoot w' /\
     placed (run w' (PointerDown <$> hits)) = true) /\
  (Vector3.x dir
   == -2 * (Quaternion.w q * Quaternion.y q + Quaternion.x q * Quaternion.z q) /\
   Vector3.y dir
   == 2 * (Quaternion.w q * Quaternion.x q - Quaternion.y q * Quaternion.z q) /\
   Vector3.z dir
   == 2 * (Quaternion.x q * Quaternion.x q + Quaternion.y q * Quaternion.y q)
      - 1) /\
  (let d := if Qeq_bool len 0 then 1 else len in
   fwd = Vector3.make (Vector3.x dir * (1 / d)) (Vector3.y dir * (1 / d))
                      (Vector3.z dir * (1 / d))).
Proof.
  intros Hpl Hvis origin q dir fwd len w' anchor.
  assert (forall w2 hit2,
            placed w2 = false ->
            Object3D.visible (reticle w2) = false ->
            placed (onPointerDown w2 hit2) = true /\
            Object3D.position (spawnRoot (onPointerDown w2 hit2))
            = Vec.setY
                (Vec.addScaledVector (Object3D.position (xrCamera w2))
                   (Vec.normalize
                      (Vec.applyQuaternion (Vector3.make 0 0 (-1))
                         (Object3D.quaternion (xrCamera w2)))) 1.5)
                (Vector3.y
                   (Vec.addScaledVector (Object3D.position (xrCamera w2))
                      (Vec.normalize
                         (Vec.applyQuaternion (Vector3.make 0 0 (-1))
                            (Object3D.quaternion (xrCamera w2)))) 1.5)
                 - 0.8)) as Hfallback.
  { intros w2 hit2 Hpl2 Hvis2. unfold onPointerDown.
    rewrite Hpl2, Hvis2. split; reflexivity. }
  destruct (Hfallback w hit Hpl Hvis) as [Hplaced Hanchor].
  fold w' in Hplaced, Hanchor. fold anchor origin q dir fwd in Hanchor.
  assert (forall es,
            Forall keeps_placement es ->
            placed (run w' es) = true /\ spawnRoot (run w' es) = spawnRoot w')
    as Hrun by (intros es Hes; apply run_anchor; assumption).
  split_ands.
  - exact Hplaced.
  - rewrite Hanchor. unfold Vec.setY, Vec.addScaledVector. simpl. ring.
  - rewrite Hanchor. unfold Vec.setY, Vec.addScaledVector. simpl. ring.
  - rewrite Hanchor. unfold Vec.setY, Vec.addScaledVector. simpl. ring.
  - intros w2 hit2 Hpl2 Hvis2 Hcam.
    destruct (Hfallback w2 hit2 Hpl2 Hvis2) as [_ ->].
    rewrite Hcam, Hanchor. reflexivity.
  - exact Hrun.
  - intros hits.
    assert (Forall keeps_placement (PointerDown <$> hits)) as Hes.
    { apply Forall_fmap, Forall_forall. intros h _. split; discriminate. }
    destruct (Hrun _ Hes). auto.
  - subst dir. unfold Vec.applyQuaternion. simpl. ring.
  - subst dir. unfold Vec.applyQuaternion. simpl. ring.
  - subst dir. unfold Vec.applyQuaternion. simpl. ring.
  - reflexivity.
Qed.

End Claims.


(** ** How far the collection effect reaches *)

Section Sharing.
Context `{Platform}.
Local Open Scope Q_scope.

Lemma shared_wiring (w w' : World) :
  wiring w' = wiring w -> shared w -> shared w'.
Proof.
  unfold wiring, shared. intros Hw. injection Hw as -> -> ->. auto.
Qed.

Lemma body_material (l l' : list Mesh.t) :
  body <$> l' = body <$> l -> Mesh.material <$> l' = Mesh.material <$> l.
Proof.
  intros Hb.
  apply (f_equal (fmap (fun b : Vector3.t * Vector3.t * nat * UserData.t =>
                          b.1.2))) in Hb.
  rewrite <- !list_fmap_compose in Hb. exact Hb.
Qed.

Lemma look_material (l l' : list Mesh.t) :
  look <$> l' = look <$> l -> Mesh.material <$> l' = Mesh.material <$> l.
Proof.
  intros Hb.
  apply (f_equal (fmap (fun b : Vector3.t * nat * UserData.t => b.1.2))) in Hb.
  rewrite <- !list_fmap_compose in Hb. exact Hb.
Qed.

(** What [tween] writes: the material of the captured mesh. *)
Lemma tween_materials w tw :
  exists f,
    (forall mat, Material.transparent (f mat) = true) /\
    (forall mat,
       Material.opacity (f mat)
       = 1 - Qmin 1 ((perf w (perf_reads w) - Tween.start tw) / Tween.dur)) /\
    _coinMat (tween w tw) = _coinMat w /\
    materials (tween w tw)
    = match objects w !! Tween.obj tw with
      | Some o => alter f (Mesh.material o) (materials w)
      | None => materials w
      end.
Proof.
  eexists (fun mat => Material.make _ _ _ _ _ true).
  split; [reflexivity|]. split; [reflexivity|].
  unfold tween, performance_now, update_mesh, update_material. simpl.
  rewrite list_lookup_alter_eq.
  destruct (objects w !! Tween.obj tw) as [o|]; simpl;
    destruct (Qlt_le_dec _ _); split; reflexivity.
Qed.

Lemma tween_wiring w tw : wiring (tween w tw) = wiring w.
Proof.
  destruct (tween_materials w tw) as (f & _ & _ & Hc & Hm).
  unfold wiring. rewrite Hc, Hm, (body_material _ _ (tween_bodies w tw)).
  destruct (objects w !! Tween.obj tw); [rewrite length_alter|]; reflexivity.
Qed.

Lemma collect_wiring w obj : wiring (collect w obj) = wiring w.
Proof.
  destruct (decide (obj ∈ coins w)) as [Hobj|Hobj].
  - destruct (collect_member w obj Hobj) as (tw & _ & ->).
    exact (tween_wiring _ tw).
  - rewrite collect_absent; auto.
Qed.

Lemma spawnOne_wiring w :
  wiring (spawnOne w)
  = match _coinMat w with
    | Some m =>
        (Some m, length (materials w), (Mesh.material <$> objects w) ++ [m])
    | None =>
        (Some (length (materials w)), S (length (materials w)),
         (Mesh.material <$> objects w) ++ [length (materials w)])
    end.
Proof.
  unfold wiring, spawnOne, makeCoin, getSharedCoinMat,
    positionCoinAroundRoot, performance_now, Math_random, update_mesh.
  destruct (_coinMat w) as [m|] eqn:Hcm; simpl;
    (rewrite (fmap_alter_same Mesh.material) by reflexivity);
    rewrite fmap_app, ?length_app, ?Hcm; simpl; rewrite ?Nat.add_1_r;
    reflexivity.
Qed.

Lemma spawnOne_shared w : shared w -> shared (spawnOne w).
Proof.
  intros [Hin Hall]. pose proof (spawnOne_wiring w) as Hw.
  unfold shared. unfold wiring in Hw.
  destruct (_coinMat w) as [m|] eqn:Hcm; injection Hw as -> -> ->.
  - split; [apply Hin|]. apply Forall_app. split; [exact Hall|].
    apply Forall_singleton. reflexivity.
  - split; [intros m [= <-]; lia|].
    destruct (Mesh.material <$> objects w) as [|m ms]; simpl.
    + apply Forall_singleton. reflexivity.
    + apply Forall_cons in Hall. destruct Hall as [Hm _]. discriminate.
Qed.

Lemma spawn_iter_shared n w : shared w -> shared (Nat.iter n spawnOne w).
Proof.
  intros Hs. induction n as [|n IH]; simpl; [exact Hs|].
  apply spawnOne_shared, IH.
Qed.

Lemma updateCoins_wiring w dt nowMs :
  wiring (updateCoins w dt nowMs) = wiring w.
Proof.
  destruct (updateCoins_shape w dt nowMs) as (objs' & Hlook & _ & ->).
  apply look_material in Hlook. unfold wiring.
  destruct (length _ =? 0)%nat; simpl; rewrite Hlook; reflexivity.
Qed.

Lemma step_shared w e : shared w -> shared (step w e).
Proof.
  intros Hs. destruct e; cbn [step].
  - unfold onXRFrame.
    destruct (updateReticle_shape w frame) as (r & s & ->).
    set (w1 := set_dom_status s (set_reticle r w)).
    assert (shared w1) as Hs1 by exact Hs.
    destruct (negb (paused w1) && placed w1); [|exact Hs1].
    unfold checkProximityCollect. apply (fold_left_keeps shared).
    { intros a x. apply shared_wiring, collect_wiring. }
    apply (shared_wiring _ _ (updateCoins_wiring _ _ _)).
    rewrite maybeSpawnCoins_unfold.
    destruct (_ <=? _)%Z; [exact Hs1|].
    destruct (Qlt_le_dec _ _); [exact Hs1|].
    exact (spawnOne_shared
             (set_lastSpawnAt time (set_rnd_draws (S (rnd_draws w1)) w1)) Hs1).
  - unfold onPointerDown. destruct (placed w); simpl.
    + destruct hit; [|exact Hs]. apply (shared_wiring _ _ (collect_wiring _ _) Hs).
    + destruct (Object3D.visible (reticle w)); exact Hs.
  - rewrite resetGame_shape. exact Hs.
  - exact Hs.
  - destruct (dom_btnBurst_disabled w); [exact Hs|].
    unfold spawnBurst. destruct (placed w); simpl; [|exact Hs].
    exact (spawn_iter_shared _ w Hs).
  - exact Hs.
  - exact Hs.
  - unfold runAnimationFrame. apply (fold_left_keeps shared); [|exact Hs].
    intros a x. apply shared_wiring, tween_wiring.
  - exact Hs.
Qed.

Lemma reachable_shared w : reachable w -> shared w.
Proof.
  induction 1 as [h|w e _ IH]; [|apply step_shared, IH].
  split; [discriminate|apply Forall_nil; exact I].
Qed.

(** Capturing one coin rewrites the material of every other live coin: in
    any reachable state, after [collect w c] a coin [c'] that stays in the
    pool is drawn transparent, with the opacity the effect of [c] has
    reached. *)
Lemma effect_reaches_live_coins (w : World) (c c' : nat) :
  reachable w ->
  c ∈ coins w -> c' ∈ coins w -> c <> c' ->
  c' ∈ coins (collect w c) /\
  exists sc m,
    visual (collect w c) c' = Some (sc, m) /\
    Material.transparent m = true /\
    Material.opacity m
    = 1 - Qmin 1 ((perf w (S (perf_reads w)) - perf w (perf_reads w))
                  / Tween.dur).
Proof.
  intros Hr Hc Hc' Hne.
  pose proof (reachable_pool_ok w Hr) as [[_ Halloc] _].
  pose proof (reachable_shared w Hr) as [Hin Hall].
  rewrite Forall_forall in Halloc.
  destruct (lookup_lt_is_Some_2 (objects w) c (Halloc c Hc)) as [o Ho].
  destruct (lookup_lt_is_Some_2 (objects w) c' (Halloc c' Hc')) as [o' Ho'].
  rewrite Forall_forall in Hall.
  assert (_coinMat w = Some (Mesh.material o)) as Hm.
  { apply Hall, list_elem_of_fmap. exists o. split; [reflexivity|].
    apply list_elem_of_lookup. eauto. }
  assert (Mesh.material o' = Mesh.material o) as Hmm.
  { assert (_coinMat w = Some (Mesh.material o')) as Hm'.
    { apply Hall, list_elem_of_fmap. exists o'. split; [reflexivity|].
      apply list_elem_of_lookup. eauto. }
    congruence. }
  destruct (lookup_lt_is_Some_2 (materials w) (Mesh.material o)
              (Hin _ Hm)) as [mat Hmat].
  split.
  { rewrite collect_coins. apply JsSetFacts.elem_of_delete. auto. }
  unfold collect, collect_enter, performance_now.
  apply JsSetFacts.has_true in Hc. rewrite Hc. simpl. rewrite Ho. simpl.
  rewrite Hmat.
  set (tw := Tween.make c _ _ _).
  set (w1 := set_perf_reads _ _).
  destruct (tween_materials w1 tw) as (f & Htr & Hop & _ & Hmats).
  change (objects w1) with (objects w) in Hmats.
  change (materials w1) with (materials w) in Hmats.
  change (Tween.obj tw) with c in Hmats. rewrite Ho in Hmats.
  unfold visual, updateHUD. simpl.
  rewrite tween_objects. change (Tween.obj tw) with c.
  change (objects w1) with (objects w).
  rewrite list_lookup_alter_ne by exact Hne. rewrite Ho', Hmm, Hmats.
  rewrite list_lookup_alter_eq, Hmat. simpl.
  eexists _, _. split; [reflexivity|]. split; [apply Htr|].
  rewrite Hop. reflexivity.
Qed.

End Sharing.

(** ** The claims on the reference page *)

Lemma random_range (n : nat) : (0 <= Ref.random n < 1)%Q.
Proof.
  unfold Ref.random.
  pose proof (Z.mod_pos_bound (37 * Z.of_nat n + 11) 100 eq_refl) as Hb.
  destruct ((37 * Z.of_nat n + 11) mod 100)%Z as [|p|p] eqn:Hz;
    unfold Qle, Qlt; simpl; lia.
Qed.

Lemma reachable_ref (es : list Event) :
  @reachable Ref.platform (Ref.run Ref.init es).
Proof. apply reachable_run. apply reachable_init. Qed.

Lemma triple_inv {A B C : Type} (a a' : A) (b b' : B) (c c' : C) :
  (a, b, c) = (a', b', c') -> a = a' /\ b = b' /\ c = c'.
Proof. intros Heq. inversion Heq. auto. Qed.

(** The page with twenty-five coins, evaluated once: the gate is placed,
    the pool holds the handles 0 to 24, and twenty-five meshes exist. *)
Lemma crowded_pool :
  (placed Demo.crowded, coins Demo.crowded, length (objects Demo.crowded))
  = (true, seq 0 25, 25%nat).
Proof. vm_compute. reflexivity. Qed.


(** The invariant, on the page with twenty-five coins. *)
Lemma C1_witness :
  @reachable Ref.platform Demo.crowded /\
  (0 <= JsSet.size (coins Demo.crowded) <= 30)%Z.
Proof.
  assert (@reachable Ref.platform Demo.crowded) as Hr
    by (unfold Demo.crowded; apply reachable_ref).
  destruct (@C1_population_invariant Ref.platform Demo.crowded Hr)
    as [Hcap _].
  split; [exact Hr|exact Hcap].
Defined.



(** C3. Collection effect isolation does not hold of the code: every coin is
    drawn with the one material [getSharedCoinMat] creates, and [tween]
    writes the emissive colour, the opacity and the transparency flag of
    that material.  On the page with ten coins, capturing coin 0 changes what
    coin 1, which stays in the pool, looks like: its material turns
    transparent with opacity below 1 at the first step of the effect, and
    when the effect has run its course every coin left in the pool is drawn
    with opacity 0. *)
Theorem C3_effect_writes_live_coins :
  let w := Demo.ten in
  let w1 := Demo.captured in
  let w2 := Ref.run w1 (repeat AnimationFrame 11) in
  (1 ∈ coins w1)%nat /\
  (exists sc m,
     visual w 1 = Some (sc, m) /\
     Material.transparent m = false /\ (Material.opacity m == 1)%Q) /\
  (exists sc m,
     visual w1 1 = Some (sc, m) /\
     Material.transparent m = true /\ (Material.opacity m < 1)%Q) /\
  visual w1 1 <> visual w 1 /\
  rafQueue w2 = [] /\
  coins w2 = [1; 2; 3; 4; 5; 6; 7; 8; 9]%nat /\
  Forall (fun c => exists sc m,
            visual w2 c = Some (sc, m) /\
            Material.transparent m = true /\ (Material.opacity m == 0)%Q)
         (coins w2).
Proof.
  intros w w1 w2. split_ands.
  - apply (bool_decide_unpack _). vm_compute. exact I.
  - eexists _, _. split; [vm_compute; reflexivity|]. split; reflexivity.
  - eexists _, _. split; [vm_compute; reflexivity|]. split; reflexivity.
  - vm_compute. discriminate.
  - vm_compute. reflexivity.
  - vm_compute. reflexivity.
  - assert (coins w2 = [1; 2; 3; 4; 5; 6; 7; 8; 9]%nat) as ->
      by (vm_compute; reflexivity).
    repeat constructor;
      (eexists _, _; split; [vm_compute; reflexivity|]; split; reflexivity).
Qed.

(** The expiry tick at 30000 ms on the page with twenty-five coins, all
    created before 10000 ms: every coin is evicted and the score stays 0. *)
Example expiry_tick :
  let w' := @updateCoins Ref.platform Demo.crowded 0.016 30000 in
  coins w' = [] /\ score w' = 0%nat /\ dom_alive w' = 0%nat /\
  rafQueue w' = [].
Proof. vm_compute. auto. Qed.

(** The spawn timer: from the page with ten coins, frames at 3000, 3500,
    6000 and 6900 ms spawn at 3000 and at 6000 only. *)
Lemma C5_witness :
  (forall n, (0 <= rnd Demo.ten n)%Q) /\
  @spawn_times Ref.platform Demo.ten
    [XRFrame 3000 0.016 None; XRFrame 3500 0.016 None;
     XRFrame 6000 0.016 None; XRFrame 6900 0.016 None]
  = [3000%Q; 6000%Q] /\
  spaced (1400 * 0.7)
    (@spawn_times Ref.platform Demo.ten
       [XRFrame 3000 0.016 None; XRFrame 3500 0.016 None;
        XRFrame 6000 0.016 None; XRFrame 6900 0.016 None]).
Proof.
  assert (forall n, (0 <= rnd Demo.ten n)%Q) as Hrnd
    by (intros n; apply (random_range n)).
  destruct (@C5_spawn_timing Ref.platform Demo.ten 3000 Hrnd)
    as (_ & _ & _ & _ & _ & Hrun).
  split; [exact Hrnd|]. split; [vm_compute; reflexivity|].
  apply Hrun. repeat constructor; discriminate.
Defined.

(** Across the start of a session the spacing fails.  On the placed page the
    frame at 3000 ms spawns a coin, the session starts and its listener sets
    [lastSpawnAt] to 0, and the frame at 3100 ms spawns again, 100 ms after
    the last spawn. *)
Lemma C5_counterexample :
  (forall n, (0 <= rnd Demo.bare n)%Q) /\
  @spawn_times Ref.platform Demo.bare
    [XRFrame 3000 0.016 None; SessionStart; XRFrame 3100 0.016 None]
  = [3000%Q; 3100%Q] /\
  ~ @spawns_spaced Ref.platform Demo.bare
      [XRFrame 3000 0.016 None; SessionStart; XRFrame 3100 0.016 None].
Proof.
  assert (@spawn_times Ref.platform Demo.bare
            [XRFrame 3000 0.016 None; SessionStart; XRFrame 3100 0.016 None]
          = [3000%Q; 3100%Q]) as Ht by (vm_compute; reflexivity).
  split; [intros n; apply (random_range n)|]. split; [exact Ht|].
  unfold spawns_spaced. rewrite Ht. intros Hsp.
  specialize (Hsp 0%nat 3000%Q 3100%Q eq_refl eq_refl).
  revert Hsp. unfold Qle. simpl. lia.
Qed.

(** The burst from twenty-five coins creates five. *)
Lemma C6_witness :
  placed Demo.crowded = true /\
  pool_ok Demo.crowded /\
  JsSet.size (coins Demo.crowded) = 25%Z /\
  JsSet.size (coins (@spawnBurst Ref.platform Demo.crowded)) = 30%Z.
Proof.
  destruct (triple_inv _ _ _ _ _ _ crowded_pool) as (Hpl & Hcoins & Hlen).
  assert (pool_ok Demo.crowded) as Hok.
  { unfold pool_ok, pool_wf, within_cap, JsSet.size. rewrite Hcoins, Hlen.
    apply (bool_decide_unpack _). vm_compute. exact I. }
  assert (JsSet.size (coins Demo.crowded) = 25%Z) as H25
    by (unfold JsSet.size; rewrite Hcoins; reflexivity).
  pose proof (@C6_burst_clamping Ref.platform Demo.crowded Hpl Hok) as Hburst.
  cbv zeta in Hburst. destruct Hburst as (_ & _ & _ & _ & _ & Hscenario).
  destruct (Hscenario H25) as [_ H30].
  split; [exact Hpl|]. split; [exact Hok|]. split; [exact H25|exact H30].
Defined.

(** Coin 0 has been captured; collecting it again changes nothing. *)
Lemma C7_witness :
  (0 ∉ coins Demo.captured)%nat /\
  @collect Ref.platform Demo.captured 0 = Demo.captured.
Proof.
  assert (0 ∉ coins Demo.captured)%nat as Hout
    by (apply (bool_decide_unpack _); vm_compute; exact I).
  destruct (@C7_collect_absent_is_noop Ref.platform Demo.captured 0%nat Hout)
    as [Hnoop _].
  split; [exact Hout|exact Hnoop].
Defined.

(** Reset of the page with ten coins. *)
Example reset_ten :
  let w' := resetGame Demo.ten in
  coins w' = [] /\ scene w' = [] /\ score w' = 0%nat /\
  placed w' = false /\ paused w' = false /\
  resetGame w' = w'.
Proof. vm_compute. auto 10. Qed.

(** The fallback on the freshly loaded page.  With the viewer at the origin
    looking down the negative z axis the anchor is 1.5 ahead and 0.8 below:
    (0, -0.8, -1.5).  With the viewer at (1, 1.6, 2) turned by the quaternion
    (0, 0.6, 0, 0.8) the view direction is (-0.96, 0, -0.28) and the anchor
    is (-0.44, 0.8, 1.58). *)
Lemma C9_witness :
  (placed Ref.init = false /\
   Object3D.visible (reticle Ref.init) = false /\
   placed (@onPointerDown Ref.platform Ref.init None) = true /\
   (Vector3.x (Object3D.position
                 (spawnRoot (@onPointerDown Ref.platform Ref.init None)))
    == 0)%Q /\
   (Vector3.y (Object3D.position
                 (spawnRoot (@onPointerDown Ref.platform Ref.init None)))
    == -0.8)%Q /\
   (Vector3.z (Object3D.position
                 (spawnRoot (@onPointerDown Ref.platform Ref.init None)))
    == -1.5)%Q) /\
  (placed Demo.turned = false /\
   Object3D.visible (reticle Demo.turned) = false /\
   placed (@onPointerDown Ref.platform Demo.turned None) = true /\
   (Vector3.x (Object3D.position
                 (spawnRoot (@onPointerDown Ref.platform Demo.turned None)))
    == -0.44)%Q /\
   (Vector3.y (Object3D.position
                 (spawnRoot (@onPointerDown Ref.platform Demo.turned None)))
    == 0.8)%Q /\
   (Vector3.z (Object3D.position
                 (spawnRoot (@onPointerDown Ref.platform Demo.turned None)))
    == 1.58)%Q).
Proof.
  pose proof (@C9_placement_gate Ref.platform Ref.init None eq_refl eq_refl)
    as Hgate.
  pose proof (@C9_placement_gate Ref.platform Demo.turned None
                eq_refl eq_refl) as Hturned.
  cbv zeta in Hgate, Hturned.
  destruct Hgate as (Hpl & _). destruct Hturned as (Hpl' & _).
  split.
  - split; [reflexivity|]. split; [reflexivity|]. split; [exact Hpl|].
    split; [|split]; vm_compute; reflexivity.
  - split; [reflexivity|]. split; [reflexivity|]. split; [exact Hpl'|].
    split; [|split]; vm_compute; reflexivity.
Defined.

(** The end of the session returns the gate to unplaced without a reset.
    On the placed page, the anchor at x = 0, the session ends and the viewer
    moves two metres to the right: the run has no reset and leaves the
    anchor where it was, and the pointer-down that follows places the spawn
    root anew, at x = 2, and sets the flag. *)
Lemma C9_counterexample :
  placed Demo.bare = true /\
  Forall (fun e => e <> ResetClick)
    [SessionEnd;
     CameraMoved
       (Object3D.make (Vector3.make 2 0 0) Quaternion.identity true)] /\
  spawnRoot
    (Ref.run Demo.bare
       [SessionEnd;
        CameraMoved
          (Object3D.make (Vector3.make 2 0 0) Quaternion.identity true)])
  = spawnRoot Demo.bare /\
  (Vector3.x (Object3D.position (spawnRoot Demo.bare)) == 0)%Q /\
  (Vector3.x
     (Object3D.position
        (spawnRoot
           (Ref.run Demo.bare
              [SessionEnd;
               CameraMoved
                 (Object3D.make (Vector3.make 2 0 0) Quaternion.identity
                                true);
               PointerDown None])))
   == 2)%Q /\
  ~ @attempts_ignored Ref.platform Demo.bare
      [SessionEnd;
       CameraMoved
         (Object3D.make (Vector3.make 2 0 0) Quaternion.identity true)].
Proof.
  assert (Forall (fun e => e <> ResetClick)
            [SessionEnd;
             CameraMoved
               (Object3D.make (Vector3.make 2 0 0) Quaternion.identity true)])
    as Hes by (repeat constructor; discriminate).
  split_ands; try (vm_compute; reflexivity); [exact Hes|].
  unfold attempts_ignored. intros Hgate.
  destruct (Hgate Hes None) as [_ Hflag].
  vm_compute in Hflag. discriminate.
Qed.

(** The burst on the paused page with ten coins. *)
Lemma C10_witness :
  placed Demo.paused_ten = true /\
  paused Demo.paused_ten = true /\
  pool_ok Demo.paused_ten /\
  JsSet.size (coins (@spawnBurst Ref.platform Demo.paused_ten)) = 20%Z /\
  coins (@onXRFrame Ref.platform Demo.paused_ten 3000 0.016 None)
  = coins Demo.paused_ten.
Proof.
  assert (placed Demo.paused_ten = true) as Hpl by (vm_compute; reflexivity).
  assert (paused Demo.paused_ten = true) as Hpa by (vm_compute; reflexivity).
  assert (pool_ok Demo.paused_ten) as Hok
    by (apply (bool_decide_unpack _); vm_compute; exact I).
  destruct (@C10_burst_ignores_pause Ref.platform Demo.paused_ten Hpl Hpa Hok)
    as [Hburst Hframe].
  destruct (Hframe 3000%Q 0.016%Q None) as (_ & Hcoins & _).
  split; [exact Hpl|]. split; [exact Hpa|]. split; [exact Hok|].
  split; [rewrite Hburst; vm_compute; reflexivity|exact Hcoins].
Defined.

(** * Further properties of the program *)

(** ** What the coin operations leave alone, continued *)

Section Controls.
Context `{Platform}.
Local Open Scope Q_scope.

Lemma tween_controls w tw : controls (tween w tw) = controls w.
Proof. tween_cases. Qed.

Lemma tween_hud w tw :
  (dom_score (tween w tw), dom_alive (tween w tw))
  = (dom_score w, dom_alive w).
Proof. tween_cases. Qed.

Lemma collect_controls w obj : controls (collect w obj) = controls w.
Proof.
  destruct (decide (obj ∈ coins w)) as [Hobj|Hobj].
  - destruct (collect_member w obj Hobj) as (tw & _ & ->).
    exact (tween_controls _ tw).
  - rewrite collect_absent; auto.
Qed.

Lemma spawnOne_controls w : controls (spawnOne w) = controls w.
Proof. spawn_cases w; reflexivity. Qed.

Lemma spawn_iter_controls n w : controls (Nat.iter n spawnOne w) = controls w.
Proof.
  induction n as [|n IH]; simpl; [reflexivity|].
  rewrite spawnOne_controls. exact IH.
Qed.

Lemma spawnBurst_controls w : controls (spawnBurst w) = controls w.
Proof.
  unfold spawnBurst. destruct (placed w); simpl; [|reflexivity].
  exact (spawn_iter_controls _ w).
Qed.

Lemma maybeSpawnCoins_controls w nowMs :
  controls (maybeSpawnCoins w nowMs) = controls w.
Proof.
  rewrite maybeSpawnCoins_unfold.
  destruct (_ <=? _)%Z; [reflexivity|].
  destruct (Qlt_le_dec _ _); [reflexivity|].
  exact (spawnOne_controls _).
Qed.

Lemma updateCoins_controls w dt nowMs :
  controls (updateCoins w dt nowMs) = controls w.
Proof.
  destruct (updateCoins_shape w dt nowMs) as (objs' & _ & _ & ->).
  destruct (length _ =? 0)%nat; reflexivity.
Qed.

Lemma checkProximityCollect_controls w :
  controls (checkProximityCollect w) = controls w.
Proof.
  unfold checkProximityCollect. apply (fold_left_same controls).
  intros; apply collect_controls.
Qed.

Lemma runAnimationFrame_controls w : controls (runAnimationFrame w) = controls w.
Proof.
  unfold runAnimationFrame.
  rewrite (fold_left_same controls tween); [reflexivity|].
  intros; apply tween_controls.
Qed.

Lemma onXRFrame_controls w time delta frame :
  controls (onXRFrame w time delta frame) = controls w.
Proof.
  unfold onXRFrame. destruct (updateReticle_shape w frame) as (r & s & ->).
  set (w1 := set_dom_status s (set_reticle r w)).
  destruct (negb (paused w1) && placed w1); [|reflexivity].
  rewrite checkProximityCollect_controls, updateCoins_controls,
    maybeSpawnCoins_controls. reflexivity.
Qed.

Lemma tween_panel w tw : panel (tween w tw) = panel w.
Proof. tween_cases. Qed.

Lemma collect_panel w obj : panel (collect w obj) = panel w.
Proof.
  destruct (decide (obj ∈ coins w)) as [Hobj|Hobj].
  - destruct (collect_member w obj Hobj) as (tw & _ & ->).
    exact (tween_panel _ tw).
  - rewrite collect_absent; auto.
Qed.

Lemma spawnOne_panel w : panel (spawnOne w) = panel w.
Proof. spawn_cases w; reflexivity. Qed.

Lemma maybeSpawnCoins_panel w nowMs :
  panel (maybeSpawnCoins w nowMs) = panel w.
Proof.
  rewrite maybeSpawnCoins_unfold.
  destruct (_ <=? _)%Z; [reflexivity|].
  destruct (Qlt_le_dec _ _); [reflexivity|].
  exact (spawnOne_panel _).
Qed.

Lemma updateCoins_panel w dt nowMs : panel (updateCoins w dt nowMs) = panel w.
Proof.
  destruct (updateCoins_shape w dt nowMs) as (objs' & _ & _ & ->).
  destruct (length _ =? 0)%nat; reflexivity.
Qed.

(** The events that leave the gate, the pause flag and the buttons alone
    do so; the others set them as the source says. *)
Lemma step_controls w e :
  controls (step w e)
  = match e with
    | PointerDown _ =>
        if placed w then controls w
        else (true, paused w, dom_btnPause w, false)
    | ResetClick => (false, false, "pause"%string, true)
    | PauseClick =>
        (placed w, negb (paused w),
         (if negb (paused w) then "resume" else "pause")%string,
         dom_btnBurst_disabled w)
    | SessionEnd => (false, paused w, dom_btnPause w, true)
    | _ => controls w
    end.
Proof.
  destruct e; cbn [step].
  - apply onXRFrame_controls.
  - unfold onPointerDown. destruct (placed w) eqn:Hpl; simpl.
    + destruct hit; [|reflexivity]. rewrite collect_controls.
      unfold controls. rewrite Hpl. reflexivity.
    + destruct (Object3D.visible (reticle w)); reflexivity.
  - rewrite resetGame_shape. reflexivity.
  - reflexivity.
  - destruct (dom_btnBurst_disabled w); [reflexivity|].
    apply spawnBurst_controls.
  - reflexivity.
  - reflexivity.
  - apply runAnimationFrame_controls.
  - reflexivity.
Qed.

(** *** The buttons *)

Lemma controls_inv (w : World) (a b : bool) (c : string) (d : bool) :
  controls w = (a, b, c, d) ->
  placed w = a /\ paused w = b /\ dom_btnPause w = c /\
  dom_btnBurst_disabled w = d.
Proof. unfold controls. intros Hc. inversion Hc. auto. Qed.

Lemma step_burst_button_ok w e : burst_button_ok w -> burst_button_ok (step w e).
Proof.
  unfold burst_button_ok. intros Hok.
  pose proof (step_controls w e) as Hc.
  destruct e; try destruct (placed w) eqn:Hpl;
    apply controls_inv in Hc; destruct Hc as (-> & _ & _ & ->);
    try rewrite Hpl; first [exact Hok|reflexivity].
Qed.

Lemma step_pause_label_ok w e : pause_label_ok w -> pause_label_ok (step w e).
Proof.
  unfold pause_label_ok. intros Hok.
  pose proof (step_controls w e) as Hc.
  destruct e; try destruct (placed w) eqn:Hpl;
    apply controls_inv in Hc; destruct Hc as (_ & -> & -> & _);
    first [exact Hok|reflexivity].
Qed.

(** X2. On a page whose burst button starts disabled, the button is enabled
    exactly when the spawn point is placed, in every state the page reaches;
    so a click the button delivers never meets the guard of [spawnBurst] and
    always adds min(10, 30 - size) coins. *)
Theorem X2_burst_button_tracks_placement (h : Host) (es : list Event) :
  html_btnBurst_disabled h = true ->
  let w := run (init h) es in
  dom_btnBurst_disabled w = negb (placed w) /\
  (dom_btnBurst_disabled w = false ->
   JsSet.size (coins (step w BurstClick))
   = (JsSet.size (coins w)
      + Z.min 10 (MAX_COINS - JsSet.size (coins w)))%Z).
Proof.
  intros Hh w.
  assert (burst_button_ok w) as Hok.
  { subst w. unfold run. apply (fold_left_keeps burst_button_ok).
    - intros a e. apply step_burst_button_ok.
    - exact Hh. }
  split; [exact Hok|]. intros Hen. cbn [step]. rewrite Hen.
  unfold burst_button_ok in Hok. rewrite Hen in Hok.
  assert (placed w = true) as Hpl by (destruct (placed w); [reflexivity|discriminate]).
  assert (pool_ok w) as [Hwf Hcap].
  { apply reachable_pool_ok. subst w. apply reachable_run, reachable_init. }
  destruct (spawnBurst_placed w Hpl Hwf) as [Hc _].
  unfold JsSet.size. rewrite Hc, length_app, length_seq.
  unfold within_cap, JsSet.size, MAX_COINS in *. lia.
Qed.

(** X3. On a page whose pause button starts out reading "pause", the label
    always names what the next click does: it reads "resume" exactly while
    the game is paused; and two clicks in a row leave the pause flag as it
    was. *)
Theorem X3_pause_label_tracks_flag (h : Host) (es : list Event) :
  html_btnPause h = "pause"%string ->
  let w := run (init h) es in
  dom_btnPause w = (if paused w then "resume" else "pause")%string /\
  paused (step (step w PauseClick) PauseClick) = paused w /\
  dom_btnPause (step (step w PauseClick) PauseClick) = dom_btnPause w.
Proof.
  intros Hh w.
  assert (pause_label_ok w) as Hok.
  { subst w. unfold run. apply (fold_left_keeps pause_label_ok).
    - intros a e. apply step_pause_label_ok.
    - exact Hh. }
  split; [exact Hok|]. unfold pause_label_ok in Hok. cbn [step].
  unfold onPauseClick. simpl. rewrite Hok.
  destruct (paused w); split; reflexivity.
Qed.

End Controls.

(** ** The HUD and the score *)

Section Tally.
Context `{Platform}.
Local Open Scope Q_scope.

Lemma updateHUD_fresh w : hud_fresh (updateHUD w).
Proof. split; reflexivity. Qed.

Lemma tween_hud_fresh w tw : hud_fresh w -> hud_fresh (tween w tw).
Proof.
  unfold hud_fresh. pose proof (tween_hud w tw) as Hh. inversion Hh as [[Hs Ha]].
  rewrite Hs, Ha, tween_score, tween_coins. auto.
Qed.

Lemma collect_hud_fresh w obj : hud_fresh w -> hud_fresh (collect w obj).
Proof.
  intros Hok. destruct (decide (obj ∈ coins w)) as [Hobj|Hobj].
  - destruct (collect_member w obj Hobj) as (tw & _ & ->).
    apply updateHUD_fresh.
  - rewrite collect_absent; auto.
Qed.

Lemma collect_hud_fresh_member w obj :
  obj ∈ coins w -> hud_fresh (collect w obj).
Proof.
  intros Hobj. destruct (collect_member w obj Hobj) as (tw & _ & ->).
  apply updateHUD_fresh.
Qed.

Lemma updateCoins_score w dt nowMs : score (updateCoins w dt nowMs) = score w.
Proof.
  destruct (updateCoins_shape w dt nowMs) as (objs' & _ & _ & ->).
  destruct (length _ =? 0)%nat; reflexivity.
Qed.

Lemma updateCoins_coins w dt nowMs :
  coins (updateCoins w dt nowMs)
  = List.filter (fun c => negb (expired w nowMs c)) (coins w).
Proof.
  destruct (updateCoins_shape w dt nowMs) as (objs' & _ & _ & ->).
  destruct (length _ =? 0)%nat; reflexivity.
Qed.

Lemma updateCoins_hud_fresh w dt nowMs :
  hud_fresh w -> hud_fresh (updateCoins w dt nowMs).
Proof.
  intros [Hs Ha].
  destruct (updateCoins_shape w dt nowMs) as (objs' & _ & _ & ->).
  destruct (length _ =? 0)%nat eqn:Hr; [|apply updateHUD_fresh].
  apply Nat.eqb_eq in Hr. split; simpl; [exact Hs|].
  pose proof (JsSetFacts.filter_split_length (expired w nowMs) (coins w)).
  rewrite Ha. lia.
Qed.

Lemma maybeSpawnCoins_hud_fresh w nowMs :
  hud_fresh w -> hud_fresh (maybeSpawnCoins w nowMs).
Proof.
  intros Hok. rewrite maybeSpawnCoins_unfold.
  destruct (_ <=? _)%Z; [exact Hok|].
  destruct (Qlt_le_dec _ _); [exact Hok|apply updateHUD_fresh].
Qed.

Lemma step_hud_fresh w e : hud_fresh w -> hud_fresh (step w e).
Proof.
  intros Hok. destruct e; cbn [step].
  - unfold onXRFrame. destruct (updateReticle_shape w frame) as (r & s & ->).
    set (w1 := set_dom_status s (set_reticle r w)).
    assert (hud_fresh w1) as Hok1 by exact Hok.
    destruct (negb (paused w1) && placed w1); [|exact Hok1].
    unfold checkProximityCollect. apply (fold_left_keeps hud_fresh).
    { intros a x. apply collect_hud_fresh. }
    apply updateCoins_hud_fresh, maybeSpawnCoins_hud_fresh, Hok1.
  - unfold onPointerDown. destruct (placed w); simpl.
    + destruct hit; [apply collect_hud_fresh|]; exact Hok.
    + destruct (Object3D.visible (reticle w)); exact Hok.
  - rewrite resetGame_shape. apply updateHUD_fresh.
  - exact Hok.
  - destruct (dom_btnBurst_disabled w); [exact Hok|].
    unfold spawnBurst. destruct (placed w); simpl; [|exact Hok].
    apply updateHUD_fresh.
  - exact Hok.
  - exact Hok.
  - unfold runAnimationFrame. apply (fold_left_keeps hud_fresh).
    + intros a x. apply tween_hud_fresh.
    + exact Hok.
  - exact Hok.
Qed.

(** X1. The HUD never goes stale: on a page whose two counters start at 0,
    in every state the page reaches the score shown is the score and the
    count shown is the number of live coins. *)
Theorem X1_hud_never_stale (h : Host) (es : list Event) :
  html_score h = 0%nat ->
  html_alive h = 0%nat ->
  let w := run (init h) es in
  dom_score w = score w /\ dom_alive w = length (coins w).
Proof.
  intros Hs Ha w. subst w. unfold run.
  apply (fold_left_keeps hud_fresh).
  - intros a e. apply step_hud_fresh.
  - split; simpl; assumption.
Qed.

(** *** Accounting *)








Lemma base_xrCamera (w w' : World) :
  base w' = base w -> xrCamera w' = xrCamera w.
Proof. unfold base. intros Hb. inversion Hb. reflexivity. Qed.

(** X5. How each event changes the score.  A reset sets it to 0.  A
    pointer-down adds one point when the gate is placed and the ray hits a
    coin of the pool, and nothing otherwise.  A frame of the running game
    adds one point for each coin that, once the spawner and the expiry have
    run, is in the pool and near the head, and nothing else: neither
    spawning nor expiry scores; a frame of a paused or unplaced game adds
    nothing.  Every other event (pause, burst, the start and the end of a
    session, the callbacks of the effect, a move of the camera) leaves the
    score as it was.  So only a reset lowers the score. *)
Theorem X5_score_by_event (w : World) (e : Event) :
  pool_ok w ->
  score (step w e)
  = match e with
    | ResetClick => 0%nat
    | PointerDown (Some c) =>
        if placed w && JsSet.has (coins w) c then (score w + 1)%nat
        else score w
    | XRFrame time delta frame =>
        if negb (paused w) && placed w then
          let w2 := maybeSpawnCoins (updateReticle w frame) time in
          let w3 := updateCoins w2 (if clock w then delta else 0.016) time in
          (score w
           + length (List.filter
                       (near w3 (Object3D.position (xrCamera w)))
                       (coins w3)))%nat
        else score w
    | _ => score w
    end /\
  (e <> ResetClick -> (score w <= score (step w e))%nat).
Proof.
  intros Hok.
  assert (score (step w e)
          = match e with
            | ResetClick => 0%nat
            | PointerDown (Some c) =>
                if placed w && JsSet.has (coins w) c then (score w + 1)%nat
                else score w
            | XRFrame time delta frame =>
                if negb (paused w) && placed w then
                  let w2 := maybeSpawnCoins (updateReticle w frame) time in
                  let w3 :=
                    updateCoins w2 (if clock w then delta else 0.016) time in
                  (score w
                   + length (List.filter
                               (near w3 (Object3D.position (xrCamera w)))
                               (coins w3)))%nat
                else score w
            | _ => score w
            end) as Heq.
  { destruct e; cbn [step].
    - destruct (updateReticle_shape w frame) as (r & s & Hshape).
      unfold onXRFrame. rewrite Hshape. cbv zeta.
      set (w1 := set_dom_status s (set_reticle r w)).
      change (paused w1) with (paused w). change (placed w1) with (placed w).
      destruct (negb (paused w) && placed w); [|reflexivity].
      set (w3 := updateCoins (maybeSpawnCoins w1 time)
                   (if clock w then delta else 0.016) time).
      assert (pool_ok w3) as Hok3.
      { apply updateCoins_pool_ok, maybeSpawnCoins_pool_ok. exact Hok. }
      assert (xrCamera w3 = xrCamera w) as Hhead.
      { apply (base_xrCamera w1). subst w3.
        rewrite updateCoins_base. apply maybeSpawnCoins_base. }
      rewrite (checkProximityCollect_score w3 (proj1 (proj1 Hok3))), Hhead.
      subst w3. rewrite updateCoins_score, maybeSpawnCoins_score.
      reflexivity.
    - unfold onPointerDown. destruct (placed w); simpl.
      + destruct hit as [c|]; [|reflexivity].
        destruct (JsSet.has (coins w) c) eqn:Hhas.
        * apply collect_score, JsSetFacts.has_true, Hhas.
        * rewrite collect_absent; [reflexivity|].
          apply JsSetFacts.has_false, Hhas.
      + destruct (Object3D.visible (reticle w)), hit; reflexivity.
    - rewrite resetGame_shape. reflexivity.
    - reflexivity.
    - destruct (dom_btnBurst_disabled w); [reflexivity|].
      unfold spawnBurst. destruct (placed w); simpl; [|reflexivity].
      assert (forall n, score (Nat.iter n spawnOne w) = score w) as Hs.
      { induction n as [|n IH]; simpl; [reflexivity|].
        rewrite spawnOne_score. exact IH. }
      apply Hs.
    - reflexivity.
    - reflexivity.
    - unfold runAnimationFrame.
      rewrite (fold_left_same score tween); [reflexivity|].
      intros; apply tween_score.
    - reflexivity. }
  split; [exact Heq|].
  intros He. rewrite Heq. destruct e as [time delta frame|[c|]| | | | | | |];
    try lia; [| |contradiction].
  - destruct (negb (paused w) && placed w); cbv zeta; lia.
  - destruct (placed w && JsSet.has (coins w) c); lia.
Qed.

End Tally.

(** ** The scene and the effects in flight *)

Section Scene.
Context `{Platform}.
Local Open Scope Q_scope.

(** A call of [tween] either queues itself again or takes its mesh off the
    scene. *)
Lemma tween_stage w tw :
  (scene (tween w tw) = scene w /\
   rafQueue (tween w tw) = rafQueue w ++ [tw]) \/
  (scene (tween w tw) = Children.remove (scene w) (Tween.obj tw) /\
   rafQueue (tween w tw) = rafQueue w).
Proof.
  unfold tween, performance_now.
  destruct (objects _ !! _); destruct (Qlt_le_dec _ _);
    [left|right|left|right]; split; reflexivity.
Qed.

Lemma staged_same q w w' :
  coins w' = coins w -> scene w' = scene w ->
  length (objects w') = length (objects w) ->
  staged q w -> staged q w'.
Proof.
  intros Hc Hs Hl (Hwf & Hon & Hq & Hsc). unfold staged, pool_wf in *.
  rewrite Hc, Hs, Hl. auto.
Qed.

Lemma tween_staged p w tw :
  staged (rafQueue w ++ tw :: p) w ->
  staged (rafQueue (tween w tw) ++ p) (tween w tw).
Proof.
  intros Hst.
  destruct (tween_stage w tw) as [[Hs Hq]|[Hs Hq]]; rewrite Hq.
  - rewrite <- app_assoc. simpl.
    apply (staged_same _ w);
      [apply tween_coins|exact Hs|apply tween_objects_length|exact Hst].
  - destruct Hst as (Hwf & Hon & Hheld & Hsc).
    assert (Tween.obj tw ∉ coins w) as Hout.
    { apply (Hheld tw). apply elem_of_app. right. left. }
    unfold staged, pool_wf.
    rewrite tween_coins, tween_objects_length, Hs. split_ands.
    + apply Hwf.
    + apply Hwf.
    + intros c Hc. apply JsSetFacts.elem_of_delete. split; [auto|].
      intros ->. contradiction.
    + intros tw' Htw'. apply Hheld.
      apply elem_of_app in Htw'. apply elem_of_app.
      destruct Htw'; [left|right; right]; assumption.
    + intros c Hc. apply JsSetFacts.elem_of_delete in Hc.
      destruct Hc as [Hc Hne].
      destruct (Hsc c Hc) as [Hlive|(tw' & Htw' & Hobj)]; [left; exact Hlive|].
      right. exists tw'. split; [|exact Hobj].
      apply elem_of_app in Htw'. apply elem_of_app.
      destruct Htw' as [Htw'|Htw']; [left; exact Htw'|].
      apply elem_of_cons in Htw'. destruct Htw' as [->|Htw'];
        [congruence|right; exact Htw'].
Qed.

Lemma tween_loop_staged p : forall w,
  staged (rafQueue w ++ p) w ->
  staged (rafQueue (fold_left tween p w)) (fold_left tween p w).
Proof.
  induction p as [|tw p IH]; intros w Hst; simpl.
  - rewrite app_nil_r in Hst. exact Hst.
  - apply IH, tween_staged, Hst.
Qed.

Lemma collect_staged w obj :
  staged (rafQueue w) w ->
  staged (rafQueue (collect w obj)) (collect w obj).
Proof.
  intros Hst. destruct (decide (obj ∈ coins w)) as [Hobj|Hobj];
    [|rewrite collect_absent; auto].
  destruct (collect_member w obj Hobj) as (tw & Htw & ->).
  set (w1 := set_perf_reads (S (perf_reads w))
               (set_coins (JsSet.delete (coins w) obj) w)).
  assert (staged (rafQueue w1 ++ [tw]) w1) as Hst1.
  { destruct Hst as ((Hnd & Hall) & Hon & Hheld & Hsc).
    rewrite Forall_forall in Hall. unfold staged, pool_wf. simpl. split_ands.
    - apply JsSetFacts.NoDup_delete, Hnd.
    - rewrite Forall_forall. intros c Hc.
      apply JsSetFacts.elem_of_delete in Hc. apply Hall, Hc.
    - intros c Hc. apply JsSetFacts.elem_of_delete in Hc. apply Hon, Hc.
    - intros tw' Htw'. apply elem_of_app in Htw'.
      destruct Htw' as [Htw'|Htw'].
      + destruct (Hheld tw' Htw') as [Hout Hlt]. split; [|exact Hlt].
        rewrite JsSetFacts.elem_of_delete. tauto.
      + apply list_elem_of_singleton in Htw'. subst tw'. rewrite Htw. split.
        * apply JsSetFacts.delete_not_elem.
        * apply Hall, Hobj.
    - intros c Hc. destruct (decide (c = obj)) as [->|Hne].
      + right. exists tw. split; [|exact Htw].
        apply elem_of_app. right. left.
      + destruct (Hsc c Hc) as [Hlive|(tw' & Htw' & Hc')].
        * left. apply JsSetFacts.elem_of_delete. auto.
        * right. exists tw'. split; [|exact Hc'].
          apply elem_of_app. left. exact Htw'. }
  apply (tween_staged [] w1 tw) in Hst1. rewrite app_nil_r in Hst1.
  exact Hst1.
Qed.

Lemma spawnOne_scene w :
  scene (spawnOne w) = Children.add (scene w) (length (objects w)).
Proof. spawn_cases w; reflexivity. Qed.

Lemma spawnOne_staged w :
  staged (rafQueue w) w -> staged (rafQueue (spawnOne w)) (spawnOne w).
Proof.
  intros (Hwf & Hon & Hheld & Hsc).
  split; [apply spawnOne_pool_wf, Hwf|].
  rewrite spawnOne_rafQueue, spawnOne_scene, (spawnOne_fresh w Hwf),
    spawnOne_objects_length.
  destruct Hwf as [_ Hall]. rewrite Forall_forall in Hall.
  unfold Children.add, Children.remove. split_ands.
  - intros c Hc. apply elem_of_app in Hc. apply elem_of_app.
    destruct Hc as [Hc|Hc]; [left|right; exact Hc].
    apply JsSetFacts.elem_of_delete. split; [auto|].
    intros ->. apply Hall in Hc. lia.
  - intros tw Htw. destruct (Hheld tw Htw) as [Hout Hlt]. split; [|lia].
    intros Hin. apply elem_of_app in Hin. destruct Hin as [Hin|Hin];
      [contradiction|].
    apply list_elem_of_singleton in Hin. lia.
  - intros c Hc. apply elem_of_app in Hc. destruct Hc as [Hc|Hc].
    + apply JsSetFacts.elem_of_delete in Hc. destruct Hc as [Hc _].
      destruct (Hsc c Hc) as [Hlive|Hh]; [left|right; exact Hh].
      apply elem_of_app. left. exact Hlive.
    + left. apply elem_of_app. right. exact Hc.
Qed.

Lemma spawn_iter_staged n w :
  staged (rafQueue w) w ->
  staged (rafQueue (Nat.iter n spawnOne w)) (Nat.iter n spawnOne w).
Proof.
  intros Hst. induction n as [|n IH]; simpl; [exact Hst|].
  apply spawnOne_staged, IH.
Qed.

(** Eviction of a batch [r] taken from the pool. *)
Lemma evicted_staged (f : nat -> bool) q w w' :
  coins w' = List.filter (fun c => negb (f c)) (coins w) ->
  scene w' = fold_left Children.remove (List.filter f (coins w)) (scene w) ->
  length (objects w') = length (objects w) ->
  staged q w -> staged q w'.
Proof.
  intros Hc Hs Hl ((Hnd & Hall) & Hon & Hheld & Hsc).
  rewrite Forall_forall in Hall.
  assert (forall c, c ∈ scene w' <->
                    c ∈ scene w /\ ~ (c ∈ coins w /\ f c = true)) as Hscene.
  { intros c. rewrite Hs. change Children.remove with JsSet.delete.
    rewrite JsSetFacts.fold_delete, JsSetFacts.elem_of_filter, negb_true_iff,
      JsSetFacts.has_false, JsSetFacts.elem_of_filter. tauto. }
  assert (forall c, c ∈ coins w' <-> c ∈ coins w /\ f c = false) as Hpool.
  { intros c. rewrite Hc, JsSetFacts.elem_of_filter, negb_true_iff. tauto. }
  unfold staged, pool_wf. rewrite Hl. split_ands.
  - rewrite Hc. apply JsSetFacts.NoDup_filter, Hnd.
  - rewrite Forall_forall. intros c Hin. apply Hpool in Hin. apply Hall, Hin.
  - intros c Hin. apply Hpool in Hin. apply Hscene. split; [apply Hon, Hin|].
    intros [_ Hf]. destruct Hin. congruence.
  - intros tw Htw. destruct (Hheld tw Htw) as [Hout Hlt]. split; [|exact Hlt].
    rewrite Hpool. tauto.
  - intros c Hin. apply Hscene in Hin. destruct Hin as [Hin Hkeep].
    destruct (Hsc c Hin) as [Hlive|Hh]; [left|right; exact Hh].
    apply Hpool. split; [exact Hlive|].
    destruct (f c) eqn:Hf; [exfalso; apply Hkeep; auto|reflexivity].
Qed.

Lemma updateCoins_staged w dt nowMs :
  staged (rafQueue w) w ->
  staged (rafQueue (updateCoins w dt nowMs)) (updateCoins w dt nowMs).
Proof.
  destruct (updateCoins_shape w dt nowMs) as (objs' & _ & Hlen & ->).
  intros Hst.
  apply (evicted_staged (expired w nowMs) _ w);
    destruct (length _ =? 0)%nat; simpl; auto.
Qed.

Lemma step_staged w e :
  staged (rafQueue w) w -> staged (rafQueue (step w e)) (step w e).
Proof.
  intros Hst. destruct e; cbn [step].
  - unfold onXRFrame. destruct (updateReticle_shape w frame) as (r & s & ->).
    set (w1 := set_dom_status s (set_reticle r w)).
    assert (staged (rafQueue w1) w1) as Hst1 by exact Hst.
    destruct (negb (paused w1) && placed w1); [|exact Hst1].
    unfold checkProximityCollect.
    apply (fold_left_keeps (fun a => staged (rafQueue a) a)).
    { intros a x. apply collect_staged. }
    apply updateCoins_staged. rewrite maybeSpawnCoins_unfold.
    destruct (_ <=? _)%Z; [exact Hst1|].
    destruct (Qlt_le_dec _ _); [exact Hst1|].
    exact (spawnOne_staged
             (set_lastSpawnAt time (set_rnd_draws (S (rnd_draws w1)) w1)) Hst1).
  - unfold onPointerDown. destruct (placed w); simpl.
    + destruct hit; [apply collect_staged|]; exact Hst.
    + destruct (Object3D.visible (reticle w)); exact Hst.
  - rewrite resetGame_shape.
    apply (evicted_staged (fun _ => true) _ w); simpl; auto.
    + induction (coins w) as [|c l IH]; [reflexivity|exact IH].
    + f_equal. induction (coins w) as [|c l IH]; [reflexivity|].
      simpl. f_equal. exact IH.
  - exact Hst.
  - destruct (dom_btnBurst_disabled w); [exact Hst|].
    unfold spawnBurst. destruct (placed w); simpl; [|exact Hst].
    exact (spawn_iter_staged _ w Hst).
  - exact Hst.
  - exact Hst.
  - unfold runAnimationFrame. apply tween_loop_staged. exact Hst.
  - exact Hst.
Qed.

(** X6. The scene holds the live coins and the coins being animated, and
    nothing else: in every reachable state each live coin is on the scene,
    each mesh on the scene is either live or the subject of a queued effect
    callback, and no queued callback animates a live coin (the effect has
    the mesh to itself). *)
Theorem X6_scene_accounts_for_coins (w : World) :
  reachable w ->
  (forall c, c ∈ coins w -> c ∈ scene w) /\
  (forall c, c ∈ scene w ->
     c ∈ coins w \/ exists tw, tw ∈ rafQueue w /\ Tween.obj tw = c) /\
  (forall tw, tw ∈ rafQueue w -> Tween.obj tw ∉ coins w).
Proof.
  intros Hr.
  assert (staged (rafQueue w) w) as (_ & Hon & Hheld & Hsc).
  { induction Hr as [h|w e _ IH]; [|apply step_staged, IH].
    unfold staged, pool_wf. simpl. split_ands.
    - apply NoDup_nil. exact I.
    - apply Forall_nil. exact I.
    - intros c Hc. inversion Hc.
    - intros tw Htw. inversion Htw.
    - intros c Hc. inversion Hc. }
  split; [exact Hon|]. split; [exact Hsc|].
  intros tw Htw. apply (Hheld tw Htw).
Qed.

End Scene.

(** ** The course of a collection effect *)

Section Effect.
Context `{Platform}.
Local Open Scope Q_scope.

Lemma Qmin_one_over (x : Q) : 1 <= x -> Qmin 1 x = 1.
Proof.
  intros Hx. unfold Qmin, GenericMinMax.gmin.
  destruct (1 ?= x) eqn:Hc; try reflexivity.
  apply Qgt_alt in Hc. exfalso. apply (Qlt_not_le _ _ Hc Hx).
Qed.

Lemma Qmin_one_under (x : Q) : x < 1 -> Qmin 1 x = x.
Proof.
  intros Hx. unfold Qmin, GenericMinMax.gmin.
  apply Qgt_alt in Hx. rewrite Hx. reflexivity.
Qed.

(** X7. The course of the effect.  A call of [tween] made less than 180 ms
    after the capture queues the callback again and leaves the mesh on the
    scene.  A call made 180 ms or more after the capture is the last one:
    nothing is queued, the mesh is taken off the scene, its scale is 2.2
    times the scale it had when captured, and its material has opacity 0. *)
Theorem X7_effect_course (w : World) (tw : Tween.t) :
  let elapsed := perf w (perf_reads w) - Tween.start tw in
  let w' := tween w tw in
  (elapsed < 180 ->
   rafQueue w' = rafQueue w ++ [tw] /\ scene w' = scene w) /\
  (180 <= elapsed ->
   rafQueue w' = rafQueue w /\
   scene w' = Children.remove (scene w) (Tween.obj tw) /\
   (forall o, objects w !! Tween.obj tw = Some o ->
      exists o',
        objects w' !! Tween.obj tw = Some o' /\
        Vector3.x (Mesh.scale o') == 2.2 * Tween.startScale tw /\
        Vector3.y (Mesh.scale o') == 2.2 * Tween.startScale tw /\
        Vector3.z (Mesh.scale o') == 2.2 * Tween.startScale tw) /\
   (forall o mat,
      objects w !! Tween.obj tw = Some o ->
      materials w !! Mesh.material o = Some mat ->
      exists mat',
        materials w' !! Mesh.material o = Some mat' /\
        Material.opacity mat' == 0 /\ Material.transparent mat' = true)).
Proof.
  intros elapsed w'. split.
  - intros Hearly.
    assert (Qmin 1 (elapsed / Tween.dur) = elapsed / Tween.dur) as Ht.
    { apply Qmin_one_under. unfold Tween.dur.
      apply Qlt_shift_div_r; [reflexivity|]. lra. }
    assert (elapsed / Tween.dur < 1) as Hlt.
    { unfold Tween.dur. apply Qlt_shift_div_r; [reflexivity|]. lra. }
    subst w'. unfold tween, performance_now. fold elapsed. rewrite Ht.
    destruct (objects _ !! _); destruct (Qlt_le_dec _ _) as [_|Hle];
      try (split; reflexivity);
      exfalso; apply (Qlt_not_le _ _ Hlt Hle).
  - intros Hlate.
    assert (Qmin 1 (elapsed / Tween.dur) = 1) as Ht.
    { apply Qmin_one_over. unfold Tween.dur.
      apply Qle_shift_div_l; [reflexivity|]. lra. }
    assert (rafQueue w' = rafQueue w /\
            scene w' = Children.remove (scene w) (Tween.obj tw)) as [Hq Hs].
    { subst w'. unfold tween, performance_now. fold elapsed. rewrite Ht.
      destruct (objects _ !! _); destruct (Qlt_le_dec _ _) as [Hlt|_];
        try (split; reflexivity);
        exfalso; apply (Qlt_irrefl 1 Hlt). }
    split; [exact Hq|]. split; [exact Hs|]. split.
    + intros o Ho. subst w'. rewrite tween_objects. fold elapsed. rewrite Ht.
      rewrite list_lookup_alter_eq, Ho. simpl. eexists. split; [reflexivity|].
      simpl. split_ands; ring.
    + intros o mat Ho Hmat. subst w'.
      destruct (tween_materials w tw) as (f & Htr & Hop & _ & Hm).
      rewrite Hm, Ho, list_lookup_alter_eq, Hmat. simpl.
      eexists. split; [reflexivity|]. split; [|apply Htr].
      rewrite Hop. fold elapsed. rewrite Ht. ring.
Qed.

End Effect.

(** ** What a mesh is made with *)

Section Minting.
Context `{Platform}.
Local Open Scope Q_scope.

Lemma grown_same w w' :
  rnd w' = rnd w ->
  params <$> objects w' = params <$> objects w ->
  grown w w'.
Proof.
  intros Hr Hp. split; [exact Hr|]. exists []. rewrite app_nil_r.
  split; [exact Hp|apply Forall_nil; exact I].
Qed.

Lemma grown_refl w : grown w w.
Proof. apply grown_same; reflexivity. Qed.

Lemma grown_trans w1 w2 w3 : grown w1 w2 -> grown w2 w3 -> grown w1 w3.
Proof.
  intros [Hr1 (e1 & Hp1 & He1)] [Hr2 (e2 & Hp2 & He2)].
  split; [congruence|]. exists (e1 ++ e2).
  rewrite Hp2, Hp1, app_assoc. split; [reflexivity|].
  apply Forall_app. split; [exact He1|]. rewrite <- Hr1. exact He2.
Qed.

Lemma base_rnd (w w' : World) : base w' = base w -> rnd w' = rnd w.
Proof. unfold base. intros Hb. inversion Hb. reflexivity. Qed.

Lemma body_params (l l' : list Mesh.t) :
  body <$> l' = body <$> l -> params <$> l' = params <$> l.
Proof.
  intros Hb.
  apply (f_equal (fmap (fun b : Vector3.t * Vector3.t * nat * UserData.t =>
                          (b.1.2, b.2)))) in Hb.
  rewrite <- !list_fmap_compose in Hb. exact Hb.
Qed.

Lemma look_params (l l' : list Mesh.t) :
  look <$> l' = look <$> l -> params <$> l' = params <$> l.
Proof.
  intros Hb.
  apply (f_equal (fmap (fun b : Vector3.t * nat * UserData.t =>
                          (b.1.2, b.2)))) in Hb.
  rewrite <- !list_fmap_compose in Hb. exact Hb.
Qed.

Lemma tween_grown w tw : grown w (tween w tw).
Proof.
  apply grown_same; [apply base_rnd, tween_base|].
  apply body_params, tween_bodies.
Qed.

Lemma collect_grown w obj : grown w (collect w obj).
Proof.
  apply grown_same; [apply base_rnd, collect_base|].
  apply body_params, collect_bodies.
Qed.

Lemma updateCoins_grown w dt nowMs : grown w (updateCoins w dt nowMs).
Proof.
  apply grown_same; [apply base_rnd, updateCoins_base|].
  destruct (updateCoins_shape w dt nowMs) as (objs' & Hlook & _ & ->).
  apply look_params in Hlook.
  destruct (length _ =? 0)%nat; exact Hlook.
Qed.

Lemma spawnOne_grown w : grown w (spawnOne w).
Proof.
  split; [apply base_rnd, spawnOne_base|].
  unfold spawnOne, makeCoin, getSharedCoinMat, positionCoinAroundRoot,
    performance_now, Math_random, update_mesh.
  destruct (_coinMat w) as [m|]; simpl;
    (rewrite (fmap_alter_same params) by reflexivity);
    rewrite fmap_app; simpl;
    (eexists; split; [reflexivity|]);
    apply Forall_singleton; eexists _, (rnd_draws w); reflexivity.
Qed.

Lemma loop_grown {A} (f : World -> A -> World) (l : list A) :
  (forall w x, grown w (f w x)) -> forall w, grown w (fold_left f l w).
Proof.
  intros Hf. induction l as [|x l IH]; intros w; simpl; [apply grown_refl|].
  apply (grown_trans _ (f w x)); [apply Hf|apply IH].
Qed.

Lemma spawn_iter_grown n w : grown w (Nat.iter n spawnOne w).
Proof.
  induction n as [|n IH]; simpl; [apply grown_refl|].
  apply (grown_trans _ _ _ IH), spawnOne_grown.
Qed.

Lemma maybeSpawnCoins_grown w nowMs : grown w (maybeSpawnCoins w nowMs).
Proof.
  rewrite maybeSpawnCoins_unfold.
  destruct (_ <=? _)%Z; [apply grown_refl|].
  destruct (Qlt_le_dec _ _); [apply grown_same; reflexivity|].
  apply (grown_trans _
           (set_lastSpawnAt nowMs (set_rnd_draws (S (rnd_draws w)) w)));
    [apply grown_same; reflexivity|].
  eapply grown_trans; [apply spawnOne_grown|].
  apply grown_same; reflexivity.
Qed.

Lemma step_grown w e : grown w (step w e).
Proof.
  destruct e; cbn [step].
  - unfold onXRFrame. destruct (updateReticle_shape w frame) as (r & s & ->).
    set (w1 := set_dom_status s (set_reticle r w)).
    assert (grown w w1) as Hw1 by (apply grown_same; reflexivity).
    destruct (negb (paused w1) && placed w1); [|exact Hw1].
    apply (grown_trans _ _ _ Hw1).
    apply (grown_trans _ (maybeSpawnCoins w1 time));
      [apply maybeSpawnCoins_grown|].
    unfold checkProximityCollect.
    eapply grown_trans; [apply updateCoins_grown|].
    apply loop_grown. apply collect_grown.
  - unfold onPointerDown. destruct (placed w); simpl.
    + destruct hit; [apply collect_grown|apply grown_refl].
    + destruct (Object3D.visible (reticle w)); apply grown_same; reflexivity.
  - rewrite resetGame_shape. apply grown_same; reflexivity.
  - apply grown_same; reflexivity.
  - destruct (dom_btnBurst_disabled w); [apply grown_refl|].
    unfold spawnBurst. destruct (placed w); simpl; [|apply grown_refl].
    eapply grown_trans; [apply spawn_iter_grown|].
    apply grown_same; reflexivity.
  - apply grown_same; reflexivity.
  - apply grown_same; reflexivity.
  - unfold runAnimationFrame.
    apply (grown_trans _ (set_rafQueue [] w));
      [apply grown_same; reflexivity|].
    apply loop_grown. apply tween_grown.
  - apply grown_same; reflexivity.
Qed.

Lemma run_grown es : forall w, grown w (run w es).
Proof.
  induction es as [|e es IH]; intros w; simpl; [apply grown_refl|].
  apply (grown_trans _ (step w e)); [apply step_grown|apply IH].
Qed.

(** X8. A mesh is never lost and never made over: whatever events follow,
    a handle that names a mesh keeps naming a mesh with the same material
    reference and the same user data (creation time, spin, bob amplitude,
    phase). *)
Theorem X8_mesh_parameters_are_fixed (w : World) (es : list Event)
    (c : nat) (o : Mesh.t) :
  objects w !! c = Some o ->
  exists o',
    objects (run w es) !! c = Some o' /\
    Mesh.userData o' = Mesh.userData o /\
    Mesh.material o' = Mesh.material o.
Proof.
  intros Ho. destruct (run_grown es w) as [_ (extra & Hp & _)].
  assert ((params <$> objects (run w es)) !! c = Some (params o)) as Hc.
  { rewrite Hp. apply lookup_app_l_Some. rewrite list_lookup_fmap, Ho.
    reflexivity. }
  rewrite list_lookup_fmap in Hc.
  destruct (objects (run w es) !! c) as [o'|]; [|discriminate].
  exists o'. split; [reflexivity|]. simpl in Hc. inversion Hc. auto.
Qed.

Lemma minted_in_range (rnd : nat -> Q) (p : nat * UserData.t) :
  (forall n, 0 <= rnd n < 1) -> minted rnd p -> in_range p.2.
Proof.
  intros Hr (now & d & ->).
  pose proof (Hr d) as H1. pose proof (Hr (S (S d))) as H3.
  unfold in_range. simpl. split; [reflexivity|]. split; [|lra].
  destruct (Qlt_le_dec _ _); [right|left]; lra.
Qed.

(** X9. With draws in [0, 1), every coin ever made spins at a rate between
    1.2 and 2.4 in absolute value, one way or the other, and bobs with an
    amplitude between 0.06 and 0.12, the bounds included, for as long as
    the page runs. *)
Theorem X9_coin_parameters_in_range (h : Host) (es : list Event) :
  (forall n, 0 <= host_random h n < 1) ->
  Forall (fun o => in_range (Mesh.userData o)) (objects (run (init h) es)).
Proof.
  intros Hr. destruct (run_grown es (init h)) as [_ (extra & Hp & Hmint)].
  simpl in Hp.
  assert (Forall (fun p : nat * UserData.t => in_range p.2)
                 (params <$> objects (run (init h) es))) as Hall.
  { rewrite Hp. eapply Forall_impl; [exact Hmint|].
    intros p Hm. apply (minted_in_range (host_random h)); assumption. }
  rewrite Forall_fmap in Hall. exact Hall.
Qed.

End Minting.

(** ** The reticle and the placement on a surface *)

Section Placement.
Context `{Platform}.
Local Open Scope Q_scope.

Lemma base_reticle (w w' : World) : base w' = base w -> reticle w' = reticle w.
Proof. unfold base. intros Hb. inversion Hb. reflexivity. Qed.

(** X10. The reticle after a frame.  It is visible exactly when a hit-test
    source exists, the callback got an XR frame and the first hit-test
    result has a pose, and then it sits at that pose; with no session, no
    frame, no hit or a hit without pose it is hidden where it was.  While
    the gate is unplaced the status line says which of the two holds; once
    placed a frame leaves the status line alone. *)
Theorem X10_reticle_follows_first_hit (w : World) (time delta : Q)
    (frame : option (list (option Pose))) :
  let w' := onXRFrame w time delta frame in
  reticle w'
  = match (if hitTestSource w then first_pose frame else None) with
    | Some pose =>
        Object3D.make (pose_position pose) (pose_quaternion pose) true
    | None =>
        Object3D.make (Object3D.position (reticle w))
                      (Object3D.quaternion (reticle w)) false
    end /\
  (Object3D.visible (reticle w') = true <->
   hitTestSource w = true /\ exists pose, first_pose frame = Some pose) /\
  dom_status w'
  = (if hitTestSource w && negb (placed w) then
       match frame with
       | Some _ =>
           if Object3D.visible (reticle w')
           then "tap to place spawn point."
           else "move your phone to help it find a surface…"
       | None => dom_status w
       end
     else dom_status w)%string.
Proof.
  intros w'.
  assert (reticle w' = reticle (updateReticle w frame) /\
          dom_status w' = dom_status (updateReticle w frame)) as [Hr Hs].
  { subst w'. unfold onXRFrame.
    destruct (negb (paused (updateReticle w frame))
              && placed (updateReticle w frame)); [|split; reflexivity].
    set (w1 := updateReticle w frame).
    set (w2 := maybeSpawnCoins w1 time).
    set (w3 := updateCoins w2 _ time).
    assert (base (checkProximityCollect w3) = base w1) as Hb.
    { unfold checkProximityCollect.
      rewrite collect_loop_base. subst w3 w2.
      rewrite updateCoins_base, maybeSpawnCoins_base. reflexivity. }
    assert (panel (checkProximityCollect w3) = panel w1) as Hp.
    { unfold checkProximityCollect.
      rewrite (fold_left_same panel collect) by (intros; apply collect_panel).
      subst w3 w2. rewrite updateCoins_panel, maybeSpawnCoins_panel.
      reflexivity. }
    split; [exact (base_reticle _ _ Hb)|exact Hp]. }
  rewrite Hr, Hs. unfold updateReticle, first_pose.
  destruct (hitTestSource w); simpl.
  - destruct frame as [[|[pose|] hits]|]; simpl;
      destruct (placed w); simpl; split_ands; try reflexivity;
      split; try discriminate; try (intros [_ [p [=]]]); eauto.
  - split_ands; try reflexivity. split; [discriminate|]. intros [[=] _].
Qed.

Lemma onXRFrame_unplaced w :
  placed w = false ->
  forall time delta frame,
    onXRFrame w time delta frame = updateReticle w frame.
Proof.
  intros Hpl time delta frame. unfold onXRFrame.
  destruct (updateReticle_shape w frame) as (r & s & ->).
  simpl. rewrite Hpl, andb_false_r. reflexivity.
Qed.

(** X11. Placement on a surface.  In a session, while unplaced, a frame whose
    first hit-test result has a pose followed by a pointer-down puts the
    spawn root at that pose, position and orientation, sets the gate to
    placed and enables the burst button; the pool and the score are not
    touched. *)
Theorem X11_surface_placement (w : World) (time delta : Q) (pose : Pose)
    (hits : list (option Pose)) (hit : option nat) :
  hitTestSource w = true ->
  placed w = false ->
  let w' :=
    onPointerDown (onXRFrame w time delta (Some (Some pose :: hits))) hit in
  placed w' = true /\
  Object3D.position (spawnRoot w') = pose_position pose /\
  Object3D.quaternion (spawnRoot w') = pose_quaternion pose /\
  dom_btnBurst_disabled w' = false /\
  coins w' = coins w /\ objects w' = objects w /\ score w' = score w.
Proof.
  intros Hsrc Hpl w'. subst w'.
  rewrite (onXRFrame_unplaced w Hpl).
  destruct w. simpl in Hsrc, Hpl. subst.
  unfold updateReticle, onPointerDown. cbn. split_ands; reflexivity.
Qed.

(** X12. Nothing is spawned while the gate is unplaced: a frame only
    refreshes the reticle, a burst is ignored, and no event creates a mesh
    or adds a coin to the pool. *)
Theorem X12_unplaced_spawns_nothing (w : World) (e : Event) :
  placed w = false ->
  (forall time delta frame,
     onXRFrame w time delta frame = updateReticle w frame) /\
  spawnBurst w = w /\
  length (objects (step w e)) = length (objects w) /\
  (forall c, c ∈ coins (step w e) -> c ∈ coins w).
Proof.
  intros Hpl.
  pose proof (onXRFrame_unplaced w Hpl) as Hframe.
  assert (spawnBurst w = w) as Hburst.
  { unfold spawnBurst. rewrite Hpl. reflexivity. }
  split; [exact Hframe|]. split; [exact Hburst|].
  destruct e; cbn [step].
  - rewrite Hframe. destruct (updateReticle_shape w frame) as (r & s & ->).
    split; [reflexivity|auto].
  - unfold onPointerDown. rewrite Hpl. simpl.
    destruct (Object3D.visible (reticle w)); split; auto.
  - rewrite resetGame_shape. split; [reflexivity|]. simpl.
    intros c Hc. inversion Hc.
  - split; auto.
  - destruct (dom_btnBurst_disabled w); rewrite ?Hburst; split; auto.
  - split; auto.
  - split; auto.
  - rewrite runAnimationFrame_objects_length, runAnimationFrame_coins.
    split; auto.
  - split; auto.
Qed.

End Placement.

(** ** A frame of the game *)

Section Frame.
Context `{Platform}.
Local Open Scope Q_scope.

(** The first loop of [updateCoins] applies the idle motion to the mesh of
    each coin of the pool, in pool order. *)
Lemma updateCoins_first_loop_objects w dt nowMs l : forall objs acc,
  objects (fold_left (updateCoins_visit dt nowMs) l (set_objects objs w, acc)).1
  = fold_left (fun objs c => alter (idleMotion w dt (nowMs * 0.001)) c objs)
              l objs.
Proof.
  induction l as [|c l IH]; intros objs acc; simpl; [reflexivity|].
  unfold updateCoins_visit at 2. simpl.
  change (update_mesh c (idleMotion (set_objects objs w) dt (nowMs * 0.001))
            (set_objects objs w))
    with (set_objects (alter (idleMotion w dt (nowMs * 0.001)) c objs) w).
  apply IH.
Qed.

Lemma updateCoins_objects w dt nowMs :
  objects (updateCoins w dt nowMs)
  = fold_left (fun objs c => alter (idleMotion w dt (nowMs * 0.001)) c objs)
              (coins w) (objects w).
Proof.
  rewrite <- (updateCoins_first_loop_objects w dt nowMs (coins w) (objects w) []).
  replace (set_objects (objects w) w) with w by (destruct w; reflexivity).
  unfold updateCoins. rewrite evict_loop.
  destruct (length _ =? 0)%nat; reflexivity.
Qed.

Lemma alter_loop_lookup {A} (f : A -> A) (l : list nat) :
  NoDup l ->
  forall (objs : list A) (c : nat),
    fold_left (fun objs c => alter f c objs) l objs !! c
    = if bool_decide (c ∈ l) then f <$> objs !! c else objs !! c.
Proof.
  induction l as [|x l IH]; intros Hnd objs c; simpl; [reflexivity|].
  apply NoDup_cons in Hnd. destruct Hnd as [Hx Hnd].
  rewrite (IH Hnd). destruct (decide (c = x)) as [->|Hne].
  - rewrite (bool_decide_eq_false_2 _ Hx).
    rewrite bool_decide_eq_true_2 by left.
    apply list_lookup_alter_eq.
  - rewrite list_lookup_alter_ne by (intros ->; contradiction).
    apply (f_equal (fun b : bool => if b then f <$> objs !! c else objs !! c)).
    apply bool_decide_ext. rewrite elem_of_cons. tauto.
Qed.

(** X13. The idle motion.  [updateCoins] moves the mesh of each coin of the
    pool once: the height becomes the anchor's height plus 0.02 plus
    [sin(nowMs / 1000 + phase) * bobAmp], whatever it was before, the
    rotation about y advances by [spin * dt], and nothing else of the mesh
    changes; a mesh that is not in the pool is not touched. *)
Theorem X13_idle_motion (w : World) (dt nowMs : Q) (c : nat) (o : Mesh.t) :
  NoDup (coins w) ->
  objects w !! c = Some o ->
  let w' := updateCoins w dt nowMs in
  let ud := Mesh.userData o in
  (c ∈ coins w ->
   exists o',
     objects w' !! c = Some o' /\
     Mesh.position o'
     = Vector3.make
         (Vector3.x (Mesh.position o))
         (Vector3.y (Object3D.position (spawnRoot w)) + 0.02
          + Math_sin (nowMs * 0.001 + UserData.phase ud) * UserData.bobAmp ud)
         (Vector3.z (Mesh.position o)) /\
     Mesh.rotation o'
     = Vector3.make
         (Vector3.x (Mesh.rotation o))
         (Vector3.y (Mesh.rotation o) + UserData.spin ud * dt)
         (Vector3.z (Mesh.rotation o)) /\
     Mesh.scale o' = Mesh.scale o /\
     Mesh.material o' = Mesh.material o /\
     Mesh.userData o' = Mesh.userData o) /\
  (c ∉ coins w -> objects w' !! c = Some o).
Proof.
  intros Hnd Ho w' ud. subst w'.
  rewrite updateCoins_objects, (alter_loop_lookup _ _ Hnd), Ho. split.
  - intros Hc. rewrite bool_decide_eq_true_2 by exact Hc. simpl.
    eexists. split; [reflexivity|]. split_ands; reflexivity.
  - intros Hc. rewrite bool_decide_eq_false_2 by exact Hc. reflexivity.
Qed.

(** X14. A full pool.  With thirty coins in the pool the spawner does
    nothing at all: it makes no draw and leaves the timer alone, so the
    state is returned as it was; a burst creates no mesh; and a whole frame
    creates none. *)
Theorem X14_full_pool (w : World) :
  (MAX_COINS <= JsSet.size (coins w))%Z ->
  (forall nowMs, maybeSpawnCoins w nowMs = w) /\
  (objects (spawnBurst w) = objects w /\ coins (spawnBurst w) = coins w) /\
  (forall time delta frame,
     length (objects (onXRFrame w time delta frame)) = length (objects w) /\
     lastSpawnAt (onXRFrame w time delta frame) = lastSpawnAt w).
Proof.
  intros Hfull.
  assert (forall w0 nowMs, coins w0 = coins w -> maybeSpawnCoins w0 nowMs = w0)
    as Hspawn.
  { intros w0 nowMs Hc. rewrite maybeSpawnCoins_unfold, Hc.
    destruct (Z.leb_spec MAX_COINS (JsSet.size (coins w))); [reflexivity|lia]. }
  split; [intros nowMs; apply Hspawn; reflexivity|]. split.
  - unfold spawnBurst. destruct (placed w); simpl; [|split; reflexivity].
    replace (Z.to_nat (Z.min 10 (MAX_COINS - JsSet.size (coins w)))) with 0%nat
      by lia.
    split; reflexivity.
  - intros time delta frame. unfold onXRFrame.
    destruct (updateReticle_shape w frame) as (r & s & ->).
    set (w1 := set_dom_status s (set_reticle r w)).
    destruct (negb (paused w1) && placed w1); [|split; reflexivity].
    rewrite (Hspawn w1 time eq_refl). unfold checkProximityCollect.
    rewrite collect_loop_objects_length, collect_loop_lastSpawnAt,
      updateCoins_objects_length, updateCoins_lastSpawnAt.
    split; reflexivity.
Qed.

(** X15. A tap on a live coin, the gate being placed, removes that coin and
    no other from the pool and adds one to the score and to the HUD, whether
    or not the game is paused; a tap that hits nothing changes nothing. *)
Theorem X15_tap_collects_one (w : World) (c : nat) :
  placed w = true ->
  NoDup (coins w) ->
  c ∈ coins w ->
  let w' := onPointerDown w (Some c) in
  (forall c', c' ∈ coins w' <-> c' ∈ coins w /\ c' <> c) /\
  S (length (coins w')) = length (coins w) /\
  score w' = (score w + 1)%nat /\
  dom_score w' = (score w + 1)%nat /\
  dom_alive w' = length (coins w') /\
  paused w' = paused w /\
  onPointerDown w None = w.
Proof.
  intros Hpl Hnd Hc w'. subst w'. unfold onPointerDown. rewrite Hpl. simpl.
  pose proof (collect_hud_fresh_member w c Hc) as [Hds Hda].
  rewrite Hds, Hda, collect_coins, (collect_score w c Hc). split_ands.
  - intros c'. apply JsSetFacts.elem_of_delete.
  - apply JsSetFacts.length_delete_elem; assumption.
  - reflexivity.
  - reflexivity.
  - reflexivity.
  - pose proof (collect_controls w c) as Hk.
    apply (f_equal (fun k : bool * bool * string * bool => k.1.1.2)) in Hk.
    exact Hk.
  - reflexivity.
Qed.

(** The creation time of a mesh of [w] is the same after the spawner ran. *)
Lemma maybeSpawnCoins_expired w nowMs time c :
  c ∈ coins w -> pool_wf w ->
  expired (maybeSpawnCoins w nowMs) time c = expired w time c.
Proof.
  intros Hc [_ Hall]. rewrite Forall_forall in Hall.
  destruct (lookup_lt_is_Some_2 (objects w) c (Hall c Hc)) as [o Ho].
  destruct (maybeSpawnCoins_grown w nowMs) as [_ (extra & Hp & _)].
  assert ((params <$> objects (maybeSpawnCoins w nowMs)) !! c
          = Some (params o)) as Hl.
  { rewrite Hp. apply lookup_app_l_Some. rewrite list_lookup_fmap, Ho.
    reflexivity. }
  rewrite list_lookup_fmap in Hl. unfold expired. rewrite Ho.
  destruct (objects (maybeSpawnCoins w nowMs) !! c) as [o'|]; [|discriminate].
  simpl in Hl. inversion Hl as [[Hm Hu]]. rewrite Hu. reflexivity.
Qed.

(** X16. Expiry comes before capture.  In a frame of the running game the
    pool is first thinned of the coins whose lifetime is over and only then
    tested for proximity, on the positions the frame has just given the
    coins: the score grows by the number of coins that are not expired and
    are near, and a coin of the pool that is expired leaves it without
    scoring, even with the viewer standing on it. *)
Theorem X16_expiry_before_capture (w : World) (time delta : Q)
    (frame : option (list (option Pose))) :
  pool_ok w ->
  placed w = true ->
  paused w = false ->
  let w' := onXRFrame w time delta frame in
  let w2 := maybeSpawnCoins (updateReticle w frame) time in
  let w3 := updateCoins w2 (if clock w then delta else 0.016) time in
  let head := Object3D.position (xrCamera w) in
  let fresh := List.filter (fun c => negb (expired w2 time c)) (coins w2) in
  coins w' = List.filter (fun c => negb (near w3 head c)) fresh /\
  score w' = (score w + length (List.filter (near w3 head) fresh))%nat /\
  (forall c, c ∈ coins w -> expired w time c = true -> c ∉ coins w').
Proof.
  intros Hok Hpl Hpa w' w2 w3 head fresh.
  destruct (updateReticle_shape w frame) as (r & s & Hshape).
  set (w1 := set_dom_status s (set_reticle r w)) in *.
  assert (w' = checkProximityCollect w3) as Hw'.
  { subst w' w3 w2. unfold onXRFrame. rewrite Hshape. simpl.
    rewrite Hpa, Hpl. reflexivity. }
  assert (pool_ok w1) as Hok1 by exact Hok.
  assert (pool_ok w3) as Hok3.
  { subst w3 w2. rewrite Hshape.
    apply updateCoins_pool_ok, maybeSpawnCoins_pool_ok, Hok1. }
  assert (coins w3 = fresh) as Hc3 by apply updateCoins_coins.
  assert (Object3D.position (xrCamera w3) = head) as Hhead.
  { subst w3 w2 head. rewrite Hshape.
    pose proof (updateCoins_base (maybeSpawnCoins w1 time)
                  (if clock w then delta else 0.016) time) as Hb.
    rewrite maybeSpawnCoins_base in Hb. unfold base in Hb. inversion Hb.
    congruence. }
  assert (coins w' = List.filter (fun c => negb (near w3 head c)) fresh) as Hc.
  { rewrite Hw', checkProximityCollect_coins, Hhead, Hc3. reflexivity. }
  split; [exact Hc|]. split.
  - rewrite Hw', (checkProximityCollect_score w3 (proj1 (proj1 Hok3))).
    rewrite Hhead, Hc3. subst w3 w2.
    rewrite updateCoins_score, Hshape, maybeSpawnCoins_score. reflexivity.
  - intros c Hin Hexp. rewrite Hc. subst fresh.
    rewrite !JsSetFacts.elem_of_filter. intros [[_ Hne] _].
    subst w2. rewrite Hshape in Hne.
    rewrite (maybeSpawnCoins_expired w1 time time c Hin (proj1 Hok1)) in Hne.
    change (expired w1 time c) with (expired w time c) in Hne.
    rewrite Hexp in Hne. discriminate.
Qed.

End Frame.

(** ** The anchor across a reset *)

Section Anchor.
Context `{Platform}.
Local Open Scope Q_scope.

(** X17. A reset does not clear the anchor, and the fallback sets a position
    only.  So after a placement on a surface, a reset, and a placement by
    the fallback (a frame without hit, then a pointer-down), the spawn root
    stands at the fallback position but still has the orientation of the
    surface it was first placed on. *)
Theorem X17_fallback_keeps_orientation (w : World) (pose : Pose)
    (hits : list (option Pose)) (t1 d1 t2 d2 : Q) (hit1 hit2 : option nat) :
  hitTestSource w = true ->
  placed w = false ->
  let w1 := onPointerDown (onXRFrame w t1 d1 (Some (Some pose :: hits))) hit1 in
  let w2 := resetGame w1 in
  let w3 := onPointerDown (onXRFrame w2 t2 d2 None) hit2 in
  spawnRoot w2 = spawnRoot w1 /\
  placed w2 = false /\
  placed w3 = true /\
  Object3D.quaternion (spawnRoot w3) = pose_quaternion pose /\
  Object3D.position (spawnRoot w3)
  = Vec.setY
      (Vec.addScaledVector (Object3D.position (xrCamera w))
         (Vec.normalize
            (Vec.applyQuaternion (Vector3.make 0 0 (-1))
               (Object3D.quaternion (xrCamera w)))) 1.5)
      (Vector3.y
         (Vec.addScaledVector (Object3D.position (xrCamera w))
            (Vec.normalize
               (Vec.applyQuaternion (Vector3.make 0 0 (-1))
                  (Object3D.quaternion (xrCamera w)))) 1.5)
       - 0.8).
Proof.
  intros Hsrc Hpl w1 w2 w3.
  assert (w1 = onPointerDown (updateReticle w (Some (Some pose :: hits))) hit1)
    as Hw1 by (subst w1; rewrite (onXRFrame_unplaced w Hpl); reflexivity).
  assert (placed w2 = false) as Hpl2
    by (subst w2; rewrite resetGame_shape; reflexivity).
  assert (spawnRoot w2 = spawnRoot w1) as Hroot2
    by (subst w2; rewrite resetGame_shape; reflexivity).
  assert (xrCamera w2 = xrCamera w /\ hitTestSource w2 = true /\
          Object3D.quaternion (spawnRoot w1) = pose_quaternion pose)
    as (Hcam & Hsrc2 & Hq).
  { subst w2. rewrite resetGame_shape, Hw1. clear w1 Hw1 w3 Hpl2 Hroot2.
    destruct w. simpl in Hsrc, Hpl. subst.
    unfold updateReticle, onPointerDown. cbn. split_ands; reflexivity. }
  split; [exact Hroot2|]. split; [exact Hpl2|].
  subst w3. rewrite (onXRFrame_unplaced w2 Hpl2).
  rewrite <- Hcam, <- Hq, <- Hroot2. clear Hcam Hq Hroot2 Hsrc2 Hw1.
  clearbody w2. clear w1. destruct (hitTestSource w2) eqn:Hs;
    destruct w2; simpl in Hpl2, Hs; subst;
    unfold updateReticle, onPointerDown; cbn; split_ands; reflexivity.
Qed.

End Anchor.

(** ** The scale of the live coins *)

Section Scale.
Context `{Platform}.
Local Open Scope Q_scope.

Lemma unit_scaled_subset w w' :
  (forall c, c ∈ coins w' -> c ∈ coins w) ->
  (forall c, c ∈ coins w' ->
     Mesh.scale <$> objects w' !! c = Mesh.scale <$> objects w !! c) ->
  unit_scaled w -> unit_scaled w'.
Proof.
  intros Hsub Hsame Hu c Hc. rewrite (Hsame c Hc). apply Hu, Hsub, Hc.
Qed.

Lemma tween_unit_scaled p w tw :
  staged (rafQueue w ++ tw :: p) w ->
  unit_scaled w -> unit_scaled (tween w tw).
Proof.
  intros (_ & _ & Hheld & _). apply unit_scaled_subset.
  - intros c. rewrite tween_coins. auto.
  - intros c. rewrite tween_coins, tween_objects. intros Hc.
    rewrite list_lookup_alter_ne; [reflexivity|].
    intros Heq. apply (Hheld tw); [|rewrite Heq; exact Hc].
    apply elem_of_app. right. left.
Qed.

Lemma tween_loop_unit_scaled p : forall w,
  staged (rafQueue w ++ p) w ->
  unit_scaled w -> unit_scaled (fold_left tween p w).
Proof.
  induction p as [|tw p IH]; intros w Hst Hu; simpl; [exact Hu|].
  apply IH; [apply tween_staged, Hst|].
  apply (tween_unit_scaled p w tw Hst Hu).
Qed.

Lemma collect_unit_scaled w obj :
  staged (rafQueue w) w -> unit_scaled w -> unit_scaled (collect w obj).
Proof.
  intros Hst Hu. destruct (decide (obj ∈ coins w)) as [Hobj|Hobj];
    [|rewrite collect_absent; auto].
  destruct (collect_member w obj Hobj) as (tw & Htw & ->).
  intros c Hc. simpl in Hc. rewrite tween_coins in Hc. simpl in Hc.
  apply JsSetFacts.elem_of_delete in Hc. destruct Hc as [Hc Hne].
  simpl. rewrite tween_objects, Htw. simpl.
  rewrite list_lookup_alter_ne by congruence. apply Hu, Hc.
Qed.

Lemma spawnOne_scales w c :
  (c < length (objects w))%nat ->
  Mesh.scale <$> objects (spawnOne w) !! c = Mesh.scale <$> objects w !! c.
Proof.
  intros Hlt. spawn_cases w; simpl;
    rewrite list_lookup_alter_ne by lia;
    rewrite lookup_app_l by exact Hlt; reflexivity.
Qed.

Lemma spawnOne_new_scale w :
  Mesh.scale <$> objects (spawnOne w) !! length (objects w)
  = Some (Vec.setScalar 1).
Proof.
  spawn_cases w; simpl; rewrite list_lookup_alter_eq;
    rewrite list_lookup_middle by reflexivity; reflexivity.
Qed.

Lemma spawnOne_unit_scaled w :
  pool_wf w -> unit_scaled w -> unit_scaled (spawnOne w).
Proof.
  intros Hwf Hu c Hc. rewrite (spawnOne_fresh w Hwf) in Hc.
  destruct Hwf as [_ Hall]. rewrite Forall_forall in Hall.
  apply elem_of_app in Hc. destruct Hc as [Hc|Hc].
  - rewrite spawnOne_scales by (apply Hall, Hc). apply Hu, Hc.
  - apply list_elem_of_singleton in Hc. subst c. apply spawnOne_new_scale.
Qed.

Lemma updateCoins_unit_scaled w dt nowMs :
  unit_scaled w -> unit_scaled (updateCoins w dt nowMs).
Proof.
  destruct (updateCoins_shape w dt nowMs) as (objs' & Hlook & _ & Hw').
  apply unit_scaled_subset.
  - intros c. rewrite updateCoins_coins, JsSetFacts.elem_of_filter. tauto.
  - intros c _.
    assert (objects (updateCoins w dt nowMs) = objs') as ->
      by (rewrite Hw'; destruct (length _ =? 0)%nat; reflexivity).
    apply (f_equal (fun l => l !! c)) in Hlook.
    rewrite !list_lookup_fmap in Hlook.
    destruct (objs' !! c) as [o'|], (objects w !! c) as [o|];
      simpl in Hlook |- *; try discriminate; [|reflexivity].
    unfold look in Hlook. congruence.
Qed.

Lemma step_staged_unit w e : staged_unit w -> staged_unit (step w e).
Proof.
  intros [Hst Hu]. split; [apply step_staged, Hst|].
  destruct e; cbn [step].
  - unfold onXRFrame. destruct (updateReticle_shape w frame) as (r & s & ->).
    set (w1 := set_dom_status s (set_reticle r w)).
    assert (staged_unit w1) as Hsu1 by (split; [exact Hst|exact Hu]).
    destruct (negb (paused w1) && placed w1); [|exact Hu].
    unfold checkProximityCollect.
    apply (fold_left_keeps staged_unit).
    { intros a x [Ha Hb]. split;
        [apply collect_staged, Ha|apply collect_unit_scaled; assumption]. }
    assert (staged_unit (maybeSpawnCoins w1 time)) as [Hst2 Hu2].
    { rewrite maybeSpawnCoins_unfold.
      destruct (_ <=? _)%Z; [exact Hsu1|].
      destruct (Qlt_le_dec _ _); [exact Hsu1|]. split.
      - exact (spawnOne_staged
                 (set_lastSpawnAt time (set_rnd_draws (S (rnd_draws w1)) w1))
                 Hst).
      - exact (spawnOne_unit_scaled
                 (set_lastSpawnAt time (set_rnd_draws (S (rnd_draws w1)) w1))
                 (proj1 Hst) Hu). }
    split; [apply updateCoins_staged, Hst2|apply updateCoins_unit_scaled, Hu2].
  - unfold onPointerDown. destruct (placed w); simpl.
    + destruct hit; [apply collect_unit_scaled; assumption|exact Hu].
    + destruct (Object3D.visible (reticle w)); exact Hu.
  - rewrite resetGame_shape. intros c Hc. inversion Hc.
  - exact Hu.
  - destruct (dom_btnBurst_disabled w); [exact Hu|].
    unfold spawnBurst. destruct (placed w); simpl; [|exact Hu].
    assert (forall n, staged_unit (Nat.iter n spawnOne w)) as Hn.
    { induction n as [|n [IH1 IH2]]; simpl; [split; assumption|]. split.
      - apply spawnOne_staged, IH1.
      - apply spawnOne_unit_scaled; [apply IH1|exact IH2]. }
    apply Hn.
  - exact Hu.
  - exact Hu.
  - unfold runAnimationFrame. apply tween_loop_unit_scaled; [exact Hst|exact Hu].
  - exact Hu.
Qed.

(** X18. The scale of the effect stays on the captured mesh: in every
    reachable state each live coin has scale 1 on its three axes, whatever
    effects are running or have run. *)
Theorem X18_live_coins_keep_unit_scale (w : World) (c : nat) :
  reachable w ->
  c ∈ coins w ->
  exists o,
    objects w !! c = Some o /\
    Mesh.scale o = Vector3.make 1 1 1.
Proof.
  intros Hr.
  assert (staged_unit w) as [_ Hu].
  { induction Hr as [h|w e _ IH]; [|apply step_staged_unit, IH].
    split; [|intros c0 Hc0; inversion Hc0].
    unfold staged, pool_wf. simpl. split_ands.
    - apply NoDup_nil. exact I.
    - apply Forall_nil. exact I.
    - intros c0 Hc0. inversion Hc0.
    - intros tw Htw. inversion Htw.
    - intros c0 Hc0. inversion Hc0. }
  intros Hc. specialize (Hu c Hc). destruct (objects w !! c) as [o|]; [|discriminate].
  exists o. split; [reflexivity|]. simpl in Hu. inversion Hu as [Hs]. rewrite Hs. reflexivity.
Qed.

End Scale.

(** ** The further properties on the reference page *)

(** The HUD after a placement, a burst and a tap on the first coin. *)
Lemma X1_witness :
  html_score Ref.host = 0%nat /\
  html_alive Ref.host = 0%nat /\
  dom_score Play.tapped = score Play.tapped /\
  dom_alive Play.tapped = length (coins Play.tapped) /\
  score Play.tapped = 1%nat /\
  length (coins Play.tapped) = 9%nat.
Proof.
  pose proof (@X1_hud_never_stale Ref.platform Ref.host
                [PointerDown None; BurstClick; PointerDown (Some 0%nat)]
                eq_refl eq_refl) as Hhud.
  cbv zeta in Hhud. destruct Hhud as [Hscore Halive].
  split; [reflexivity|]. split; [reflexivity|].
  split; [exact Hscore|]. split; [exact Halive|].
  split; vm_compute; reflexivity.
Defined.

(** The burst button after the placement by the fallback: enabled, and a
    click on it spawns ten coins. *)
Lemma X2_witness :
  html_btnBurst_disabled Ref.host = true /\
  dom_btnBurst_disabled (Ref.run Ref.init [PointerDown None]) = false /\
  JsSet.size (coins (Ref.run Ref.init [PointerDown None; BurstClick]))
  = 10%Z.
Proof.
  pose proof (@X2_burst_button_tracks_placement Ref.platform Ref.host
                [PointerDown None] eq_refl) as Hbtn.
  cbv zeta in Hbtn. destruct Hbtn as [Hdis Hburst].
  assert (dom_btnBurst_disabled (Ref.run Ref.init [PointerDown None]) = false)
    as Hen by (vm_compute; reflexivity).
  split; [reflexivity|]. split; [exact Hen|].
  change (JsSet.size
            (coins (@step Ref.platform
                      (@run Ref.platform (init Ref.host) [PointerDown None])
                      BurstClick)) = 10%Z).
  rewrite (Hburst Hen). vm_compute. reflexivity.
Defined.

(** The pause button of the paused page with ten coins. *)
Lemma X3_witness :
  html_btnPause Ref.host = "pause"%string /\
  paused Demo.paused_ten = true /\
  dom_btnPause Demo.paused_ten = "resume"%string.
Proof.
  pose proof (@X3_pause_label_tracks_flag Ref.platform Ref.host
                [PointerDown None; BurstClick; PauseClick] eq_refl) as Hlbl.
  cbv zeta in Hlbl. destruct Hlbl as [Hlabel _].
  assert (paused Demo.paused_ten = true) as Hpa by (vm_compute; reflexivity).
  split; [reflexivity|]. split; [exact Hpa|].
  change (dom_btnPause
            (@run Ref.platform (init Ref.host)
               [PointerDown None; BurstClick; PauseClick])
          = "resume"%string).
  rewrite Hlabel. vm_compute. reflexivity.
Defined.


(** A tap on the first coin of the page with ten coins: one point. *)
Lemma X5_witness :
  pool_ok Demo.ten /\
  score Demo.ten = 0%nat /\
  score (@step Ref.platform Demo.ten (PointerDown (Some 0%nat))) = 1%nat.
Proof.
  assert (pool_ok Demo.ten) as Hok
    by (apply (bool_decide_unpack _); vm_compute; exact I).
  destruct (@X5_score_by_event Ref.platform Demo.ten
              (PointerDown (Some 0%nat)) Hok) as [Heq _].
  split; [exact Hok|]. split; [vm_compute; reflexivity|].
  rewrite Heq. vm_compute. reflexivity.
Defined.

(** The tapped coin is off the pool, on the scene and in the queue. *)
Lemma X6_witness :
  @reachable Ref.platform Play.tapped /\
  (forall c, c ∈ coins Play.tapped -> c ∈ scene Play.tapped) /\
  (forall tw, tw ∈ rafQueue Play.tapped -> Tween.obj tw ∉ coins Play.tapped).
Proof.
  assert (@reachable Ref.platform Play.tapped) as Hr
    by (unfold Play.tapped; apply reachable_ref).
  destruct (@X6_scene_accounts_for_coins Ref.platform Play.tapped Hr)
    as (Hin & _ & Hout).
  split; [exact Hr|]. split; [exact Hin|exact Hout].
Defined.

(** The first mesh of the page with ten coins, after a frame, a tap on it
    and the end of its effect. *)
Lemma X8_witness :
  objects Demo.ten !! 0%nat = Some Play.first_mesh /\
  exists o',
    objects
      (@run Ref.platform Demo.ten
         [XRFrame 3000 0.016 None; PointerDown (Some 0%nat); AnimationFrame])
      !! 0%nat = Some o' /\
    Mesh.userData o' = Mesh.userData Play.first_mesh /\
    Mesh.material o' = Mesh.material Play.first_mesh.
Proof.
  assert (objects Demo.ten !! 0%nat = Some Play.first_mesh) as Ho
    by (vm_compute; reflexivity).
  split; [exact Ho|].
  exact (@X8_mesh_parameters_are_fixed Ref.platform Demo.ten
           [XRFrame 3000 0.016 None; PointerDown (Some 0%nat); AnimationFrame]
           0%nat Play.first_mesh Ho).
Defined.

(** The draws of the reference page are in range, so the parameters of
    its coins are. *)
Lemma X9_witness :
  (forall n, (0 <= host_random Ref.host n < 1)%Q) /\
  Forall (fun o => in_range (Mesh.userData o))
    (objects (@run Ref.platform (init Ref.host)
                [PointerDown None; BurstClick])).
Proof.
  assert (forall n, (0 <= host_random Ref.host n < 1)%Q) as Hrnd
    by (intros n; apply (random_range n)).
  split; [exact Hrnd|].
  exact (@X9_coin_parameters_in_range Ref.platform Ref.host
           [PointerDown None; BurstClick] Hrnd).
Defined.

(** A hit on the floor, then a tap: the spawn root is at the hit. *)
Lemma X11_witness :
  hitTestSource Play.session = true /\
  placed Play.session = false /\
  placed (@onPointerDown Ref.platform
            (@onXRFrame Ref.platform Play.session 16 0.016
               (Some [Some Play.floor])) None) = true /\
  Object3D.position
    (spawnRoot (@onPointerDown Ref.platform
                  (@onXRFrame Ref.platform Play.session 16 0.016
                     (Some [Some Play.floor])) None))
  = Vector3.make 1 0 (-2).
Proof.
  pose proof (@X11_surface_placement Ref.platform Play.session 16 0.016
                Play.floor [] None eq_refl eq_refl) as Hplace.
  cbv zeta in Hplace. destruct Hplace as (Hpl & Hpos & _).
  split; [reflexivity|]. split; [reflexivity|].
  split; [exact Hpl|exact Hpos].
Defined.

(** The session ended with twenty-five coins: a frame spawns nothing. *)
Lemma X12_witness :
  placed Demo.ended = false /\
  @spawnBurst Ref.platform Demo.ended = Demo.ended /\
  length (objects (@step Ref.platform Demo.ended (XRFrame 20000 0.016 None)))
  = length (objects Demo.ended).
Proof.
  assert (placed Demo.ended = false) as Hpl by (vm_compute; reflexivity).
  destruct (@X12_unplaced_spawns_nothing Ref.platform Demo.ended
              (XRFrame 20000 0.016 None) Hpl) as (_ & Hburst & Hlen & _).
  split; [exact Hpl|]. split; [exact Hburst|exact Hlen].
Defined.

(** The first coin of the page with ten coins, one frame on. *)
Lemma X13_witness :
  NoDup (coins Demo.ten) /\
  objects Demo.ten !! 0%nat = Some Play.first_mesh /\
  (0 ∈ coins Demo.ten)%nat /\
  exists o',
    objects (@updateCoins Ref.platform Demo.ten 0.016 2000) !! 0%nat
    = Some o' /\
    Mesh.scale o' = Mesh.scale Play.first_mesh /\
    Mesh.material o' = Mesh.material Play.first_mesh /\
    Mesh.userData o' = Mesh.userData Play.first_mesh.
Proof.
  assert (NoDup (coins Demo.ten)) as Hnd
    by (apply (bool_decide_unpack _); vm_compute; exact I).
  assert (objects Demo.ten !! 0%nat = Some Play.first_mesh) as Ho
    by (vm_compute; reflexivity).
  assert (0 ∈ coins Demo.ten)%nat as Hin
    by (apply (bool_decide_unpack _); vm_compute; exact I).
  pose proof (@X13_idle_motion Ref.platform Demo.ten 0.016 2000 0%nat
                Play.first_mesh Hnd Ho) as Hmove.
  cbv zeta in Hmove. destruct Hmove as [Hlive _].
  destruct (Hlive Hin) as (o' & Ho' & _ & _ & Hsc & Hmat & Hud).
  split; [exact Hnd|]. split; [exact Ho|]. split; [exact Hin|].
  exists o'. split; [exact Ho'|]. split; [exact Hsc|].
  split; [exact Hmat|exact Hud].
Defined.

(** The full pool: neither the timer nor a burst adds a coin. *)
Lemma X14_witness :
  (MAX_COINS <= JsSet.size (coins Play.full))%Z /\
  @maybeSpawnCoins Ref.platform Play.full 60000 = Play.full /\
  coins (@spawnBurst Ref.platform Play.full) = coins Play.full.
Proof.
  assert (MAX_COINS <= JsSet.size (coins Play.full))%Z as Hfull
    by (apply (bool_decide_unpack _); vm_compute; exact I).
  destruct (@X14_full_pool Ref.platform Play.full Hfull)
    as (Htimer & [_ Hburst] & _).
  split; [exact Hfull|]. split; [exact (Htimer 60000%Q)|exact Hburst].
Defined.

(** A tap on the fourth coin of the page with ten coins. *)
Lemma X15_witness :
  placed Demo.ten = true /\
  NoDup (coins Demo.ten) /\
  (3 ∈ coins Demo.ten)%nat /\
  score (@onPointerDown Ref.platform Demo.ten (Some 3%nat)) = 1%nat /\
  S (length (coins (@onPointerDown Ref.platform Demo.ten (Some 3%nat))))
  = 10%nat.
Proof.
  assert (placed Demo.ten = true) as Hpl by (vm_compute; reflexivity).
  assert (NoDup (coins Demo.ten)) as Hnd
    by (apply (bool_decide_unpack _); vm_compute; exact I).
  assert (3 ∈ coins Demo.ten)%nat as Hin
    by (apply (bool_decide_unpack _); vm_compute; exact I).
  pose proof (@X15_tap_collects_one Ref.platform Demo.ten 3%nat Hpl Hnd Hin)
    as Htap.
  cbv zeta in Htap. destruct Htap as (_ & Hlen & Hscore & _).
  split; [exact Hpl|]. split; [exact Hnd|]. split; [exact Hin|].
  split; [rewrite Hscore|rewrite Hlen]; vm_compute; reflexivity.
Defined.

(** The viewer stands on the only coin.  A frame at 1300 ms captures it;
    a frame at 22000 ms, when its lifetime is over, removes it and the
    score stays 0. *)
Lemma X16_witness :
  pool_ok Play.reached /\
  placed Play.reached = true /\
  paused Play.reached = false /\
  coins Play.reached = [0%nat] /\
  score (@onXRFrame Ref.platform Play.reached 1300 0.016 None) = 1%nat /\
  expired Play.reached 22000 0 = true /\
  coins (@onXRFrame Ref.platform Play.reached 22000 0.016 None) = [] /\
  score (@onXRFrame Ref.platform Play.reached 22000 0.016 None) = 0%nat.
Proof.
  assert (pool_ok Play.reached) as Hok
    by (apply (bool_decide_unpack _); vm_compute; exact I).
  assert (placed Play.reached = true) as Hpl by (vm_compute; reflexivity).
  assert (paused Play.reached = false) as Hpa by (vm_compute; reflexivity).
  pose proof (@X16_expiry_before_capture Ref.platform Play.reached 1300 0.016
                None Hok Hpl Hpa) as Hnear.
  pose proof (@X16_expiry_before_capture Ref.platform Play.reached 22000 0.016
                None Hok Hpl Hpa) as Hlate.
  cbv zeta in Hnear, Hlate.
  destruct Hnear as (_ & Hscore1 & _). destruct Hlate as (Hcoins & Hscore & _).
  split; [exact Hok|]. split; [exact Hpl|]. split; [exact Hpa|].
  split; [vm_compute; reflexivity|].
  split; [rewrite Hscore1; vm_compute; reflexivity|].
  split; [vm_compute; reflexivity|].
  split; [rewrite Hcoins|rewrite Hscore]; vm_compute; reflexivity.
Defined.

(** Placed on the floor, reset, placed by the fallback: the spawn root
    keeps the quarter turn of the floor pose. *)
Lemma X17_witness :
  hitTestSource Play.session = true /\
  placed Play.session = false /\
  Object3D.quaternion
    (spawnRoot
       (@onPointerDown Ref.platform
          (@onXRFrame Ref.platform
             (resetGame
                (@onPointerDown Ref.platform
                   (@onXRFrame Ref.platform Play.session 16 0.016
                      (Some [Some Play.floor])) None))
             32 0.016 None) None))
  = Quaternion.make 0 0.7071 0 0.7071.
Proof.
  pose proof (@X17_fallback_keeps_orientation Ref.platform Play.session
                Play.floor [] 16 0.016 32 0.016 None None eq_refl eq_refl)
    as Hkeep.
  cbv zeta in Hkeep. destruct Hkeep as (_ & _ & _ & Hq & _).
  split; [reflexivity|]. split; [reflexivity|]. exact Hq.
Defined.

(** The second coin of the page whose first coin is being animated. *)
Lemma X18_witness :
  @reachable Ref.platform Play.tapped /\
  (1 ∈ coins Play.tapped)%nat /\
  exists o,
    objects Play.tapped !! 1%nat = Some o /\
    Mesh.scale o = Vector3.make 1 1 1.
Proof.
  assert (@reachable Ref.platform Play.tapped) as Hr
    by (unfold Play.tapped; apply reachable_ref).
  assert (1 ∈ coins Play.tapped)%nat as Hin
    by (apply (bool_decide_unpack _); vm_compute; exact I).
  split; [exact Hr|]. split; [exact Hin|].
  exact (@X18_live_coins_keep_unit_scale Ref.platform Play.tapped 1%nat
           Hr Hin).
Defined.
